(** * The vhost-user control-plane client of the virtio-user driver

    A shallow embedding of [drivers/net/virtio/virtio_user/vhost_user.c]:
    the message transport ([vhost_user_write], [vhost_user_read]), the
    discovery of hugepage-backed files ([get_hugepage_file_info],
    [prepare_vhost_memory_user]), the request dispatcher
    ([vhost_user_sock]), the queue-pair helper
    ([vhost_user_enable_queue_pair]) and the connection setup
    ([vhost_user_setup], [virtio_user_start_server]).

    The C functions talk to the kernel; here the kernel is a [world]
    that every function threads through: the contents of
    /proc/self/maps, the file system as [stat] and [open] see it, the
    table of open descriptors, what the peer does at each [sendmsg] and
    [recv], and the [trace] of system calls made so far.  A function of
    the model returns [None] exactly where the C text has no defined
    behaviour (a NULL pointer from [strchr] that is dereferenced, an
    argument object of the wrong type behind the [void *]).

    Logging ([PMD_DRV_LOG]) has no effect on results and is left out. *)

From Stdlib Require Import ZArith String Ascii List Lia Bool.
From coqutil Require Import Byte Word.LittleEndianList.
From stdpp Require Import base gmap sets list strings.

Local Open Scope Z_scope.

(** ** C integer conversions *)

Definition to_u32 (z : Z) : Z := z mod 2 ^ 32.
Definition to_u64 (z : Z) : Z := z mod 2 ^ 64.
Definition to_size_t (z : Z) : Z := z mod 2 ^ 64.
(** Conversion to [int] (two's complement, 32 bits). *)
Definition to_int (z : Z) : Z := (z + 2 ^ 31) mod 2 ^ 32 - 2 ^ 31.

(** ** Memory of a message

    [struct vhost_user_msg] is packed; a message is the bytes of that
    struct, and a field is read and written at its offset, in host
    byte order (little-endian, as on the x86-64 and arm64 hosts the
    driver runs on).  Bytes that were never written hold whatever the
    stack held. *)

Definition buffer : Type := nat → byte.

Definition store (off : nat) (bs : list byte) (m : buffer) : buffer :=
  λ i, if decide (off ≤ i < off + length bs)%nat
       then default Byte.x00 (bs !! (i - off)%nat)
       else m i.

Definition load (off n : nat) (m : buffer) : list byte := m <$> seq off n.

Definition get_u32 (off : nat) (m : buffer) : Z := le_combine (load off 4 m).
Definition set_u32 (off : nat) (v : Z) (m : buffer) : buffer :=
  store off (le_split 4 v) m.
Definition get_u64 (off : nat) (m : buffer) : Z := le_combine (load off 8 m).
Definition set_u64 (off : nat) (v : Z) (m : buffer) : buffer :=
  store off (le_split 8 v) m.

(** ** Constants of vhost_user.c *)

Definition VHOST_USER_VERSION : Z := 1.
Definition VHOST_MEMORY_MAX_NREGIONS : Z := 8.
Definition VHOST_USER_VERSION_MASK : Z := 3.
Definition VHOST_USER_REPLY_MASK : Z := Z.shiftl 1 2.
Definition VHOST_USER_VRING_IDX_MASK : Z := 255.
Definition VHOST_USER_VRING_NOFD_MASK : Z := Z.shiftl 1 8.

(** [errno] values the model names. *)
Definition EINTR : Z := 4.
Definition EPIPE : Z := 32.

(** ** Types declared in vhost.h

    vhost.h is not among the sources.  The structs below have the
    layout section 6 of the specification gives (and the Linux vhost
    ABI fixes): a vring state is two 32-bit words, a vring address is
    two 32-bit words and four 64-bit words, a memory region is four
    64-bit words. *)

Record vhost_vring_state := { state_index : Z; state_num : Z }.

Record vhost_vring_file := { file_index : Z; file_fd : Z }.

Record vhost_vring_addr := {
  addr_index : Z;
  addr_flags : Z;
  addr_desc_user_addr : Z;
  addr_used_user_addr : Z;
  addr_avail_user_addr : Z;
  addr_log_guest_addr : Z
}.

Record vhost_memory_region := {
  guest_phys_addr : Z;
  memory_size : Z;
  userspace_addr : Z;
  mmap_offset : Z
}.

Definition sizeof_u64 : Z := 8.
Definition sizeof_vring_state : Z := 8.
Definition sizeof_vring_addr : Z := 40.
Definition sizeof_memory_region : Z := 32.

(** [enum vhost_user_request]: the names vhost_user.c uses, and the
    other enumerators of the protocol, which the dispatcher does not
    handle.  [request_code] is the number of each in the vhost-user
    protocol; the development uses the numbers only through it. *)
Inductive vhost_user_request :=
| VHOST_USER_NONE
| VHOST_USER_GET_FEATURES
| VHOST_USER_SET_FEATURES
| VHOST_USER_SET_OWNER
| VHOST_USER_RESET_OWNER
| VHOST_USER_SET_MEM_TABLE
| VHOST_USER_SET_LOG_BASE
| VHOST_USER_SET_LOG_FD
| VHOST_USER_SET_VRING_NUM
| VHOST_USER_SET_VRING_ADDR
| VHOST_USER_SET_VRING_BASE
| VHOST_USER_GET_VRING_BASE
| VHOST_USER_SET_VRING_KICK
| VHOST_USER_SET_VRING_CALL
| VHOST_USER_SET_VRING_ERR
| VHOST_USER_GET_PROTOCOL_FEATURES
| VHOST_USER_SET_PROTOCOL_FEATURES
| VHOST_USER_GET_QUEUE_NUM
| VHOST_USER_SET_VRING_ENABLE
| VHOST_USER_MAX.

Definition request_code (req : vhost_user_request) : Z :=
  match req with
  | VHOST_USER_NONE => 0
  | VHOST_USER_GET_FEATURES => 1
  | VHOST_USER_SET_FEATURES => 2
  | VHOST_USER_SET_OWNER => 3
  | VHOST_USER_RESET_OWNER => 4
  | VHOST_USER_SET_MEM_TABLE => 5
  | VHOST_USER_SET_LOG_BASE => 6
  | VHOST_USER_SET_LOG_FD => 7
  | VHOST_USER_SET_VRING_NUM => 8
  | VHOST_USER_SET_VRING_ADDR => 9
  | VHOST_USER_SET_VRING_BASE => 10
  | VHOST_USER_GET_VRING_BASE => 11
  | VHOST_USER_SET_VRING_KICK => 12
  | VHOST_USER_SET_VRING_CALL => 13
  | VHOST_USER_SET_VRING_ERR => 14
  | VHOST_USER_GET_PROTOCOL_FEATURES => 15
  | VHOST_USER_SET_PROTOCOL_FEATURES => 16
  | VHOST_USER_GET_QUEUE_NUM => 17
  | VHOST_USER_SET_VRING_ENABLE => 18
  | VHOST_USER_MAX => 19
  end.

(** ** struct vhost_user_msg: field offsets and accessors

    [request] at 0, [flags] at 4, [size] at 8, the [payload] union at
    12 ([VHOST_USER_HDR_SIZE]).  The union holds a [u64], a vring
    state, a vring address or a memory table; the largest is the
    memory table, 8 bytes and 8 regions of 32. *)

Definition VHOST_USER_HDR_SIZE : Z := 12.
Definition sizeof_payload : Z := 8 + VHOST_MEMORY_MAX_NREGIONS * sizeof_memory_region.

Definition off_request : nat := 0.
Definition off_flags : nat := 4.
Definition off_size : nat := 8.
Definition off_payload : nat := 12.

Definition msg_request (m : buffer) : Z := get_u32 off_request m.
Definition msg_flags (m : buffer) : Z := get_u32 off_flags m.
Definition msg_size (m : buffer) : Z := get_u32 off_size m.
Definition set_msg_request (v : Z) : buffer → buffer := set_u32 off_request v.
Definition set_msg_flags (v : Z) : buffer → buffer := set_u32 off_flags v.
Definition set_msg_size (v : Z) : buffer → buffer := set_u32 off_size v.

Definition payload_u64 (m : buffer) : Z := get_u64 off_payload m.
Definition set_payload_u64 (v : Z) : buffer → buffer := set_u64 off_payload v.

Definition payload_state (m : buffer) : vhost_vring_state :=
  {| state_index := get_u32 off_payload m;
     state_num := get_u32 (off_payload + 4) m |}.
Definition set_payload_state (s : vhost_vring_state) (m : buffer) : buffer :=
  set_u32 (off_payload + 4) (state_num s) (set_u32 off_payload (state_index s) m).

Definition set_payload_addr (a : vhost_vring_addr) (m : buffer) : buffer :=
  set_u64 (off_payload + 32) (addr_log_guest_addr a)
    (set_u64 (off_payload + 24) (addr_avail_user_addr a)
      (set_u64 (off_payload + 16) (addr_used_user_addr a)
        (set_u64 (off_payload + 8) (addr_desc_user_addr a)
          (set_u32 (off_payload + 4) (addr_flags a)
            (set_u32 off_payload (addr_index a) m))))).

Definition payload_memory_nregions (m : buffer) : Z := get_u32 off_payload m.
Definition set_payload_memory_nregions (v : Z) : buffer → buffer :=
  set_u32 off_payload v.
Definition set_payload_memory_padding (v : Z) : buffer → buffer :=
  set_u32 (off_payload + 4) v.

Definition off_region (i : nat) : nat := (off_payload + 8 + 32 * i)%nat.
Definition payload_memory_region (i : nat) (m : buffer) : vhost_memory_region :=
  {| guest_phys_addr := get_u64 (off_region i) m;
     memory_size := get_u64 (off_region i + 8) m;
     userspace_addr := get_u64 (off_region i + 16) m;
     mmap_offset := get_u64 (off_region i + 24) m |}.
Definition set_payload_memory_region (i : nat) (mr : vhost_memory_region)
    (m : buffer) : buffer :=
  set_u64 (off_region i + 24) (mmap_offset mr)
    (set_u64 (off_region i + 16) (userspace_addr mr)
      (set_u64 (off_region i + 8) (memory_size mr)
        (set_u64 (off_region i) (guest_phys_addr mr) m))).

(** The same fields, read from the bytes that went over the socket. *)
Definition wire_u32 (off : nat) (bs : list byte) : Z :=
  le_combine (take 4 (drop off bs)).
Definition wire_u64 (off : nat) (bs : list byte) : Z :=
  le_combine (take 8 (drop off bs)).
Definition wire_request : list byte → Z := wire_u32 off_request.
Definition wire_flags : list byte → Z := wire_u32 off_flags.
Definition wire_size : list byte → Z := wire_u32 off_size.
Definition wire_payload (bs : list byte) : list byte := drop off_payload bs.
Definition wire_payload_u64 : list byte → Z := wire_u64 off_payload.
Definition wire_payload_state (bs : list byte) : vhost_vring_state :=
  {| state_index := wire_u32 off_payload bs;
     state_num := wire_u32 (off_payload + 4) bs |}.
Definition wire_nregions : list byte → Z := wire_u32 off_payload.

(** ** The world *)

(** What the peer and the kernel do at one [sendmsg]: fail with an
    [errno], or take at most [n] bytes. *)
Inductive tx_result :=
| TxErr (errno : Z)
| TxAccept (n : nat).

(** What one [recv] finds: an error, or the bytes waiting in the socket. *)
Inductive rx_result :=
| RxErr (errno : Z)
| RxData (data : list byte).

Global Instance tx_result_eq_dec : EqDecision tx_result.
Proof. solve_decision. Defined.

Inductive event :=
| EvSendmsg (fd : Z) (buf : list byte) (fds : list Z)
| EvRecv (fd : Z) (off : nat) (n : nat)
| EvOpen (path : string) (fd : Z)
| EvClose (fd : Z).

Record world := World {
  (** /proc/self/maps, one string per [fgets]; [None]: [fopen] fails *)
  proc_maps : option (list string);
  (** [st_size] as [stat] reports it; [None]: [stat] fails *)
  stat_size : string → option Z;
  (** whether [open (path, O_RDWR)] succeeds *)
  openable : string → bool;
  (** the descriptors this process has open *)
  fd_table : gset Z;
  (** the outcomes of the [sendmsg] calls to come; when the list is
      used up the peer is gone and [sendmsg] fails with [EPIPE] *)
  tx_script : list tx_result;
  (** the outcomes of the [recv] calls to come; when the list is used
      up the peer has closed and [recv] returns 0 *)
  rx_script : list rx_result;
  (** what the stack holds where the dispatcher's [msg] is allocated *)
  stack : buffer;
  (** the system calls made, oldest first *)
  trace : list event
}.

Definition set_fd_table (t : gset Z) (w : world) : world :=
  World (proc_maps w) (stat_size w) (openable w) t (tx_script w) (rx_script w)
        (stack w) (trace w).
Definition set_tx_script (s : list tx_result) (w : world) : world :=
  World (proc_maps w) (stat_size w) (openable w) (fd_table w) s (rx_script w)
        (stack w) (trace w).
Definition set_rx_script (s : list rx_result) (w : world) : world :=
  World (proc_maps w) (stat_size w) (openable w) (fd_table w) (tx_script w) s
        (stack w) (trace w).
Definition set_trace (t : list event) (w : world) : world :=
  World (proc_maps w) (stat_size w) (openable w) (fd_table w) (tx_script w)
        (rx_script w) (stack w) t.
Definition log (e : event) (w : world) : world := set_trace (trace w ++ [e]) w.

(** ** The monad of the C functions: state, and [None] for undefined
    behaviour *)

Definition M (A : Type) : Type := world → option (A * world).

Definition retM {A} (a : A) : M A := λ w, Some (a, w).
Definition bindM {A B} (m : M A) (k : A → M B) : M B :=
  λ w, match m w with
       | Some (a, w') => k a w'
       | None => None
       end.
Definition undefined {A} : M A := λ _, None.

Notation "'let*' p := m 'in' k" := (bindM m (λ p, k))
  (at level 10, p pattern, m at level 100, k at level 200).

(** ** System calls *)

(** [open (path, O_RDWR)]: a descriptor that is not in use, or -1. *)
Definition sys_open (path : string) : M Z := λ w,
  if openable w path then
    let fd := fresh (fd_table w) in
    Some (fd, log (EvOpen path fd) (set_fd_table ({[fd]} ∪ fd_table w) w))
  else Some (-1, log (EvOpen path (-1)) w).

(** [close (fd)]; closing what is not open changes nothing. *)
Definition sys_close (fd : Z) : M unit := λ w,
  Some (tt, log (EvClose fd) (set_fd_table (fd_table w ∖ {[fd]}) w)).

(** [sendmsg (fd, &msgh, 0)] with one iovec [buf] and the descriptors
    [fds] as SCM_RIGHTS data: the return value and [errno]. *)
Definition sys_sendmsg (fd : Z) (buf : list byte) (fds : list Z) : M (Z * Z) := λ w,
  let w' := log (EvSendmsg fd buf fds) w in
  match tx_script w with
  | [] => Some ((-1, EPIPE), w')
  | TxErr e :: rest => Some ((-1, e), set_tx_script rest w')
  | TxAccept n :: rest =>
      Some ((Z.of_nat (Nat.min n (length buf)), 0), set_tx_script rest w')
  end.

(** [recv (fd, (char * ) msg + off, n, 0)]: the return value and the
    message with the bytes received stored in it.  Bytes the call does
    not take stay in the socket for the next [recv]. *)
Definition sys_recv (fd : Z) (msg : buffer) (off n : nat) : M (Z * buffer) := λ w,
  let w' := log (EvRecv fd off n) w in
  match rx_script w with
  | [] => Some ((0, msg), w')
  | RxErr e :: rest => Some ((-1, msg), set_rx_script rest w')
  | RxData data :: rest =>
      let got := take n data in
      let more := drop n data in
      Some ((Z.of_nat (length got), store off got msg),
            set_rx_script (match more with [] => rest | _ => RxData more :: rest end) w')
  end.

(** ** Message transport *)

(** [do { r = sendmsg (...); } while (r < 0 && errno == EINTR);] Every
    turn uses up one entry of [tx_script], so as many turns as the
    script has entries, and one more, are enough. *)
Fixpoint sendmsg_loop (turns : nat) (fd : Z) (buf : list byte) (fds : list Z)
    : M Z :=
  let* (r, errno) := sys_sendmsg fd buf fds in
  if (r <? 0) && (errno =? EINTR) then
    match turns with
    | O => undefined
    | S turns' => sendmsg_loop turns' fd buf fds
    end
  else retM r.

Definition vhost_user_write (fd : Z) (buf : buffer) (len : Z) (fds : list Z)
    : M Z := λ w,
  sendmsg_loop (length (tx_script w)) fd (load 0 (Z.to_nat len) buf) fds w.

Definition vhost_user_read (fd : Z) (msg : buffer) : M (Z * buffer) :=
  let valid_flags := Z.lor VHOST_USER_REPLY_MASK VHOST_USER_VERSION in
  let sz_hdr := VHOST_USER_HDR_SIZE in
  let* (ret, msg) := sys_recv fd msg 0 (Z.to_nat sz_hdr) in
  if ret <? sz_hdr then retM (-1, msg) else
  (* validate msg flags *)
  if negb (msg_flags msg =? valid_flags) then retM (-1, msg) else
  let sz_payload := to_int (msg_size msg) in
  if sizeof_payload <? to_size_t sz_payload then retM (-1, msg) else
  if negb (sz_payload =? 0) then
    let* (ret, msg) := sys_recv fd msg (Z.to_nat sz_hdr) (Z.to_nat sz_payload) in
    if ret <? sz_payload then retM (-1, msg) else retM (0, msg)
  else retM (0, msg).

(** ** C strings and the conversions of [sscanf]

    The C library is not part of the driver.  A C string is modelled
    by a [string]; [strchr], [strrchr] and the two [sscanf] formats the
    driver uses are written out as the GNU C library runs them. *)

Local Open Scope string_scope.

Definition newline : ascii := ascii_of_nat 10.

(** [strchr (s, c)]: the rest of [s] from the first [c] on, or NULL. *)
Fixpoint strchr (s : string) (c : ascii) : option string :=
  match s with
  | EmptyString => None
  | String a s' => if Ascii.eqb a c then Some s else strchr s' c
  end.

(** [strrchr (s, c) - s]: the position of the last [c] in [s]. *)
Fixpoint strrchr (s : string) (c : ascii) : option nat :=
  match s with
  | EmptyString => None
  | String a s' =>
      match strrchr s' c with
      | Some i => Some (S i)
      | None => if Ascii.eqb a c then Some O else None
      end
  end.

(** [s + n] *)
Definition str_from (n : nat) (s : string) : string :=
  substring n (String.length s - n) s.

Definition is_space (c : ascii) : bool :=
  let n := nat_of_ascii c in
  (n =? 32)%nat || ((9 <=? n)%nat && (n <=? 13)%nat).

Definition is_digit (c : ascii) : bool :=
  let n := nat_of_ascii c in (48 <=? n)%nat && (n <=? 57)%nat.

Definition hex_digit (c : ascii) : option Z :=
  let n := nat_of_ascii c in
  if (48 <=? n)%nat && (n <=? 57)%nat then Some (Z.of_nat (n - 48))
  else if (97 <=? n)%nat && (n <=? 102)%nat then Some (Z.of_nat (n - 87))
  else if (65 <=? n)%nat && (n <=? 70)%nat then Some (Z.of_nat (n - 55))
  else None.

Fixpoint skip_white (s : string) : string :=
  match s with
  | String a s' => if is_space a then skip_white s' else s
  | EmptyString => s
  end.

Definition skip_sign (s : string) : bool * string :=
  match s with
  | String a s' =>
      if Ascii.eqb a "-" then (true, s')
      else if Ascii.eqb a "+" then (false, s')
      else (false, s)
  | EmptyString => (false, s)
  end.

Fixpoint hex_digits (s : string) (acc : Z) : Z * string :=
  match s with
  | String a s' =>
      match hex_digit a with
      | Some d => hex_digits s' (16 * acc + d)
      | None => (acc, s)
      end
  | EmptyString => (acc, s)
  end.

Definition starts_with_hex (s : string) : bool :=
  match s with
  | String a _ => bool_decide (is_Some (hex_digit a))
  | EmptyString => false
  end.

(** The conversion [%lx] ([PRIx64]) of the GNU C library: white space,
    an optional sign, an optional 0x, hexadecimal digits; the value as
    [strtoul] gives it.  After 0x the digits may be missing: the two
    characters are read and the value is 0.  Returns the value and the
    rest of the input. *)
Definition scan_lx (s : string) : option (Z * string) :=
  let '(neg, s) := skip_sign (skip_white s) in
  let '(prefix, s) :=
    match s with
    | String z (String x s') =>
        if Ascii.eqb z "0" && (Ascii.eqb x "x" || Ascii.eqb x "X")
        then (true, s') else (false, s)
    | _ => (false, s)
    end in
  if prefix || starts_with_hex s then
    let '(v, rest) := hex_digits s 0 in
    Some (if 2 ^ 64 <=? v then 2 ^ 64 - 1 else if neg then to_u64 (- v) else v,
          rest)%Z
  else None.

(** [sscanf (buf, "%lx-%lx", &v_start, &v_end)]: [Some] when both
    conversions are assigned (the call returns 2). *)
Definition sscanf_range (buf : string) : option (Z * Z) :=
  match scan_lx buf with
  | Some (v_start, String a rest) =>
      if Ascii.eqb a "-" then
        match scan_lx rest with
        | Some (v_end, _) => Some (v_start, v_end)
        | None => None
        end
      else None
  | _ => None
  end.

(** [sscanf (s, "map_%d", &huge_index) == 1]: the four characters,
    then white space, an optional sign and a digit. *)
Definition sscanf_map_d (s : string) : bool :=
  match s with
  | String m (String a (String p (String u rest))) =>
      Ascii.eqb m "m" && Ascii.eqb a "a" && Ascii.eqb p "p" && Ascii.eqb u "_" &&
      match snd (skip_sign (skip_white rest)) with
      | String d _ => is_digit d
      | EmptyString => false
      end
  | _ => false
  end.

(** ** Memory region discovery *)

Definition PATH_MAX : nat := 4096.

Record hugepage_file_info := {
  huge_addr : Z;       (* virtual addr *)
  huge_size : Z;       (* the file size *)
  huge_path : string   (* path to backing file *)
}.

(** [tmp = strchr (tmp, ' ') + 1]; undefined when there is no space. *)
Definition skip_field (tmp : string) : option string :=
  match strchr tmp " " with
  | Some (String _ rest) => Some rest
  | _ => None
  end.

Fixpoint skip_spaces (tmp : string) : string :=
  match tmp with
  | String a tmp' => if Ascii.eqb a " " then skip_spaces tmp' else tmp
  | EmptyString => tmp
  end.

(** Lines 162 to 171: the pathname column of a line, the newline cut
    off. *)
Definition path_field (buf : string) : option string :=
  tmp ← skip_field buf;      (* skip address *)
  tmp ← skip_field tmp;      (* skip perm *)
  tmp ← skip_field tmp;      (* skip offset *)
  tmp ← skip_field tmp;      (* skip dev *)
  tmp ← skip_field tmp;      (* skip inode *)
  let tmp := skip_spaces tmp in
  match strrchr tmp newline with
  | Some tail => Some (substring 0 tail tmp)
  | None => Some tmp
  end.

(** Lines 176 to 185: whether [tmp] matches HUGEFILE_FMT. *)
Definition match_hugefile (tmp : string) : bool :=
  match strrchr tmp "_" with
  | None => false
  | Some str_underline =>
      if (str_underline <? 3)%nat then false
      else sscanf_map_d (str_from (str_underline - 3) tmp)
  end.

(** [snprintf (dst, n, "%s", src)] *)
Definition snprintf (n : nat) (src : string) : string := substring 0 (n - 1) src.

(** The loop over the lines.  [huges] holds the records written so
    far ([idx] is its length); the result is 0 when the lines are used
    up and -1 at [goto error]. *)
Fixpoint scan_maps (lines : list string) (max : Z)
    (huges : list hugepage_file_info) : option (Z * list hugepage_file_info) :=
  match lines with
  | [] => Some (0%Z, huges)
  | buf :: lines' =>
      match sscanf_range buf with
      | None => Some ((-1)%Z, huges)
      | Some (v_start, v_end) =>
          match path_field buf with
          | None => None
          | Some tmp =>
              if negb (match_hugefile tmp) then scan_maps lines' max huges
              (* skip duplicated file which is mapped to different regions *)
              else if existsb (λ h, String.eqb (huge_path h) tmp) huges
              then scan_maps lines' max huges
              else if (max <=? Z.of_nat (length huges))%Z then Some ((-1)%Z, huges)
              else scan_maps lines' max
                     (huges ++ [ {| huge_addr := v_start;
                                    huge_size := to_size_t (v_end - v_start);
                                    huge_path := snprintf PATH_MAX tmp |} ])
          end
      end
  end.

(** correct the size for files who have many regions *)
Definition correct_size (w : world) (h : hugepage_file_info) : hugepage_file_info :=
  match stat_size w (huge_path h) with
  | None => h
  | Some st_size =>
      {| huge_addr := huge_addr h;
         huge_size := to_size_t st_size;
         huge_path := huge_path h |}
  end.

(** Returns the return value and the array [huges] as the call leaves
    it. *)
Definition get_hugepage_file_info (max : Z) : M (Z * list hugepage_file_info) :=
  λ w,
  match proc_maps w with
  | None => Some (((-1)%Z, []), w)
  | Some lines =>
      match scan_maps lines max [] with
      | None => None
      | Some (r, huges) =>
          if (r <? 0)%Z then Some (((-1)%Z, huges), w)
          else Some ((Z.of_nat (length huges), correct_size w <$> huges), w)
      end
  end.

Local Close Scope string_scope.

(** The loop of [prepare_vhost_memory_user]; [fds] holds [fds[0]] to
    [fds[i-1]]. *)
Fixpoint open_regions (huges : list hugepage_file_info) (i : nat)
    (msg : buffer) (fds : list Z) : M (buffer * list Z) :=
  match huges with
  | [] => retM (msg, fds)
  | h :: huges' =>
      let msg :=
        set_payload_memory_region i
          {| guest_phys_addr := huge_addr h;     (* use vaddr! *)
             userspace_addr := huge_addr h;
             memory_size := huge_size h;
             mmap_offset := 0 |} msg in
      let* fd := sys_open (huge_path h) in
      open_regions huges' (S i) msg (fds ++ [fd])
  end.

Definition prepare_vhost_memory_user (msg : buffer) : M (Z * buffer * list Z) :=
  let* (num, huges) := get_hugepage_file_info VHOST_MEMORY_MAX_NREGIONS in
  if num <? 0 then retM (-1, msg, []) else
  let* (msg, fds) := open_regions (take (Z.to_nat num) huges) 0 msg [] in
  let msg := set_payload_memory_nregions num msg in
  let msg := set_payload_memory_padding 0 msg in
  retM (0, msg, fds).

(** ** Request dispatcher *)

(** The fields of [struct virtio_user_dev] (virtio_user_dev.h) that
    vhost_user.c reads and writes. *)
Record virtio_user_dev := {
  vhostfd : Z;
  listenfd : Z;
  is_server : bool;
  path : string
}.

(** The object behind [void *arg]. *)
Inductive arg_t :=
| ArgNull
| ArgU64 (v : Z)
| ArgInt (v : Z)
| ArgState (s : vhost_vring_state)
| ArgAddr (a : vhost_vring_addr)
| ArgFile (f : vhost_vring_file).

(** How the [switch] of [vhost_user_sock] ends: with the message
    built, or with a [return]. *)
Inductive built :=
| Built (msg : buffer) (fds : list Z) (need_reply : bool)
| Return (r : Z).

Definition build_request (req : vhost_user_request) (arg : arg_t) (msg : buffer)
    : M built :=
  match req with
  | VHOST_USER_GET_FEATURES => retM (Built msg [] true)

  | VHOST_USER_SET_FEATURES
  | VHOST_USER_SET_LOG_BASE =>
      match arg with
      | ArgU64 v =>
          let msg := set_payload_u64 v msg in
          let msg := set_msg_size sizeof_u64 msg in
          retM (Built msg [] false)
      | _ => undefined
      end

  | VHOST_USER_SET_OWNER
  | VHOST_USER_RESET_OWNER => retM (Built msg [] false)

  | VHOST_USER_SET_MEM_TABLE =>
      let* (r, msg, fds) := prepare_vhost_memory_user msg in
      if r <? 0 then retM (Return (-1)) else
      let fd_num := to_int (payload_memory_nregions msg) in
      let msg := set_msg_size 4 msg in
      let msg := set_msg_size (msg_size msg + 4) msg in
      let msg := set_msg_size (msg_size msg + fd_num * sizeof_memory_region) msg in
      retM (Built msg (take (Z.to_nat fd_num) fds) false)

  | VHOST_USER_SET_LOG_FD =>
      match arg with
      | ArgInt fd => retM (Built msg [fd] false)
      | _ => undefined
      end

  | VHOST_USER_SET_VRING_NUM
  | VHOST_USER_SET_VRING_BASE
  | VHOST_USER_SET_VRING_ENABLE =>
      match arg with
      | ArgState s =>
          let msg := set_payload_state s msg in
          let msg := set_msg_size sizeof_vring_state msg in
          retM (Built msg [] false)
      | _ => undefined
      end

  | VHOST_USER_GET_VRING_BASE =>
      match arg with
      | ArgState s =>
          let msg := set_payload_state s msg in
          let msg := set_msg_size sizeof_vring_state msg in
          retM (Built msg [] true)
      | _ => undefined
      end

  | VHOST_USER_SET_VRING_ADDR =>
      match arg with
      | ArgAddr a =>
          let msg := set_payload_addr a msg in
          let msg := set_msg_size sizeof_vring_addr msg in
          retM (Built msg [] false)
      | _ => undefined
      end

  | VHOST_USER_SET_VRING_KICK
  | VHOST_USER_SET_VRING_CALL
  | VHOST_USER_SET_VRING_ERR =>
      match arg with
      | ArgFile file =>
          let msg :=
            set_payload_u64 (Z.land (file_index file) VHOST_USER_VRING_IDX_MASK) msg in
          let msg := set_msg_size sizeof_u64 msg in
          if 0 <? file_fd file then retM (Built msg [file_fd file] false)
          else
            let msg :=
              set_payload_u64 (Z.lor (payload_u64 msg) VHOST_USER_VRING_NOFD_MASK) msg in
            retM (Built msg [] false)
      | _ => undefined
      end

  | _ => retM (Return (-1))
  end.

Fixpoint close_fds (fds : list Z) : M unit :=
  match fds with
  | [] => retM tt
  | fd :: fds' => let* _ := sys_close fd in close_fds fds'
  end.

Definition is_set_mem_table (req : vhost_user_request) : bool :=
  match req with VHOST_USER_SET_MEM_TABLE => true | _ => false end.

(** Lines 372 to 402 of [vhost_user_sock]: read the reply, check it
    and copy its payload to the object behind [arg].  Returns the
    return value and that object. *)
Definition read_reply (dev : virtio_user_dev) (req : vhost_user_request)
    (arg : arg_t) (msg : buffer) : M (Z * arg_t) :=
  let* (r, msg) := vhost_user_read (vhostfd dev) msg in
  if r <? 0 then retM (-1, arg) else
  if negb (request_code req =? msg_request msg) then retM (-1, arg) else
  match req with
  | VHOST_USER_GET_FEATURES =>
      if negb (msg_size msg =? sizeof_u64) then retM (-1, arg) else
      match arg with
      | ArgU64 _ => retM (0, ArgU64 (payload_u64 msg))
      | _ => undefined
      end
  | VHOST_USER_GET_VRING_BASE =>
      if negb (msg_size msg =? sizeof_vring_state) then retM (-1, arg) else
      match arg with
      | ArgState _ => retM (0, ArgState (payload_state msg))
      | _ => undefined
      end
  | _ => retM (-1, arg)
  end.

(** Lines 360 to 405 of [vhost_user_sock], after the [switch]: send
    the message, close the descriptors of a memory table, read the
    reply when one is due. *)
Definition exchange (dev : virtio_user_dev) (req : vhost_user_request)
    (arg : arg_t) (msg : buffer) (fds : list Z) (need_reply : bool)
    : M (Z * arg_t) :=
  let len := to_int (VHOST_USER_HDR_SIZE + msg_size msg) in
  let* r := vhost_user_write (vhostfd dev) msg len fds in
  if r <? 0 then retM (-1, arg) else
  let* _ := (if is_set_mem_table req then close_fds fds else retM tt) in
  if need_reply then read_reply dev req arg msg else retM (0, arg).

(** Lines 293 to 295: the header of a request, in the uninitialised
    [msg]. *)
Definition request_header (req : vhost_user_request) (msg : buffer) : buffer :=
  let msg := set_msg_request (request_code req) msg in
  let msg := set_msg_flags VHOST_USER_VERSION msg in
  let msg := set_msg_size 0 msg in
  msg.

Definition vhost_user_sock (dev : virtio_user_dev) (req : vhost_user_request)
    (arg : arg_t) : M (Z * arg_t) :=
  if is_server dev && (vhostfd dev <? 0) then retM (-1, arg) else
  let* msg := (λ w, Some (stack w, w)) in
  let msg := request_header req msg in
  let* b := build_request req arg msg in
  match b with
  | Return r => retM (r, arg)
  | Built msg fds need_reply => exchange dev req arg msg fds need_reply
  end.

(** ** Queue-pair enable helper *)

(** [for (i = 0; i < 2; ++i)], with [n] turns left. *)
Fixpoint enable_loop (n : nat) (i : Z) (dev : virtio_user_dev) (pair_idx : Z)
    (enable : Z) : M Z :=
  match n with
  | O => retM 0
  | S n' =>
      let state := {| state_index := to_u32 (pair_idx * 2 + i);
                      state_num := to_u32 enable |} in
      let* (r, _) := vhost_user_sock dev VHOST_USER_SET_VRING_ENABLE (ArgState state) in
      if negb (r =? 0) then retM (-1) else enable_loop n' (i + 1) dev pair_idx enable
  end.

Definition vhost_user_enable_queue_pair (dev : virtio_user_dev) (pair_idx : Z)
    (enable : Z) : M Z :=
  enable_loop 2 0 dev pair_idx enable.

(** ** Connection setup

    [vhost_user_setup] and [virtio_user_start_server] create the
    socket the message functions talk over.  They make system calls
    the [world] does not have, so they run on a [host]: the world, the
    sockets of the process and what the kernel answers to [socket],
    [bind], [listen] and [connect]. *)

(** Values of <fcntl.h> and <sys/un.h> on Linux. *)
Definition FD_CLOEXEC : Z := 1.
Definition O_RDWR : Z := 2.
Definition O_NONBLOCK : Z := 2048.
Definition sizeof_sun_path : nat := 108.

Definition MAX_VIRTIO_USER_BACKLOG : Z := 1.

(** What the kernel keeps for a socket descriptor. *)
Record socket := Socket {
  fd_flags : Z;                    (* F_GETFD / F_SETFD *)
  status_flags : Z;                (* F_GETFL / F_SETFL *)
  bound_to : option string;        (* [sun_path] of a successful [bind] *)
  listen_backlog : option Z;       (* backlog of a successful [listen] *)
  connected_to : option string     (* [sun_path] of a successful [connect] *)
}.

(** What the kernel answers: whether [socket] succeeds, whether an
    address can be bound, whether [listen] succeeds, whether someone
    accepts connections at an address. *)
Record socket_env := {
  socket_ok : bool;
  bindable : string → bool;
  listen_ok : bool;
  connectable : string → bool
}.

Inductive socket_call :=
| CallSocket (r : Z)
| CallGetfd (fd r : Z)
| CallSetfd (fd flags r : Z)
| CallBind (fd : Z) (sun_path : string) (r : Z)
| CallListen (fd backlog r : Z)
| CallGetfl (fd r : Z)
| CallSetfl (fd flags r : Z)
| CallConnect (fd : Z) (sun_path : string) (r : Z).

Record host := Host {
  files : world;
  env : socket_env;
  sockets : gmap Z socket;
  (** the socket calls made, oldest first *)
  calls : list socket_call
}.

Definition set_files (w : world) (h : host) : host :=
  Host w (env h) (sockets h) (calls h).
Definition set_sockets (s : gmap Z socket) (h : host) : host :=
  Host (files h) (env h) s (calls h).
Definition log_call (c : socket_call) (h : host) : host :=
  Host (files h) (env h) (sockets h) (calls h ++ [c]).

Definition N (A : Type) : Type := host → option (A * host).

Definition retN {A} (a : A) : N A := λ h, Some (a, h).
Definition bindN {A B} (m : N A) (k : A → N B) : N B :=
  λ h, match m h with
       | Some (a, h') => k a h'
       | None => None
       end.

Notation "'let+' p := m 'in' k" := (bindN m (λ p, k))
  (at level 10, p pattern, m at level 100, k at level 200).

(** A function of the world, run on the host's world. *)
Definition liftN {A} (m : M A) : N A := λ h,
  match m (files h) with
  | Some (a, w') => Some (a, set_files w' h)
  | None => None
  end.

(** [socket (AF_UNIX, SOCK_STREAM, 0)]: a descriptor that is not in
    use, or -1. *)
Definition sys_socket : N Z := λ h,
  if socket_ok (env h) then
    let w := files h in
    let fd := fresh (fd_table w) in
    Some (fd, log_call (CallSocket fd)
                (set_sockets (<[fd := Socket 0 O_RDWR None None None]> (sockets h))
                   (set_files (set_fd_table ({[fd]} ∪ fd_table w) w) h)))
  else Some (-1, log_call (CallSocket (-1)) h).

(** A call on the socket [fd] that gives [r s] and leaves the socket
    as [upd s]; -1 when [fd] is no socket. *)
Definition on_socket (fd : Z) (r : socket → Z) (upd : socket → socket)
    (call : Z → socket_call) : N Z := λ h,
  match sockets h !! fd with
  | Some s => Some (r s, log_call (call (r s)) (set_sockets (<[fd := upd s]> (sockets h)) h))
  | None => Some (-1, log_call (call (-1)) h)
  end.

(** [fcntl (fd, F_GETFD)] and [fcntl (fd, F_SETFD, flags)] *)
Definition sys_fcntl_getfd (fd : Z) : N Z :=
  on_socket fd fd_flags id (CallGetfd fd).
Definition sys_fcntl_setfd (fd flags : Z) : N Z :=
  on_socket fd (λ _, 0)
    (λ s, Socket flags (status_flags s) (bound_to s) (listen_backlog s) (connected_to s))
    (CallSetfd fd flags).

(** [fcntl (fd, F_GETFL)] and [fcntl (fd, F_SETFL, flags)] *)
Definition sys_fcntl_getfl (fd : Z) : N Z :=
  on_socket fd status_flags id (CallGetfl fd).
Definition sys_fcntl_setfl (fd flags : Z) : N Z :=
  on_socket fd (λ _, 0)
    (λ s, Socket (fd_flags s) flags (bound_to s) (listen_backlog s) (connected_to s))
    (CallSetfl fd flags).

(** [bind (fd, (struct sockaddr * ) un, sizeof ( *un))]; [un] is an
    AF_UNIX address, given by its [sun_path]. *)
Definition sys_bind (fd : Z) (un : string) : N Z := λ h,
  if bindable (env h) un then
    on_socket fd (λ _, 0)
      (λ s, Socket (fd_flags s) (status_flags s) (Some un) (listen_backlog s)
              (connected_to s))
      (CallBind fd un) h
  else Some (-1, log_call (CallBind fd un (-1)) h).

(** [listen (fd, backlog)] *)
Definition sys_listen (fd backlog : Z) : N Z := λ h,
  if listen_ok (env h) then
    on_socket fd (λ _, 0)
      (λ s, Socket (fd_flags s) (status_flags s) (bound_to s) (Some backlog)
              (connected_to s))
      (CallListen fd backlog) h
  else Some (-1, log_call (CallListen fd backlog (-1)) h).

(** [connect (fd, (struct sockaddr * ) &un, sizeof (un))] *)
Definition sys_connect (fd : Z) (un : string) : N Z := λ h,
  if connectable (env h) un then
    on_socket fd (λ _, 0)
      (λ s, Socket (fd_flags s) (status_flags s) (bound_to s) (listen_backlog s)
              (Some un))
      (CallConnect fd un) h
  else Some (-1, log_call (CallConnect fd un (-1)) h).

(** [close (fd)] of a socket: the descriptor leaves the table of the
    world and the kernel forgets the socket. *)
Definition host_close (fd : Z) : N unit :=
  let+ _ := liftN (sys_close fd) in
  λ h, Some (tt, set_sockets (delete fd (sockets h)) h).

Definition set_listenfd (fd : Z) (dev : virtio_user_dev) : virtio_user_dev :=
  {| vhostfd := vhostfd dev; listenfd := fd; is_server := is_server dev;
     path := path dev |}.
Definition set_vhostfd (fd : Z) (dev : virtio_user_dev) : virtio_user_dev :=
  {| vhostfd := fd; listenfd := listenfd dev; is_server := is_server dev;
     path := path dev |}.

(** [un] is the [sun_path] of the address; [sun_family] is AF_UNIX. *)
Definition virtio_user_start_server (dev : virtio_user_dev) (un : string) : N Z :=
  let fd := listenfd dev in
  let+ ret := sys_bind fd un in
  if ret <? 0 then retN (-1) else
  let+ ret := sys_listen fd MAX_VIRTIO_USER_BACKLOG in
  if ret <? 0 then retN (-1) else
  let+ flag := sys_fcntl_getfl fd in
  let+ _ := sys_fcntl_setfl fd (Z.lor flag O_NONBLOCK) in
  retN 0.

(** Returns the return value and the device as the call leaves it.
    A failing [fcntl (fd, F_SETFD, ...)] is logged and nothing else. *)
Definition vhost_user_setup (dev : virtio_user_dev) : N (Z * virtio_user_dev) :=
  let+ fd := sys_socket in
  if fd <? 0 then retN (-1, dev) else
  let+ flag := sys_fcntl_getfd fd in
  let+ _ := sys_fcntl_setfd fd (Z.lor flag FD_CLOEXEC) in
  let un := snprintf sizeof_sun_path (path dev) in
  if is_server dev then
    let dev := set_listenfd fd dev in
    let+ r := virtio_user_start_server dev un in
    if r <? 0 then
      let+ _ := host_close fd in
      retN (-1, dev)
    else
      let dev := set_vhostfd (-1) dev in
      retN (0, dev)
  else
    let+ r := sys_connect fd un in
    if r <? 0 then
      let+ _ := host_close fd in
      retN (-1, dev)
    else
      let dev := set_vhostfd fd dev in
      retN (0, dev).

(** [struct virtio_user_backend_ops ops_user] *)
Record virtio_user_backend_ops := {
  setup : virtio_user_dev → N (Z * virtio_user_dev);
  send_request : virtio_user_dev → vhost_user_request → arg_t → M (Z * arg_t);
  enable_qp : virtio_user_dev → Z → Z → M Z
}.

Definition ops_user : virtio_user_backend_ops :=
  {| setup := vhost_user_setup;
     send_request := vhost_user_sock;
     enable_qp := vhost_user_enable_queue_pair |}.

(** * Vocabulary of the statements *)

(** ** Transport *)

(** What [sendmsg] returns for an outcome of the script, for a buffer
    of [len] bytes ([None]: the script is used up). *)
Definition tx_return (o : option tx_result) (len : nat) : Z :=
  match o with
  | Some (TxAccept n) => Z.of_nat (Nat.min n len)
  | _ => -1
  end.

(** The [recv] script after a [recv] of [n] bytes. *)
Definition rx_left (n : nat) (s : list rx_result) : list rx_result :=
  match s with
  | RxData data :: rest =>
      match drop n data with [] => rest | more => RxData more :: rest end
  | _ :: rest => rest
  | [] => []
  end.

(** The flags of a well-formed reply: the reply marker and the version. *)
Definition valid_flags : Z := Z.lor VHOST_USER_REPLY_MASK VHOST_USER_VERSION.

Definition is_send (e : event) : bool :=
  match e with EvSendmsg _ _ _ => true | _ => false end.

(** The events a call added to the trace, and the [sendmsg] calls
    among them. *)
Definition new_events (w w' : world) : list event :=
  drop (length (trace w)) (trace w').

Definition sends (evs : list event) : list event :=
  filter (λ e, is_send e = true) evs.

Definition quiet (evs : list event) : Prop := Forall (λ e, is_send e = false) evs.

(** [w'] is [w] after system calls that are no [sendmsg]. *)
Definition quiet_step (w w' : world) : Prop :=
  tx_script w' = tx_script w ∧ ∃ evs, trace w' = trace w ++ evs ∧ quiet evs.

(** The world after [vhost_user_write]: [k] interrupted calls, then the
    call that [tl] starts with. *)
Definition sent (fd : Z) (buf : list byte) (fds : list Z) (k : nat)
    (tl : list tx_result) (w : world) : world :=
  set_tx_script (tail tl)
    (set_trace (trace w ++ replicate (S k) (EvSendmsg fd buf fds)) w).

(** The world after [close_fds]. *)
Definition closed (fds : list Z) (w : world) : world :=
  set_fd_table (fd_table w ∖ list_to_set fds)
    (set_trace (trace w ++ (EvClose <$> fds)) w).

(** The descriptors the [open] calls of a trace returned, and the
    descriptors its [close] calls were given. *)
Definition opened_fds (evs : list event) : list Z :=
  omap (λ e, match e with EvOpen _ fd => Some fd | _ => None end) evs.

Definition closed_fds (evs : list event) : list Z :=
  omap (λ e, match e with EvClose fd => Some fd | _ => None end) evs.

(** The number of bytes of [msg] that [vhost_user_sock] sends. *)
Definition message_len (msg : buffer) : nat :=
  Z.to_nat (VHOST_USER_HDR_SIZE + msg_size msg).

(** ** The table of section 4.4 of the specification *)

(** The payload size of each request kind, following the
    specification's words: nothing for get-features, set-owner,
    reset-owner and set-log-fd, a 64-bit scalar, a vring state, a
    vring address, or a memory table of [nregions] regions. *)
Definition payload_size_spec (req : vhost_user_request) (nregions : Z) : option Z :=
  match req with
  | VHOST_USER_GET_FEATURES
  | VHOST_USER_SET_OWNER
  | VHOST_USER_RESET_OWNER
  | VHOST_USER_SET_LOG_FD => Some 0
  | VHOST_USER_SET_FEATURES
  | VHOST_USER_SET_LOG_BASE
  | VHOST_USER_SET_VRING_KICK
  | VHOST_USER_SET_VRING_CALL
  | VHOST_USER_SET_VRING_ERR => Some sizeof_u64
  | VHOST_USER_SET_VRING_NUM
  | VHOST_USER_SET_VRING_BASE
  | VHOST_USER_SET_VRING_ENABLE
  | VHOST_USER_GET_VRING_BASE => Some sizeof_vring_state
  | VHOST_USER_SET_VRING_ADDR => Some sizeof_vring_addr
  | VHOST_USER_SET_MEM_TABLE => Some (8 + nregions * sizeof_memory_region)
  | _ => None
  end.

(** The request kinds that expect a reply. *)
Definition expects_reply (req : vhost_user_request) : bool :=
  match req with
  | VHOST_USER_GET_FEATURES | VHOST_USER_GET_VRING_BASE => true
  | _ => false
  end.

(** The argument of the [i]-th dispatch of the queue-pair helper. *)
Definition ring_state (pair_idx i enable : Z) : arg_t :=
  ArgState {| state_index := 2 * pair_idx + i; state_num := to_u32 enable |}.

(** ** The mapping table *)

(** A mapping: start address, end address, pathname. *)
Definition mapping : Type := Z * Z * string.
Definition mapping_path (m : mapping) : string := m.2.

(** The mapping a line of /proc/self/maps describes, when it is the
    mapping of a hugepage file. *)
Definition line_mapping (buf : string) : option mapping :=
  match sscanf_range buf, path_field buf with
  | Some (v_start, v_end), Some tmp =>
      if match_hugefile tmp then Some (v_start, v_end, tmp) else None
  | _, _ => None
  end.

Definition hugepage_mappings (lines : list string) : list mapping :=
  omap line_mapping lines.

(** The first mapping of the file [p] in the table. *)
Definition first_mapping (p : string) (lines : list string) : option mapping :=
  List.find (λ m, String.eqb (mapping_path m) p) (hugepage_mappings lines).

(** The distinct hugepage files of the table. *)
Definition hugepage_files (lines : list string) : list string :=
  remove_dups (mapping_path <$> hugepage_mappings lines).

(** The pathname fits in [PATH_MAX] bytes with its terminator, as
    every pathname the kernel hands out does. *)
Definition fits (m : mapping) : Prop :=
  (String.length (mapping_path m) < PATH_MAX)%nat.

(** The line has the five separators the kernel prints, unless its
    address range does not parse (the loop leaves before it looks for
    them). *)
Definition line_ok (buf : string) : Prop :=
  sscanf_range buf = None ∨ is_Some (path_field buf).

(** The line parses: an address range and the five separators. *)
Definition line_parses (buf : string) : Prop :=
  is_Some (sscanf_range buf) ∧ is_Some (path_field buf).

(** The record the loop writes for a mapping, and the records it has
    written after a list of mappings. *)
Definition record_of (m : mapping) : hugepage_file_info :=
  {| huge_addr := m.1.1;
     huge_size := to_size_t (m.1.2 - m.1.1);
     huge_path := snprintf PATH_MAX (mapping_path m) |}.

Definition recorded (huges : list hugepage_file_info) (p : string) : bool :=
  existsb (λ h, String.eqb (huge_path h) p) huges.

Definition absorb (huges : list hugepage_file_info) (ms : list mapping)
    : list hugepage_file_info :=
  foldl (λ acc m, if recorded acc (mapping_path m) then acc else acc ++ [record_of m])
        huges ms.

Global Instance fits_dec m : Decision (fits m).
Proof. unfold fits. apply _. Defined.

Global Instance line_ok_dec buf : Decision (line_ok buf).
Proof. unfold line_ok. apply _. Defined.

Global Instance line_parses_dec buf : Decision (line_parses buf).
Proof. unfold line_parses. apply _. Defined.

(** The records [get_hugepage_file_info] leaves in [huges]. *)
Definition discovered (max : Z) (w : world) : list hugepage_file_info :=
  match get_hugepage_file_info max w with
  | Some ((_, huges), _) => huges
  | None => []
  end.

(** What a trace sent: for each [sendmsg], the request, the size, the
    payload scalar and the descriptors. *)
Definition sent_scalars (evs : list event) : list (Z * Z * Z * list Z) :=
  omap (λ e, match e with
             | EvSendmsg _ buf fds =>
                 Some (wire_request buf, wire_size buf, wire_payload_u64 buf, fds)
             | _ => None
             end) evs.

(** What a trace sent: for each [sendmsg], the request and the vring
    state. *)
Definition sent_states (evs : list event) : list (Z * vhost_vring_state) :=
  omap (λ e, match e with
             | EvSendmsg _ buf _ => Some (wire_request buf, wire_payload_state buf)
             | _ => None
             end) evs.

(** The world a call leaves, and the first message it sent. *)
Definition world_after {A} (r : option (A * world)) (w : world) : world :=
  match r with Some (_, w') => w' | None => w end.

Definition first_send (evs : list event) : list byte :=
  match sends evs with
  | EvSendmsg _ buf _ :: _ => buf
  | _ => []
  end.

(** ** Calls that reach the send *)

(** The object behind [arg] has the type the request kind documents. *)
Definition arg_matches (req : vhost_user_request) (arg : arg_t) : bool :=
  match req, arg with
  | VHOST_USER_GET_FEATURES, ArgU64 _
  | VHOST_USER_SET_FEATURES, ArgU64 _
  | VHOST_USER_SET_LOG_BASE, ArgU64 _
  | VHOST_USER_SET_LOG_FD, ArgInt _
  | VHOST_USER_SET_VRING_NUM, ArgState _
  | VHOST_USER_SET_VRING_BASE, ArgState _
  | VHOST_USER_SET_VRING_ENABLE, ArgState _
  | VHOST_USER_GET_VRING_BASE, ArgState _
  | VHOST_USER_SET_VRING_ADDR, ArgAddr _
  | VHOST_USER_SET_VRING_KICK, ArgFile _
  | VHOST_USER_SET_VRING_CALL, ArgFile _
  | VHOST_USER_SET_VRING_ERR, ArgFile _ => true
  | VHOST_USER_GET_FEATURES, _
  | VHOST_USER_SET_FEATURES, _
  | VHOST_USER_SET_LOG_BASE, _
  | VHOST_USER_SET_LOG_FD, _
  | VHOST_USER_SET_VRING_NUM, _
  | VHOST_USER_SET_VRING_BASE, _
  | VHOST_USER_SET_VRING_ENABLE, _
  | VHOST_USER_GET_VRING_BASE, _
  | VHOST_USER_SET_VRING_ADDR, _
  | VHOST_USER_SET_VRING_KICK, _
  | VHOST_USER_SET_VRING_CALL, _
  | VHOST_USER_SET_VRING_ERR, _ => false
  | _, _ => true
  end.

(** The discovery of the hugepage files succeeds: it returns their
    number. *)
Definition discovery_succeeds (w : world) : Prop :=
  ∃ n huges w0,
    get_hugepage_file_info VHOST_MEMORY_MAX_NREGIONS w = Some ((n, huges), w0) ∧ 0 ≤ n.

(** An outcome of [sendmsg] on a blocking stream socket of the
    AF_UNIX family: the kernel queues a message as short as those of
    this protocol (a [struct vhost_user_msg] has 276 bytes) in one
    piece or fails, so the call returns [len] or -1 and never a
    shorter count. *)
Definition takes_whole (o : option tx_result) : Prop :=
  match o with
  | Some (TxAccept n) => (Z.to_nat (VHOST_USER_HDR_SIZE + sizeof_payload) ≤ n)%nat
  | _ => True
  end.

(** ** Connection setup *)

(** The [sun_path] of the address [vhost_user_setup] builds. *)
Definition sun_path_of (dev : virtio_user_dev) : string :=
  snprintf sizeof_sun_path (path dev).

(** The socket calls a call added. *)
Definition new_calls (h h' : host) : list socket_call :=
  drop (length (calls h)) (calls h').

(** The addresses given to [bind] and [connect]. *)
Definition addresses (cs : list socket_call) : list string :=
  omap (λ c, match c with
             | CallBind _ un _ | CallConnect _ un _ => Some un
             | _ => None
             end) cs.

(** The host with the socket [fd] open in state [s], after the calls
    [cs]; and the host after the calls [cs] and [close (fd)]. *)
Definition opened (fd : Z) (s : socket) (cs : list socket_call) (h : host) : host :=
  Host (set_fd_table ({[fd]} ∪ fd_table (files h)) (files h)) (env h)
       (<[fd := s]> (sockets h)) (calls h ++ cs).

Definition released (fd : Z) (cs : list socket_call) (h : host) : host :=
  Host (log (EvClose fd)
          (set_fd_table (({[fd]} ∪ fd_table (files h)) ∖ {[fd]}) (files h)))
       (env h) (delete fd (sockets h)) (calls h ++ cs).

(** The first three calls of a setup that gets its socket. *)
Definition socket_calls (fd : Z) : list socket_call :=
  [CallSocket fd; CallGetfd fd 0; CallSetfd fd (Z.lor 0 FD_CLOEXEC) 0].

(** ** Messages on the wire *)

(** The values of a vring state and of a vring address fit the
    fields of their structs. *)
Definition state_ok (s : vhost_vring_state) : Prop :=
  0 ≤ state_index s < 2 ^ 32 ∧ 0 ≤ state_num s < 2 ^ 32.

Definition addr_ok (a : vhost_vring_addr) : Prop :=
  0 ≤ addr_index a < 2 ^ 32 ∧ 0 ≤ addr_flags a < 2 ^ 32 ∧
  0 ≤ addr_desc_user_addr a < 2 ^ 64 ∧ 0 ≤ addr_used_user_addr a < 2 ^ 64 ∧
  0 ≤ addr_avail_user_addr a < 2 ^ 64 ∧ 0 ≤ addr_log_guest_addr a < 2 ^ 64.

(** The vring address and the regions of a memory table, read from
    the bytes that went over the socket. *)
Definition wire_payload_addr (bs : list byte) : vhost_vring_addr :=
  {| addr_index := wire_u32 off_payload bs;
     addr_flags := wire_u32 (off_payload + 4) bs;
     addr_desc_user_addr := wire_u64 (off_payload + 8) bs;
     addr_used_user_addr := wire_u64 (off_payload + 16) bs;
     addr_avail_user_addr := wire_u64 (off_payload + 24) bs;
     addr_log_guest_addr := wire_u64 (off_payload + 32) bs |}.

Definition wire_padding : list byte → Z := wire_u32 (off_payload + 4).

Definition wire_region (i : nat) (bs : list byte) : vhost_memory_region :=
  {| guest_phys_addr := wire_u64 (off_region i) bs;
     memory_size := wire_u64 (off_region i + 8) bs;
     userspace_addr := wire_u64 (off_region i + 16) bs;
     mmap_offset := wire_u64 (off_region i + 24) bs |}.

Definition is_recv (e : event) : bool :=
  match e with EvRecv _ _ _ => true | _ => false end.

(** The pathnames the [open] calls of a trace were given. *)
Definition opened_paths (evs : list event) : list string :=
  omap (λ e, match e with EvOpen p _ => Some p | _ => None end) evs.

Global Instance vhost_user_request_eq_dec : EqDecision vhost_user_request.
Proof. solve_decision. Defined.

(** ** Bytes waiting in the socket *)

(** The number of bytes the next [recv] can take. *)
Definition pending (s : list rx_result) : nat :=
  match s with
  | RxData data :: _ => length data
  | _ => 0
  end.

(** ** The memory table *)

(** The region [prepare_vhost_memory_user] writes for a record: the
    virtual address as guest physical address and as user address,
    the size of the record, offset 0. *)
Definition region_of (h : hugepage_file_info) : vhost_memory_region :=
  {| guest_phys_addr := huge_addr h;
     memory_size := huge_size h;
     userspace_addr := huge_addr h;
     mmap_offset := 0 |}.

(** The fields of a record fit their C types. *)
Definition record_ok (h : hugepage_file_info) : Prop :=
  0 ≤ huge_addr h < 2 ^ 64 ∧ 0 ≤ huge_size h < 2 ^ 64.

(** The two worlds differ in nothing but the descriptor table and the
    trace. *)
Definition same_peer (w w' : world) : Prop :=
  proc_maps w' = proc_maps w ∧ stat_size w' = stat_size w ∧
  openable w' = openable w ∧ tx_script w' = tx_script w ∧
  rx_script w' = rx_script w ∧ stack w' = stack w.

(** ** Order of the discovery *)

(** The elements of a list in the order of their first occurrences. *)
Fixpoint first_occurrences (l : list string) : list string :=
  match l with
  | [] => []
  | x :: l' => x :: filter (λ y, y ≠ x) (first_occurrences l')
  end.

(** ** What the stack held *)

(** The world with other bytes where the dispatcher's [msg] is
    allocated. *)
Definition with_stack (s : buffer) (w : world) : world :=
  World (proc_maps w) (stat_size w) (openable w) (fd_table w) (tx_script w)
        (rx_script w) s (trace w).

(** The two messages hold the same bytes below [n]. *)
Definition agree_below (n : nat) (m1 m2 : buffer) : Prop :=
  ∀ x, (x < n)%nat → m1 x = m2 x.

(** The outcome of a function in a world with another stack. *)
Definition on_stack {A} (s : buffer) (r : option (A * world)) : option (A * world) :=
  match r with
  | Some (a, w') => Some (a, with_stack s w')
  | None => None
  end.

(** ** Names of hugepage files *)

(** The conversion [%d] finds a number at the start of [s]: white
    space, an optional sign, a digit. *)
Definition starts_number (s : string) : bool :=
  match snd (skip_sign (skip_white s)) with
  | String d _ => is_digit d
  | EmptyString => false
  end.

(** * Example worlds *)

Local Open Scope string_scope.

Definition nl : string := String newline EmptyString.

Definition hugefile_0 : string := "/mnt/huge/rtemap_0".

(** A table in which two mappings share the file rtemap_0. *)
Definition example_maps : list string :=
  [ "00400000-0040b000 r-xp 00000000 08:01 12 /bin/cat" +:+ nl;
    "7f0000000000-7f0040000000 rw-s 00000000 00:0e 1234   /mnt/huge/rtemap_0" +:+ nl;
    "7ffd000-7ffe000 rw-p 00000000 00:00 0 " +:+ nl;
    "7f0080000000-7f00c0000000 rw-s 40000000 00:0e 1234   /mnt/huge/rtemap_0" +:+ nl ].

(** The first mapping of rtemap_0 in [example_maps]. *)
Definition example_mapping : mapping :=
  (139637976727552, 139639050469376, hugefile_0)%Z.

(** A table with the nine files rtemap_0 to rtemap_8. *)
Definition huge_line (c : ascii) : string :=
  "7f0000000000-7f0040000000 rw-s 00000000 00:0e 1234   /mnt/huge/rtemap_"
    +:+ String c EmptyString +:+ nl.

Definition nine_files_maps : list string :=
  huge_line <$> ["0"; "1"; "2"; "3"; "4"; "5"; "6"; "7"; "8"]%char.

(** A line of the table for a hugepage file mapped at [range]. *)
Definition mapped_at (range p : string) : string :=
  range +:+ " rw-s 00000000 00:0e 1234   " +:+ p +:+ nl.

(** A name of [n] letters. *)
Fixpoint letters (n : nat) : string :=
  match n with
  | O => EmptyString
  | S n' => String "a" (letters n')
  end.

(** A hugepage file whose pathname has 4096 bytes (PATH_MAX without
    room for the terminator), mapped twice. *)
Definition long_hugefile : string := "/" +:+ letters 4086 +:+ "/rtemap_0".

Definition long_path_maps : list string :=
  [ mapped_at "7f0000000000-7f0040000000" long_hugefile;
    mapped_at "7f0080000000-7f00c0000000" long_hugefile ].

(** Nine files: rtemap_0 to rtemap_6 of /mnt/huge, a file rtemap_12
    whose pathname has 4096 bytes, and the file rtemap_1 beside it,
    whose pathname is the first 4095 bytes of that pathname. *)
Definition long_hugefile_12 : string := "/" +:+ letters 4085 +:+ "/rtemap_12".
Definition long_hugefile_1 : string := "/" +:+ letters 4085 +:+ "/rtemap_1".

Definition over_limit_maps : list string :=
  [ mapped_at "7f0000000000-7f0040000000" "/mnt/huge/rtemap_0";
    mapped_at "7f0040000000-7f0080000000" "/mnt/huge/rtemap_1";
    mapped_at "7f0080000000-7f00c0000000" "/mnt/huge/rtemap_2";
    mapped_at "7f00c0000000-7f0100000000" "/mnt/huge/rtemap_3";
    mapped_at "7f0100000000-7f0140000000" "/mnt/huge/rtemap_4";
    mapped_at "7f0140000000-7f0180000000" "/mnt/huge/rtemap_5";
    mapped_at "7f0180000000-7f01c0000000" "/mnt/huge/rtemap_6";
    mapped_at "7f01c0000000-7f0200000000" long_hugefile_12;
    mapped_at "7f0200000000-7f0240000000" long_hugefile_1 ].

(** A table with a line that has no address range. *)
Definition bad_maps : list string := example_maps ++ ["vsyscall" +:+ nl].

(** rtemap_0 is a file of 2 GiB. *)
Definition example_stat (p : string) : option Z :=
  if String.eqb p hugefile_0 then Some 2147483648%Z else None.

Definition world_with (maps : option (list string)) (st : string → option Z)
    (tx : list tx_result) (rx : list rx_result) : world :=
  {| proc_maps := maps;
     stat_size := st;
     openable := λ _, true;
     fd_table := {[0; 1; 2; 3]}%Z;
     tx_script := tx;
     rx_script := rx;
     stack := λ _, Byte.x00;
     trace := [] |}.

Definition example_world : world := world_with (Some example_maps) example_stat [] [].

(** Every file of the table is a file of 2 GiB; no other file exists. *)
Definition stat_of (maps : list string) (p : string) : option Z :=
  if bool_decide (p ∈ hugepage_files maps) then Some 2147483648%Z else None.

Definition long_path_world : world :=
  world_with (Some long_path_maps) (stat_of long_path_maps) [] [].

Definition over_limit_world : world :=
  world_with (Some over_limit_maps) (stat_of over_limit_maps) [] [].

(** The files are there and [stat] fails. *)
Definition stat_fails_world : world :=
  world_with (Some example_maps) (λ _, None) [] [].

(** A client connected on descriptor 3. *)
Definition example_dev : virtio_user_dev :=
  {| vhostfd := 3; listenfd := -1; is_server := false; path := "/tmp/vhost-user.sock" |}.

Local Close Scope string_scope.

(** The peer takes the message at the first [sendmsg]. *)
Definition accepting_world : world :=
  world_with (Some example_maps) example_stat [TxAccept 4096] [].

(** Two interrupted calls, then a broken pipe. *)
Definition broken_pipe_world : world :=
  world_with (Some example_maps) example_stat [TxErr EINTR; TxErr EINTR; TxErr EPIPE] [].

(** A socket that takes 5 bytes of a message, as no blocking stream
    socket does. *)
Definition short_write_world : world :=
  world_with (Some example_maps) example_stat [TxAccept 5] [].

(** The send of the memory table fails. *)
Definition send_fails_world : world :=
  world_with (Some example_maps) example_stat [TxErr EPIPE] [].

(** A message as the peer writes it. *)
Definition wire_message (request flags size : Z) (payload : list byte) : list byte :=
  le_split 4 request ++ le_split 4 flags ++ le_split 4 size ++ payload.

(** The peer answers get-features with a payload of 4 bytes. *)
Definition bad_reply : list byte := wire_message 1 5 4 (le_split 4 7).

Definition bad_reply_world : world :=
  world_with (Some example_maps) example_stat [TxAccept 4096] [RxData bad_reply].

(** The peer announces a payload larger than the union. *)
Definition oversized_reply : list byte := wire_message 1 5 4000 (le_split 8 7).

Definition oversized_reply_world : world :=
  world_with (Some example_maps) example_stat [] [RxData oversized_reply].

(** The peer takes two messages. *)
Definition two_sends_world : world :=
  world_with None (λ _, None) [TxAccept 4096; TxAccept 4096] [].

(** The first send fails. *)
Definition first_send_fails_world : world :=
  world_with None (λ _, None) [TxErr EPIPE; TxAccept 4096] [].

(** The arguments of the two set-vring-kick examples of the
    specification. *)
Definition kick_without_fd : vhost_vring_file := {| file_index := 3; file_fd := -1 |}.
Definition kick_with_fd : vhost_vring_file := {| file_index := 3; file_fd := 7 |}.

(** The worlds some example calls leave. *)
Definition mem_table_after : world :=
  world_after (vhost_user_sock example_dev VHOST_USER_SET_MEM_TABLE ArgNull accepting_world)
              accepting_world.

Definition mem_table_message : list byte :=
  first_send (new_events accepting_world mem_table_after).

Definition broken_pipe_after : world :=
  world_after (vhost_user_sock example_dev VHOST_USER_SET_OWNER ArgNull broken_pipe_world)
              broken_pipe_world.

(** The peer answers get-vring-base for ring 2: the next available
    index is 17. *)
Definition vring_base_reply : list byte :=
  wire_message 11 5 8 (le_split 4 2 ++ le_split 4 17).

Definition vring_base_reply_world : world :=
  world_with None (λ _, None) [TxAccept 4096] [RxData vring_base_reply].

Definition vring_base_request : arg_t := ArgState {| state_index := 2; state_num := 0 |}.

Definition vring_base_after : world :=
  world_after (vhost_user_sock example_dev VHOST_USER_GET_VRING_BASE vring_base_request
                 vring_base_reply_world)
              vring_base_reply_world.

(** A server no peer has connected to. *)
Definition unconnected_server : virtio_user_dev :=
  {| vhostfd := -1; listenfd := 5; is_server := true; path := path example_dev |}.

(** The peer answers get-features: the features are 0x17. *)
Definition features_reply : list byte := wire_message 1 5 8 (le_split 8 23).

(** The reply to get-features and, behind it, the reply to
    get-vring-base, both waiting in the socket. *)
Definition two_replies_world : world :=
  world_with None (λ _, None) [TxErr EINTR; TxAccept 4096; TxAccept 4096]
    [RxData (features_reply ++ vring_base_reply)].

(** Five bytes of a header have arrived. *)
Definition short_header_world : world :=
  world_with None (λ _, None) [] [RxData (take 5 features_reply)].

(** The header and half of the payload have arrived; the rest comes
    later. *)
Definition short_payload_world : world :=
  world_with None (λ _, None) []
    [RxData (take 16 features_reply); RxData (drop 16 features_reply)].

(** The world of [accepting_world] with no file that can be opened. *)
Definition unopenable_world : world :=
  World (Some example_maps) example_stat (λ _, false) {[0; 1; 2; 3]} [TxAccept 4096] []
        (λ _, Byte.x00) [].

(** The table has a line without an address range. *)
Definition bad_maps_world : world :=
  world_with (Some bad_maps) example_stat [TxAccept 4096] [].

(** A table without hugepage files. *)
Definition plain_maps : list string := take 1 example_maps.

Definition plain_maps_world : world :=
  world_with (Some plain_maps) example_stat [TxAccept 4096] [].

(** The files rtemap_1 and rtemap_0, the first mapped twice. *)
Definition two_files_maps : list string :=
  huge_line <$> ["1"; "0"; "1"]%char.

Definition two_files_world : world :=
  world_with (Some two_files_maps) example_stat [TxAccept 4096] [].

(** The arguments of some example calls. *)
Definition example_state : vhost_vring_state := {| state_index := 2; state_num := 256 |}.

Definition example_addr : vhost_vring_addr :=
  {| addr_index := 2; addr_flags := 0;
     addr_desc_user_addr := 139637976727552;
     addr_used_user_addr := 139637976731648;
     addr_avail_user_addr := 139637976735744;
     addr_log_guest_addr := 0 |}.

(** The kernel lets every socket call succeed; someone listens at
    the path of [example_dev] and nowhere else. *)
Definition example_env : socket_env :=
  {| socket_ok := true;
     bindable := λ _, true;
     listen_ok := true;
     connectable := λ p, String.eqb p (path example_dev) |}.

Definition example_host : host := Host example_world example_env ∅ [].

Definition server_dev : virtio_user_dev :=
  {| vhostfd := -1; listenfd := -1; is_server := true; path := path example_dev |}.

(** A client whose path has 120 bytes: the path of [example_dev] and
    a tail of 100 letters. *)
Definition long_path_dev : virtio_user_dev :=
  {| vhostfd := -1; listenfd := -1; is_server := false;
     path := (path example_dev +:+ string_of_list_ascii (replicate 100 "a"%char))%string |}.

(** The device and the host a setup leaves. *)
Definition dev_after (r : option (Z * virtio_user_dev * host)) (dev : virtio_user_dev)
    : virtio_user_dev :=
  match r with Some ((_, dev'), _) => dev' | None => dev end.

Definition host_after (r : option (Z * virtio_user_dev * host)) (h : host) : host :=
  match r with Some (_, h') => h' | None => h end.

Definition client_after : virtio_user_dev :=
  dev_after (vhost_user_setup example_dev example_host) example_dev.
Definition client_host : host :=
  host_after (vhost_user_setup example_dev example_host) example_host.

Definition server_after : virtio_user_dev :=
  dev_after (vhost_user_setup server_dev example_host) server_dev.
Definition server_host : host :=
  host_after (vhost_user_setup server_dev example_host) example_host.

Definition long_path_host : host :=
  host_after (vhost_user_setup long_path_dev example_host) example_host.

(** The results and the worlds of some example calls. *)
Definition result_of {A} (r : option (A * world)) (a : A) : A :=
  match r with Some (a', _) => a' | None => a end.

(** The world a request leaves, its result, and the first message it
    sent. *)
Definition after (dev : virtio_user_dev) (req : vhost_user_request) (arg : arg_t)
    (w : world) : world :=
  world_after (vhost_user_sock dev req arg w) w.

Definition outcome (dev : virtio_user_dev) (req : vhost_user_request) (arg : arg_t)
    (w : world) : Z * arg_t :=
  result_of (vhost_user_sock dev req arg w) (-1, arg).

Definition message_of (dev : virtio_user_dev) (req : vhost_user_request) (arg : arg_t)
    (w : world) : list byte :=
  first_send (new_events w (after dev req arg w)).

(** * Properties *)

(** ** Memory *)

Section memory.
Implicit Types (m : buffer) (bs : list byte) (off n : nat).

Lemma length_load off n m : length (load off n m) = n.
Proof. unfold load. by rewrite length_fmap, length_seq. Qed.

Lemma load_lookup off n m i :
  (i < n)%nat → load off n m !! i = Some (m (off + i)%nat).
Proof.
  intros Hi. unfold load. rewrite list_lookup_fmap, lookup_seq_lt by done. done.
Qed.

Lemma load_store_eq off bs m : load off (length bs) (store off bs m) = bs.
Proof.
  apply list_eq. intros i. destruct (decide (i < length bs)%nat) as [Hi|Hi].
  - rewrite load_lookup by done. unfold store.
    rewrite decide_True by lia. replace (off + i - off)%nat with i by lia.
    destruct (lookup_lt_is_Some_2 bs i Hi) as [b Hb]. by rewrite Hb.
  - rewrite !lookup_ge_None_2; [done | lia | rewrite length_load; lia].
Qed.

Lemma load_store_ne off n off' bs m :
  (off + n ≤ off' ∨ off' + length bs ≤ off)%nat →
  load off n (store off' bs m) = load off n m.
Proof.
  intros Hd. apply list_eq. intros i. destruct (decide (i < n)%nat) as [Hi|Hi].
  - rewrite !load_lookup by done. unfold store. by rewrite decide_False by lia.
  - rewrite !lookup_ge_None_2; [done | rewrite length_load; lia ..].
Qed.

Lemma take_drop_load k n off len m :
  (k + n ≤ len)%nat → take n (drop k (load off len m)) = load (off + k) n m.
Proof.
  intros Hk. apply list_eq. intros i. destruct (decide (i < n)%nat) as [Hi|Hi].
  - rewrite lookup_take_lt, lookup_drop, !load_lookup by lia. f_equal. f_equal. lia.
  - rewrite !lookup_ge_None_2; [done | rewrite length_load; lia |].
    rewrite length_take. lia.
Qed.

Lemma get_u32_set_u32 off v m : get_u32 off (set_u32 off v m) = to_u32 v.
Proof.
  unfold get_u32, set_u32.
  pose proof (load_store_eq off (le_split 4 v) m) as H.
  rewrite length_le_split in H. rewrite H. by rewrite le_combine_split.
Qed.

Lemma get_u64_set_u64 off v m : get_u64 off (set_u64 off v m) = to_u64 v.
Proof.
  unfold get_u64, set_u64.
  pose proof (load_store_eq off (le_split 8 v) m) as H.
  rewrite length_le_split in H. rewrite H. by rewrite le_combine_split.
Qed.

Lemma get_u32_store_ne off off' bs m :
  (off + 4 ≤ off' ∨ off' + length bs ≤ off)%nat →
  get_u32 off (store off' bs m) = get_u32 off m.
Proof. intros. unfold get_u32. by rewrite load_store_ne. Qed.

Lemma get_u64_store_ne off off' bs m :
  (off + 8 ≤ off' ∨ off' + length bs ≤ off)%nat →
  get_u64 off (store off' bs m) = get_u64 off m.
Proof. intros. unfold get_u64. by rewrite load_store_ne. Qed.

Lemma get_u32_set_u32_ne off off' v m :
  (off + 4 ≤ off' ∨ off' + 4 ≤ off)%nat →
  get_u32 off (set_u32 off' v m) = get_u32 off m.
Proof.
  intros. unfold set_u32. apply get_u32_store_ne. by rewrite length_le_split.
Qed.

Lemma get_u32_set_u64_ne off off' v m :
  (off + 4 ≤ off' ∨ off' + 8 ≤ off)%nat →
  get_u32 off (set_u64 off' v m) = get_u32 off m.
Proof.
  intros. unfold set_u64. apply get_u32_store_ne. by rewrite length_le_split.
Qed.

Lemma get_u64_set_u32_ne off off' v m :
  (off + 8 ≤ off' ∨ off' + 4 ≤ off)%nat →
  get_u64 off (set_u32 off' v m) = get_u64 off m.
Proof.
  intros. unfold set_u32. apply get_u64_store_ne. by rewrite length_le_split.
Qed.

Lemma get_u64_set_u64_ne off off' v m :
  (off + 8 ≤ off' ∨ off' + 8 ≤ off)%nat →
  get_u64 off (set_u64 off' v m) = get_u64 off m.
Proof.
  intros. unfold set_u64. apply get_u64_store_ne. by rewrite length_le_split.
Qed.

(** Reading a field from the bytes sent is reading it from the
    message. *)
Lemma wire_u32_load off len m :
  (off + 4 ≤ len)%nat → wire_u32 off (load 0 len m) = get_u32 off m.
Proof. intros. unfold wire_u32, get_u32. by rewrite take_drop_load. Qed.

Lemma wire_u64_load off len m :
  (off + 8 ≤ len)%nat → wire_u64 off (load 0 len m) = get_u64 off m.
Proof. intros. unfold wire_u64, get_u64. by rewrite take_drop_load. Qed.

(** Reading a field of a message that [recv] has just filled is
    reading it from the bytes received. *)
Lemma get_u32_store_within off off' bs m :
  (off' ≤ off ∧ off + 4 ≤ off' + length bs)%nat →
  get_u32 off (store off' bs m) = wire_u32 (off - off') bs.
Proof.
  intros Hin. unfold get_u32, wire_u32. f_equal.
  apply list_eq. intros i. destruct (decide (i < 4)%nat) as [Hi|Hi].
  - rewrite load_lookup, lookup_take_lt, lookup_drop by lia. unfold store.
    rewrite decide_True by lia.
    replace (off + i - off')%nat with (off - off' + i)%nat by lia.
    destruct (lookup_lt_is_Some_2 bs (off - off' + i)) as [b Hb]; [lia|].
    by rewrite Hb.
  - rewrite !lookup_ge_None_2; [done | rewrite length_take; lia |].
    rewrite length_load. lia.
Qed.
End memory.

Lemma to_u32_small z : 0 ≤ z < 2 ^ 32 → to_u32 z = z.
Proof. intros. unfold to_u32. by apply Z.mod_small. Qed.

Lemma to_u64_small z : 0 ≤ z < 2 ^ 64 → to_u64 z = z.
Proof. intros. unfold to_u64. by apply Z.mod_small. Qed.

Lemma to_int_small z : - 2 ^ 31 ≤ z < 2 ^ 31 → to_int z = z.
Proof. intros. unfold to_int. rewrite Z.mod_small; lia. Qed.

Lemma get_u32_range off m : 0 ≤ get_u32 off m < 2 ^ 32.
Proof.
  unfold get_u32. pose proof (le_combine_bound (load off 4 m)) as H.
  rewrite length_load in H. exact H.
Qed.

Lemma get_u64_range off m : 0 ≤ get_u64 off m < 2 ^ 64.
Proof.
  unfold get_u64. pose proof (le_combine_bound (load off 8 m)) as H.
  rewrite length_load in H. exact H.
Qed.

(** ** Message transport *)

Lemma sendmsg_loop_run fd buf fds k : ∀ turns w tl,
  tx_script w = replicate k (TxErr EINTR) ++ tl →
  head tl ≠ Some (TxErr EINTR) →
  (k ≤ turns)%nat →
  sendmsg_loop turns fd buf fds w =
    Some (tx_return (head tl) (length buf),
          set_tx_script (tail tl)
            (set_trace (trace w ++ replicate (S k) (EvSendmsg fd buf fds)) w)).
Proof.
  induction k as [|k IH]; intros turns w tl Hs Hhd Hk.
  - simpl in Hs. destruct w as [pm st op ft tx rx sk tr]. simpl in *. subst tx.
    destruct turns; simpl; unfold bindM, sys_sendmsg; simpl.
    all: destruct tl as [|[e|n] tl']; simpl; try done.
    all: try (destruct (decide (e = EINTR)) as [->|Hne]; [done|];
      replace (e =? EINTR) with false by (symmetry; by apply Z.eqb_neq); done).
    all: replace (Z.of_nat (n `min` length buf) <? 0) with false by (symmetry; apply Z.ltb_ge; lia); done.
  - destruct turns as [|turns]; [lia|].
    destruct w as [pm st op ft tx rx sk tr]. simpl in *. subst tx.
    unfold bindM, sys_sendmsg. simpl.
    rewrite (IH turns _ tl); [|done|done|lia]. simpl.
    unfold set_tx_script, set_trace. simpl. rewrite <- app_assoc. done.
Qed.

Lemma tx_script_split (s : list tx_result) :
  ∃ k tl, s = replicate k (TxErr EINTR) ++ tl ∧ head tl ≠ Some (TxErr EINTR).
Proof.
  induction s as [|o s (k & tl & -> & Hhd)].
  - by exists 0%nat, [].
  - destruct (decide (o = TxErr EINTR)) as [->|Hne].
    + by exists (S k), tl.
    + exists 0%nat, (o :: replicate k (TxErr EINTR) ++ tl). split; [done|].
      simpl. congruence.
Qed.

Lemma vhost_user_write_run fd msg len fds w k tl :
  tx_script w = replicate k (TxErr EINTR) ++ tl →
  head tl ≠ Some (TxErr EINTR) →
  vhost_user_write fd msg len fds w =
    Some (tx_return (head tl) (Z.to_nat len),
          set_tx_script (tail tl)
            (set_trace (trace w ++
               replicate (S k) (EvSendmsg fd (load 0 (Z.to_nat len) msg) fds)) w)).
Proof.
  intros Hs Hhd. unfold vhost_user_write.
  rewrite (sendmsg_loop_run _ _ _ k _ _ tl Hs Hhd).
  - by rewrite length_load.
  - rewrite Hs, length_app, length_replicate. lia.
Qed.

Lemma tx_return_cases o len : tx_return o len = -1 ∨ 0 ≤ tx_return o len.
Proof. destruct o as [[e|n]|]; simpl; lia. Qed.

(** The loop of [vhost_user_write] always ends: the turns it is given
    are enough. *)
Lemma vhost_user_write_total fd msg len fds w :
  ∃ r w', vhost_user_write fd msg len fds w = Some (r, w') ∧ (r = -1 ∨ 0 ≤ r).
Proof.
  destruct (tx_script_split (tx_script w)) as (k & tl & Hs & Hhd).
  rewrite (vhost_user_write_run _ _ _ _ _ k tl Hs Hhd). eexists _, _.
  split; [done|]. apply tx_return_cases.
Qed.

Lemma sys_recv_run fd msg off n w :
  ∃ r msg', sys_recv fd msg off n w =
    Some ((r, msg'), set_rx_script (rx_left n (rx_script w)) (log (EvRecv fd off n) w)).
Proof.
  unfold sys_recv. destruct w as [pm st op ft tx rx sk tr]. simpl.
  destruct rx as [|[e|data] rest]; simpl; eauto.
  destruct (drop n data); eauto.
Qed.

Lemma sys_recv_data fd msg off n w data rest :
  rx_script w = RxData data :: rest →
  sys_recv fd msg off n w =
    Some ((Z.of_nat (length (take n data)), store off (take n data) msg),
          set_rx_script (rx_left n (rx_script w)) (log (EvRecv fd off n) w)).
Proof.
  intros Hrx. unfold sys_recv. rewrite Hrx. simpl. by destruct (drop n data).
Qed.

Lemma to_size_t_to_int_le z :
  0 ≤ z < 2 ^ 32 → (sizeof_payload <? to_size_t (to_int z)) = false → 0 ≤ to_int z ≤ 264 ∧ to_int z = z.
Proof.
  intros Hz Hle. apply Z.ltb_ge in Hle. unfold sizeof_payload, VHOST_MEMORY_MAX_NREGIONS, sizeof_memory_region in Hle.
  unfold to_size_t, to_int in *.
  destruct (decide (z < 2 ^ 31)) as [Hs|Hs].
  - rewrite (Z.mod_small (z + 2 ^ 31)) in * by lia.
    rewrite Z.mod_small in Hle by lia. lia.
  - replace ((z + 2 ^ 31) mod 2 ^ 32) with (z - 2 ^ 31) in *.
    + replace (z - 2 ^ 31 - 2 ^ 31) with (z - 2 ^ 32) in Hle by lia.
      replace ((z - 2 ^ 32) mod 2 ^ 64) with (z - 2 ^ 32 + 2 ^ 64) in Hle; [lia|].
      apply Z.mod_unique with (-1); lia.
    + apply Z.mod_unique with 1; lia.
Qed.

Lemma to_size_t_to_int_gt z :
  0 ≤ z < 2 ^ 32 → sizeof_payload < z → (sizeof_payload <? to_size_t (to_int z)) = true.
Proof.
  intros Hz Hgt. destruct (sizeof_payload <? to_size_t (to_int z)) eqn:E; [done|].
  apply to_size_t_to_int_le in E; [|done].
  unfold sizeof_payload, VHOST_MEMORY_MAX_NREGIONS, sizeof_memory_region in *. lia.
Qed.

Lemma wire_u32_take off n (bs : list byte) :
  (off + 4 ≤ n)%nat → wire_u32 off (take n bs) = wire_u32 off bs.
Proof.
  intros Hn. unfold wire_u32.
  replace n with (off + (n - off))%nat by lia.
  rewrite <- take_drop_commute, take_take. f_equal. f_equal. lia.
Qed.

Lemma hdr_field_received off (data : list byte) msg :
  (12 ≤ length data)%nat → (off + 4 ≤ 12)%nat →
  get_u32 off (store 0 (take 12 data) msg) = wire_u32 off data.
Proof.
  intros Hlen Hoff. rewrite get_u32_store_within.
  - rewrite Nat.sub_0_r. by apply wire_u32_take.
  - rewrite length_take. lia.
Qed.

Lemma wire_u32_range off (bs : list byte) : 0 ≤ wire_u32 off bs < 2 ^ 32.
Proof.
  unfold wire_u32. pose proof (le_combine_bound (take 4 (drop off bs))) as H.
  rewrite length_take in H.
  assert (2 ^ (8 * Z.of_nat (4 `min` length (drop off bs))) ≤ 2 ^ 32).
  { apply Z.pow_le_mono_r; lia. }
  lia.
Qed.

(** Claim C4.  When [recv] delivers a whole header, [vhost_user_read]
    returns.  If the flags are not exactly the reply marker with the
    supported version, or the size in the header exceeds the payload
    union, it returns -1 after this one [recv]: the world it leaves
    is the world after the [recv] of the header, the payload bytes
    still in the socket.  In every case a second [recv], if there is
    one, asks for the size in the header, at most 264 bytes, at the
    offset of the payload. *)
Theorem vhost_user_read_validates_header fd msg w data rest :
  rx_script w = RxData data :: rest →
  (12 ≤ length data)%nat →
  ∃ r msg' w',
    vhost_user_read fd msg w = Some ((r, msg'), w') ∧
    (wire_flags data ≠ valid_flags ∨ sizeof_payload < wire_size data →
       r = -1 ∧
       w' = set_rx_script (rx_left 12 (rx_script w)) (log (EvRecv fd 0 12) w)) ∧
    (trace w' = trace w ++ [EvRecv fd 0 12] ∨
     ∃ n, (n ≤ 264)%nat ∧ Z.of_nat n = wire_size data ∧
          trace w' = trace w ++ [EvRecv fd 0 12; EvRecv fd 12 n]).
Proof.
  intros Hrx Hlen. unfold vhost_user_read, bindM.
  change (Z.to_nat VHOST_USER_HDR_SIZE) with 12%nat.
  rewrite (sys_recv_data _ _ _ _ _ _ _ Hrx).
  rewrite length_take, Nat.min_l by done.
  change (Z.of_nat 12 <? VHOST_USER_HDR_SIZE) with false. cbv iota.
  unfold msg_flags, msg_size, off_flags, off_size.
  rewrite !hdr_field_received by (done || lia).
  change (wire_u32 4 data) with (wire_flags data).
  change (wire_u32 8 data) with (wire_size data). fold valid_flags.
  pose proof (wire_u32_range off_size data) as Hsz. fold (wire_size data) in Hsz.
  destruct (wire_flags data =? valid_flags) eqn:Hfl; simpl.
  2:{ eexists _, _, _. split; [done|]. split; [done|]. by left. }
  apply Z.eqb_eq in Hfl.
  destruct (sizeof_payload <? to_size_t (to_int (wire_size data))) eqn:Hbig.
  { eexists _, _, _. split; [done|]. split; [done|]. by left. }
  destruct (to_size_t_to_int_le _ Hsz Hbig) as [Hle Heq]. rewrite Heq.
  destruct (wire_size data =? 0) eqn:Hz; simpl.
  { eexists _, _, _. split; [done|]. split; [|by left].
    intros [?|?]; [done|]. unfold sizeof_payload, VHOST_MEMORY_MAX_NREGIONS, sizeof_memory_region in *. lia. }
  match goal with |- context [sys_recv ?a ?b ?c ?d ?e] =>
    destruct (sys_recv_run a b c d e) as (r & msg' & ->) end.
  assert (∀ (b : bool) (x y : Z * buffer) (v : world),
    ∃ r0 m0 w0, (if b then retM x else retM y) v = Some ((r0, m0), w0) ∧ w0 = v) as Hif.
  { intros [] [] [] v; eexists _, _, _; done. }
  match goal with |- context [(if ?b then retM ?x else retM ?y) ?v] =>
    destruct (Hif b x y v) as (r0 & m0 & w0 & -> & ->) end.
  eexists _, _, _. split; [done|]. split.
  { intros [?|?]; [done|]. unfold sizeof_payload, VHOST_MEMORY_MAX_NREGIONS, sizeof_memory_region in *. lia. }
  right. exists (Z.to_nat (wire_size data)). split; [lia|]. split; [lia|].
  simpl. by rewrite <- app_assoc.
Qed.


(** ** Memory region discovery *)

Lemma scan_maps_ret lines max : ∀ huges r out,
  scan_maps lines max huges = Some (r, out) → r = 0 ∨ r = -1.
Proof.
  induction lines as [|buf lines IH]; intros huges r out; simpl.
  - intros [= <- _]. by left.
  - destruct (sscanf_range buf) as [[v_start v_end]|]; [|intros [= <- _]; by right].
    destruct (path_field buf) as [tmp|]; [|done].
    destruct (negb (match_hugefile tmp)); [by apply IH|].
    destruct (existsb _ huges); [by apply IH|].
    destruct (max <=? _); [intros [= <- _]; by right|by apply IH].
Qed.

Lemma scan_maps_absorb lines max : ∀ huges out,
  scan_maps lines max huges = Some (0, out) →
  out = absorb huges (hugepage_mappings lines).
Proof.
  induction lines as [|buf lines IH]; intros huges out; simpl.
  - by intros [= <-].
  - unfold hugepage_mappings. simpl. fold (hugepage_mappings lines).
    unfold line_mapping.
    destruct (sscanf_range buf) as [[v_start v_end]|]; [|done].
    destruct (path_field buf) as [tmp|]; [|done].
    destruct (match_hugefile tmp); simpl; [|by apply IH].
    unfold recorded.
    destruct (existsb _ huges); [by apply IH|].
    destruct (max <=? _); [done|]. by apply IH.
Qed.

Lemma scan_maps_length lines max : ∀ huges out,
  scan_maps lines max huges = Some (0, out) →
  length out = length huges ∨ Z.of_nat (length out) ≤ max.
Proof.
  induction lines as [|buf lines IH]; intros huges out; simpl.
  - intros [= <-]. by left.
  - destruct (sscanf_range buf) as [[v_start v_end]|]; [|done].
    destruct (path_field buf) as [tmp|]; [|done].
    destruct (negb (match_hugefile tmp)); [by apply IH|].
    destruct (existsb _ huges); [by apply IH|].
    destruct (max <=? _) eqn:Hmax; [done|]. apply Z.leb_gt in Hmax.
    intros Hrun. pose proof Hrun as Hout. apply scan_maps_absorb in Hout.
    destruct (IH _ _ Hrun) as [Hl|Hl]; [|by right].
    rewrite length_app in Hl. simpl in Hl. right. lia.
Qed.

Lemma scan_maps_defined lines max : ∀ huges,
  Forall line_ok lines → is_Some (scan_maps lines max huges).
Proof.
  induction lines as [|buf lines IH]; intros huges Hok; simpl; [done|].
  apply Forall_cons in Hok as [Hbuf Hok]. unfold line_ok in Hbuf.
  destruct (sscanf_range buf) as [[v_start v_end]|]; [|done].
  destruct Hbuf as [?|[tmp ->]]; [done|].
  destruct (negb (match_hugefile tmp)); [by apply IH|].
  destruct (existsb _ huges); [by apply IH|].
  destruct (max <=? _); [done|by apply IH].
Qed.

Lemma scan_maps_bad_address lines max : ∀ huges r out,
  Exists (λ buf, sscanf_range buf = None) lines →
  scan_maps lines max huges = Some (r, out) → r = -1.
Proof.
  induction lines as [|buf lines IH]; intros huges r out Hbad; simpl.
  - by apply Exists_nil in Hbad.
  - apply Exists_cons in Hbad as [Hbad|Hbad].
    + rewrite Hbad. by intros [= <- _].
    + destruct (sscanf_range buf) as [[v_start v_end]|]; [|by intros [= <- _]].
      destruct (path_field buf) as [tmp|]; [|done].
      destruct (negb (match_hugefile tmp)); [by apply IH|].
      destruct (existsb _ huges); [by apply IH|].
      destruct (max <=? _); [by intros [= <- _]|by apply IH].
Qed.

Lemma substring_all (s : string) : ∀ n, (String.length s ≤ n)%nat → substring 0 n s = s.
Proof.
  induction s as [|a s IH]; intros [|n] Hn; simpl in *; try done; try lia.
  f_equal. apply IH. lia.
Qed.

Lemma snprintf_fits m : fits m → huge_path (record_of m) = mapping_path m.
Proof.
  intros Hm. unfold record_of. cbn [huge_path]. unfold snprintf.
  apply substring_all. unfold fits in Hm. lia.
Qed.

Lemma recorded_true huges p :
  recorded huges p = true ↔ p ∈ huge_path <$> huges.
Proof.
  unfold recorded. rewrite existsb_exists, list_elem_of_fmap. split.
  - intros (h & Hin & Heq). apply String.eqb_eq in Heq. exists h.
    split; [done|]. by apply list_elem_of_In.
  - intros (h & -> & Hin). exists h. split; [by apply list_elem_of_In|].
    apply String.eqb_refl.
Qed.

Lemma recorded_false_filter huges p :
  recorded huges p = false → filter (λ h, huge_path h = p) huges = [].
Proof.
  intros Hr. induction huges as [|h huges IH]; [done|]. simpl in Hr.
  apply orb_false_iff in Hr as [Hh Hr]. apply String.eqb_neq in Hh.
  rewrite filter_cons_False by done. by apply IH.
Qed.

Lemma recorded_app huges h p :
  recorded (huges ++ [h]) p = recorded huges p || String.eqb (huge_path h) p.
Proof. unfold recorded. rewrite existsb_app. simpl. by rewrite orb_false_r. Qed.

Lemma absorb_cons huges m ms :
  absorb huges (m :: ms) =
  absorb (if recorded huges (mapping_path m) then huges else huges ++ [record_of m]) ms.
Proof. done. Qed.

(** The records kept for one file: the first mapping of it, unless
    the file was recorded before. *)
Lemma absorb_filter p ms : ∀ huges,
  Forall fits ms →
  filter (λ h, huge_path h = p) (absorb huges ms) =
  if recorded huges p then filter (λ h, huge_path h = p) huges
  else match List.find (λ m, String.eqb (mapping_path m) p) ms with
       | Some m => [record_of m]
       | None => []
       end.
Proof.
  induction ms as [|m ms IH]; intros huges Hfit.
  - simpl. destruct (recorded huges p) eqn:Hr; [done|]. by apply recorded_false_filter.
  - apply Forall_cons in Hfit as [Hm Hfit]. rewrite absorb_cons, IH by done.
    pose proof (snprintf_fits m Hm) as Hpath. simpl.
    destruct (recorded huges (mapping_path m)) eqn:Hrm.
    + destruct (recorded huges p) eqn:Hrp; [done|].
      destruct (String.eqb_spec (mapping_path m) p) as [Heq|Hne]; [congruence|done].
    + rewrite recorded_app, Hpath, filter_app.
      destruct (String.eqb_spec (mapping_path m) p) as [Heq|Hne].
      * rewrite orb_true_r. rewrite filter_cons_True by congruence.
        rewrite filter_nil. subst p. rewrite Hrm.
        by rewrite recorded_false_filter.
      * rewrite orb_false_r. rewrite filter_cons_False by congruence.
        rewrite filter_nil, app_nil_r. done.
Qed.

Lemma absorb_paths ms : ∀ huges,
  Forall fits ms →
  NoDup (huge_path <$> huges) →
  NoDup (huge_path <$> absorb huges ms) ∧
  ∀ p, p ∈ huge_path <$> absorb huges ms ↔
       p ∈ huge_path <$> huges ∨ p ∈ mapping_path <$> ms.
Proof.
  induction ms as [|m ms IH]; intros huges Hfit Hnd.
  - split; [done|]. intros p. simpl. rewrite elem_of_nil. tauto.
  - apply Forall_cons in Hfit as [Hm Hfit]. rewrite absorb_cons.
    pose proof (snprintf_fits m Hm) as Hpath.
    destruct (recorded huges (mapping_path m)) eqn:Hrm.
    + destruct (IH huges Hfit Hnd) as [Hnd' Hel]. split; [done|].
      intros p. rewrite Hel, fmap_cons, elem_of_cons.
      apply recorded_true in Hrm. split; [tauto|].
      intros [?|[->|?]]; tauto.
    + assert (mapping_path m ∉ huge_path <$> huges) as Hnotin.
      { rewrite <- recorded_true. congruence. }
      destruct (IH (huges ++ [record_of m]) Hfit) as [Hnd' Hel].
      { rewrite fmap_app.
        change (huge_path <$> [record_of m]) with [huge_path (record_of m)].
        rewrite Hpath. apply NoDup_app.
        split; [done|]. split; [|apply NoDup_singleton].
        intros x Hx Hx'. apply list_elem_of_singleton in Hx'. by subst x. }
      split; [done|]. intros p. rewrite Hel, fmap_app, elem_of_app.
      change (huge_path <$> [record_of m]) with [huge_path (record_of m)].
      rewrite Hpath, list_elem_of_singleton, fmap_cons, elem_of_cons. tauto.
Qed.

Lemma absorb_length ms :
  Forall fits ms →
  length (absorb [] ms) = length (remove_dups (mapping_path <$> ms)).
Proof.
  intros Hfit. destruct (absorb_paths ms [] Hfit) as [Hnd Hel]; [apply NoDup_nil_2|].
  rewrite <- (length_fmap huge_path). apply Permutation_length.
  apply NoDup_Permutation; [done|apply NoDup_remove_dups|].
  intros p. rewrite Hel, elem_of_remove_dups. simpl. rewrite elem_of_nil. tauto.
Qed.

Lemma remove_dups_length_le (l k : list string) :
  (∀ x, x ∈ l → x ∈ k) → NoDup l → (length l ≤ length (remove_dups k))%nat.
Proof.
  intros Hsub Hnd. apply submseteq_length, NoDup_submseteq; [done|].
  intros x Hx. apply elem_of_remove_dups. by apply Hsub.
Qed.

Lemma remove_dups_length_eq (l k : list string) :
  (∀ x, x ∈ l ↔ x ∈ k) → length (remove_dups l) = length (remove_dups k).
Proof.
  intros Heq. apply Permutation_length, NoDup_Permutation; [apply NoDup_remove_dups ..|].
  intros x. rewrite !elem_of_remove_dups. apply Heq.
Qed.

Lemma hugepage_mappings_cons buf lines :
  hugepage_mappings (buf :: lines) =
  match line_mapping buf with
  | Some m => m :: hugepage_mappings lines
  | None => hugepage_mappings lines
  end.
Proof. unfold hugepage_mappings. simpl. by destruct (line_mapping buf). Qed.

Lemma scan_maps_cons buf lines max huges v_start v_end tmp :
  sscanf_range buf = Some (v_start, v_end) →
  path_field buf = Some tmp →
  scan_maps (buf :: lines) max huges =
  if negb (match_hugefile tmp) then scan_maps lines max huges
  else if recorded huges tmp then scan_maps lines max huges
  else if max <=? Z.of_nat (length huges) then Some (-1, huges)
  else scan_maps lines max (huges ++ [record_of (v_start, v_end, tmp)]).
Proof. intros H1 H2. simpl. by rewrite H1, H2. Qed.

Lemma paths_snoc huges m :
  fits m →
  huge_path <$> (huges ++ [record_of m]) = (huge_path <$> huges) ++ [mapping_path m].
Proof.
  intros Hm. rewrite fmap_app.
  change (huge_path <$> [record_of m]) with [huge_path (record_of m)].
  by rewrite snprintf_fits.
Qed.

Lemma scan_maps_complete lines max : ∀ huges,
  Forall line_parses lines →
  Forall fits (hugepage_mappings lines) →
  NoDup (huge_path <$> huges) →
  Z.of_nat (length (remove_dups ((huge_path <$> huges) ++
               (mapping_path <$> hugepage_mappings lines)))) ≤ max →
  scan_maps lines max huges = Some (0, absorb huges (hugepage_mappings lines)).
Proof.
  induction lines as [|buf lines IH]; intros huges Hparse Hfit Hnd Hmax; [done|].
  apply Forall_cons in Hparse as [[[[v_start v_end] Hrange] [tmp Htmp]] Hparse].
  rewrite (scan_maps_cons _ _ _ _ _ _ _ Hrange Htmp).
  rewrite hugepage_mappings_cons in Hfit, Hmax |- *.
  assert (line_mapping buf =
          if match_hugefile tmp then Some (v_start, v_end, tmp) else None) as Hlm.
  { unfold line_mapping. by rewrite Hrange, Htmp. }
  rewrite Hlm in Hfit, Hmax |- *.
  destruct (match_hugefile tmp); cbn [negb]; [|by apply IH].
  apply Forall_cons in Hfit as [Hm Hfit].
  rewrite absorb_cons. change (mapping_path (v_start, v_end, tmp)) with tmp.
  destruct (recorded huges tmp) eqn:Hrec.
  - apply IH; [done..|]. apply recorded_true in Hrec.
    erewrite remove_dups_length_eq; [exact Hmax|].
    intros x. rewrite !elem_of_app, fmap_cons, elem_of_cons.
    change (mapping_path (v_start, v_end, tmp)) with tmp.
    split; [tauto|]. intros [?|[->|?]]; tauto.
  - assert (tmp ∉ huge_path <$> huges) as Hnotin.
    { rewrite <- recorded_true. congruence. }
    assert (NoDup (huge_path <$> (huges ++ [record_of (v_start, v_end, tmp)]))) as Hnd'.
    { rewrite paths_snoc by done. apply NoDup_app. split; [done|].
      split; [|apply NoDup_singleton].
      intros x Hx Hx'. apply list_elem_of_singleton in Hx'. by subst x. }
    assert ((max <=? Z.of_nat (length huges)) = false) as ->.
    { apply Z.leb_gt.
      assert (∀ x, (x ∈ (huge_path <$> (huges ++ [record_of (v_start, v_end, tmp)]))) →
                   x ∈ (huge_path <$> huges) ++
                       (mapping_path <$> ((v_start, v_end, tmp) :: hugepage_mappings lines)))
        as Hsub.
      { intros x. rewrite paths_snoc by done.
        rewrite !elem_of_app, list_elem_of_singleton, fmap_cons, elem_of_cons. tauto. }
      pose proof (remove_dups_length_le _ _ Hsub Hnd') as Hle.
      rewrite length_fmap, length_app in Hle. cbn [length] in Hle.
      apply Nat2Z.inj_le in Hle. eapply Z.lt_le_trans; [|exact Hmax].
      eapply Z.lt_le_trans; [|exact Hle]. lia. }
    apply (IH (huges ++ [record_of (v_start, v_end, tmp)])); [done..|].
    erewrite remove_dups_length_eq; [exact Hmax|].
    intros x. rewrite paths_snoc by done. rewrite fmap_cons.
    change (mapping_path (v_start, v_end, tmp)) with tmp.
    rewrite !elem_of_app, list_elem_of_singleton, elem_of_cons. tauto.
Qed.

Lemma correct_size_path w h : huge_path (correct_size w h) = huge_path h.
Proof. unfold correct_size. by destruct (stat_size w (huge_path h)). Qed.

Lemma filter_correct_size w p (huges : list hugepage_file_info) :
  filter (λ h, huge_path h = p) (correct_size w <$> huges) =
  correct_size w <$> filter (λ h, huge_path h = p) huges.
Proof.
  induction huges as [|h huges IH]; [done|]. rewrite fmap_cons.
  destruct (decide (huge_path h = p)) as [Hp|Hp].
  - rewrite !filter_cons_True by (by rewrite ?correct_size_path).
    by rewrite fmap_cons, IH.
  - rewrite !filter_cons_False by (by rewrite ?correct_size_path). done.
Qed.

Lemma first_mapping_Some p lines m :
  first_mapping p lines = Some m →
  m ∈ hugepage_mappings lines ∧ mapping_path m = p.
Proof.
  unfold first_mapping. intros Hf. apply find_some in Hf as [Hin Heq].
  split; [by apply list_elem_of_In|]. by apply String.eqb_eq.
Qed.

(** The record kept for the file [p], before the sizes are corrected. *)
Lemma absorb_first_mapping p lines m :
  Forall fits (hugepage_mappings lines) →
  first_mapping p lines = Some m →
  filter (λ h, huge_path h = p) (absorb [] (hugepage_mappings lines)) =
  [ {| huge_addr := m.1.1; huge_size := to_size_t (m.1.2 - m.1.1); huge_path := p |} ].
Proof.
  intros Hfit Hfirst. rewrite absorb_filter by done. simpl.
  unfold first_mapping in Hfirst. rewrite Hfirst.
  apply first_mapping_Some in Hfirst as [Hin Hp].
  assert (fits m) as Hm. { rewrite Forall_forall in Hfit. by apply Hfit. }
  pose proof (snprintf_fits m Hm) as Hpath.
  unfold record_of in *. simpl in Hpath. by rewrite Hpath, Hp.
Qed.

(** Pathnames that fit in [PATH_MAX] bytes: when discovery succeeds on
    a table in which one or several mappings name the hugepage file
    [p], the result holds exactly one record for [p]: its address is
    the start of the first mapping of [p] in the table, and its size
    is the size [stat] reports for [p], not the extent of a mapping. *)
Lemma one_record_within_path_max w lines max p m st_size n huges w' :
  proc_maps w = Some lines →
  Forall fits (hugepage_mappings lines) →
  first_mapping p lines = Some m →
  stat_size w p = Some st_size →
  get_hugepage_file_info max w = Some ((n, huges), w') →
  0 ≤ n →
  filter (λ h, huge_path h = p) huges =
  [ {| huge_addr := m.1.1; huge_size := to_size_t st_size; huge_path := p |} ].
Proof.
  intros Hmaps Hfit Hfirst Hstat Hrun Hn. unfold get_hugepage_file_info in Hrun.
  rewrite Hmaps in Hrun.
  destruct (scan_maps lines max []) as [[r hs]|] eqn:Hscan; [|done].
  destruct (scan_maps_ret _ _ _ _ _ Hscan) as [->| ->]; simpl in Hrun;
    injection Hrun as <- <- <-; [|lia].
  apply scan_maps_absorb in Hscan as ->.
  rewrite filter_correct_size, (absorb_first_mapping _ _ _ Hfit Hfirst).
  simpl. unfold correct_size. simpl. by rewrite Hstat.
Qed.

(** Claim C10.  On a table whose lines parse and that names at most
    [max] hugepage files, discovery succeeds and returns the number
    of files whatever [stat] does; for a file [p] whose [stat] fails,
    the record keeps the placeholder size, the extent of the first
    mapping of [p]. *)
Theorem stat_failure_keeps_placeholder w lines max p m :
  proc_maps w = Some lines →
  Forall line_parses lines →
  Forall fits (hugepage_mappings lines) →
  Z.of_nat (length (hugepage_files lines)) ≤ max →
  first_mapping p lines = Some m →
  stat_size w p = None →
  ∃ huges,
    get_hugepage_file_info max w =
      Some ((Z.of_nat (length (hugepage_files lines)), huges), w) ∧
    filter (λ h, huge_path h = p) huges =
    [ {| huge_addr := m.1.1;
         huge_size := to_size_t (m.1.2 - m.1.1);
         huge_path := p |} ].
Proof.
  intros Hmaps Hparse Hfit Hmax Hfirst Hstat. unfold get_hugepage_file_info.
  rewrite Hmaps, (scan_maps_complete lines max []); [|done|done|apply NoDup_nil_2|done].
  simpl. eexists. split.
  - do 3 f_equal. rewrite absorb_length by done. done.
  - rewrite filter_correct_size, (absorb_first_mapping _ _ _ Hfit Hfirst).
    simpl. unfold correct_size. simpl. by rewrite Hstat.
Qed.

(** Discovery returns -1 when /proc/self/maps cannot be opened, when
    a line of the table has no address range, and when a table whose
    pathnames fit in [PATH_MAX] bytes names more than [max] distinct
    hugepage files. *)
Lemma discovery_fails_within_path_max w max :
  (proc_maps w = None → get_hugepage_file_info max w = Some ((-1, []), w)) ∧
  (∀ lines,
     proc_maps w = Some lines →
     Forall line_ok lines →
     Exists (λ buf, sscanf_range buf = None) lines ∨
     (Forall fits (hugepage_mappings lines) ∧
      0 ≤ max < Z.of_nat (length (hugepage_files lines))) →
     ∃ huges, get_hugepage_file_info max w = Some ((-1, huges), w)).
Proof.
  split.
  - intros Hmaps. unfold get_hugepage_file_info. by rewrite Hmaps.
  - intros lines Hmaps Hok Hbad. unfold get_hugepage_file_info. rewrite Hmaps.
    destruct (scan_maps_defined lines max [] Hok) as [[r hs] Hscan]. rewrite Hscan.
    assert (r = -1) as ->; [|by eexists].
    destruct Hbad as [Hbad|[Hfit Hmax]]; [by eapply scan_maps_bad_address|].
    destruct (scan_maps_ret _ _ _ _ _ Hscan) as [->|]; [|done].
    pose proof (scan_maps_length _ _ _ _ Hscan) as Hlen.
    apply scan_maps_absorb in Hscan as ->.
    rewrite absorb_length in Hlen by done. fold (hugepage_files lines) in Hlen.
    simpl in Hlen. lia.
Qed.


(** ** Request dispatcher *)

Lemma close_fds_run fds : ∀ w, close_fds fds w = Some (tt, closed fds w).
Proof.
  induction fds as [|fd fds IH]; intros w.
  - simpl. unfold retM, closed. f_equal. f_equal.
    destruct w as [pm st op ft tx rx sk tr]. unfold set_fd_table, set_trace. simpl.
    f_equal; [by rewrite difference_empty_L|by rewrite app_nil_r].
  - simpl. unfold bindM, sys_close. rewrite IH. f_equal. f_equal.
    destruct w as [pm st op ft tx rx sk tr]. unfold closed, set_fd_table, set_trace, log. simpl.
    f_equal; [by rewrite difference_difference_l_L|by rewrite <- app_assoc].
Qed.

Lemma sys_recv_keeps fd msg off n w r msg' w' o :
  sys_recv fd msg off n w = Some ((r, msg'), w') →
  (o + 4 ≤ off)%nat → get_u32 o msg' = get_u32 o msg.
Proof.
  unfold sys_recv. destruct (rx_script w) as [|[e|data] rest]; intros [= _ <- _] Ho; try done.
  apply get_u32_store_ne. by left.
Qed.

Lemma vhost_user_read_inv fd msg w r msg' w' :
  vhost_user_read fd msg w = Some ((r, msg'), w') →
  r = -1 ∨
  (r = 0 ∧ ∃ data rest,
     rx_script w = RxData data :: rest ∧ (12 ≤ length data)%nat ∧
     msg_request msg' = wire_request data ∧
     msg_size msg' = wire_size data ∧
     wire_flags data = valid_flags ∧
     0 ≤ wire_size data ≤ sizeof_payload).
Proof.
  unfold vhost_user_read, bindM. change (Z.to_nat VHOST_USER_HDR_SIZE) with 12%nat.
  destruct (rx_script w) as [|[e|data] rest] eqn:Hrx.
  - unfold sys_recv. rewrite Hrx. simpl. intros [= <- _ _]. by left.
  - unfold sys_recv. rewrite Hrx. simpl. intros [= <- _ _]. by left.
  - rewrite (sys_recv_data _ _ _ _ _ _ _ Hrx).
    destruct (decide (12 ≤ length data)%nat) as [Hlen|Hlen].
    2:{ replace (Z.of_nat (length (take 12 data)) <? VHOST_USER_HDR_SIZE) with true.
        - intros [= <- _ _]. by left.
        - symmetry. apply Z.ltb_lt. rewrite length_take. unfold VHOST_USER_HDR_SIZE. lia. }
    rewrite length_take, Nat.min_l by done.
    change (Z.of_nat 12 <? VHOST_USER_HDR_SIZE) with false. cbv iota.
    unfold msg_flags, msg_size, msg_request, off_flags, off_size, off_request.
    rewrite !hdr_field_received by (done || lia).
    change (wire_u32 4 data) with (wire_flags data).
    change (wire_u32 8 data) with (wire_size data). fold valid_flags.
    pose proof (wire_u32_range off_size data) as Hsz. fold (wire_size data) in Hsz.
    destruct (wire_flags data =? valid_flags) eqn:Hfl; simpl;
      [|intros [= <- _ _]; by left].
    apply Z.eqb_eq in Hfl.
    destruct (sizeof_payload <? to_size_t (to_int (wire_size data))) eqn:Hbig;
      [intros [= <- _ _]; by left|].
    destruct (to_size_t_to_int_le _ Hsz Hbig) as [Hle Heq]. rewrite Heq.
    assert (0 ≤ wire_size data ≤ sizeof_payload) as Hbound.
    { unfold sizeof_payload, VHOST_MEMORY_MAX_NREGIONS, sizeof_memory_region. lia. }
    destruct (wire_size data =? 0) eqn:Hz; simpl.
    { intros [= <- <- _]. right. split; [done|]. exists data, rest.
      rewrite !hdr_field_received by (done || lia). done. }
    destruct (sys_recv _ _ _ _ _) as [[[r2 msg2] w2]|] eqn:Hrecv; [|done].
    destruct (r2 <? wire_size data); intros [= <- <- _]; [by left|].
    right. split; [done|]. exists data, rest.
    rewrite !(sys_recv_keeps _ _ _ _ _ _ _ _ _ Hrecv) by lia.
    rewrite !hdr_field_received by (done || lia). done.
Qed.

(** [vhost_user_read] always returns, and makes only [recv] calls. *)
Lemma vhost_user_read_total fd msg w :
  ∃ r msg' w' evs,
    vhost_user_read fd msg w = Some ((r, msg'), w') ∧
    trace w' = trace w ++ evs ∧ Forall (λ e, is_send e = false) evs ∧
    tx_script w' = tx_script w ∧ fd_table w' = fd_table w.
Proof.
  unfold vhost_user_read, bindM.
  destruct (sys_recv_run fd msg 0 (Z.to_nat VHOST_USER_HDR_SIZE) w) as (r1 & m1 & ->).
  set (w1 := set_rx_script _ _).
  assert (trace w1 = trace w ++ [EvRecv fd 0 (Z.to_nat VHOST_USER_HDR_SIZE)]) as Ht1 by done.
  assert (∀ x : Z * buffer,
    ∃ r msg' w' evs, retM x w1 = Some ((r, msg'), w') ∧
      trace w' = trace w ++ evs ∧ Forall (λ e, is_send e = false) evs ∧
      tx_script w' = tx_script w ∧ fd_table w' = fd_table w) as Hret.
  { intros [r m]. exists r, m, w1, [EvRecv fd 0 (Z.to_nat VHOST_USER_HDR_SIZE)].
    repeat split; try done. by repeat constructor. }
  destruct (r1 <? VHOST_USER_HDR_SIZE); [apply Hret|].
  destruct (negb _); [apply Hret|].
  destruct (sizeof_payload <? _); [apply Hret|].
  destruct (negb _); [|apply Hret].
  match goal with |- context [sys_recv ?a ?b ?c ?d ?e] =>
    destruct (sys_recv_run a b c d e) as (r2 & m2 & ->) end.
  match goal with |- context [(if ?b then retM ?x else retM ?y) ?v] =>
    assert (∃ z, (if b then retM x else retM y) v = Some (z, v)) as [[r3 m3] ->]
      by (destruct b; eexists; done) end.
  eexists _, _, _, [_; _]. split; [done|]. repeat split; try done.
  - simpl. by rewrite <- app_assoc.
  - by repeat constructor.
Qed.


Lemma quiet_step_refl w : quiet_step w w.
Proof.
  split; [done|]. exists []. split; [by rewrite app_nil_r|by constructor].
Qed.

Lemma quiet_step_trans w1 w2 w3 : quiet_step w1 w2 → quiet_step w2 w3 → quiet_step w1 w3.
Proof.
  intros [Ht1 (e1 & He1 & Hq1)] [Ht2 (e2 & He2 & Hq2)]. split; [congruence|].
  exists (e1 ++ e2). split; [by rewrite He2, He1, app_assoc|by apply Forall_app].
Qed.

Lemma sys_open_step p w : ∃ fd w', sys_open p w = Some (fd, w') ∧ quiet_step w w'.
Proof.
  unfold sys_open. destruct (openable w p); eexists _, _; (split; [done|]);
    (split; [done|]); eexists [_]; (split; [done|]); by repeat constructor.
Qed.

Lemma get_u32_set_region o i mr msg :
  (o + 4 ≤ 12)%nat → get_u32 o (set_payload_memory_region i mr msg) = get_u32 o msg.
Proof.
  intros Ho. unfold set_payload_memory_region, off_region, off_payload.
  by rewrite !get_u32_set_u64_ne by lia.
Qed.

Lemma open_regions_step huges : ∀ i msg fds w,
  ∃ msg' fds' w',
    open_regions huges i msg fds w = Some ((msg', fds'), w') ∧
    length fds' = (length fds + length huges)%nat ∧ quiet_step w w' ∧
    ∀ o, (o + 4 ≤ 12)%nat → get_u32 o msg' = get_u32 o msg.
Proof.
  induction huges as [|h huges IH]; intros i msg fds w.
  - eexists _, _, _. split; [done|]. split; [simpl; lia|].
    split; [apply quiet_step_refl|done].
  - simpl. unfold bindM. destruct (sys_open_step (huge_path h) w) as (fd & w1 & -> & Hq1).
    match goal with |- context [open_regions huges ?a ?b ?c ?d] =>
      destruct (IH a b c d) as (msg' & fds' & w' & -> & Hlen & Hq & Hhdr) end.
    eexists _, _, _. split; [done|]. rewrite length_app in Hlen. simpl in *.
    split; [lia|]. split; [by eapply quiet_step_trans|].
    intros o Ho. by rewrite Hhdr, get_u32_set_region.
Qed.

Lemma get_hugepage_file_info_inv max w n huges w' :
  get_hugepage_file_info max w = Some ((n, huges), w') →
  w' = w ∧ (n = -1 ∨ (n = Z.of_nat (length huges) ∧ (n = 0 ∨ n ≤ max))).
Proof.
  unfold get_hugepage_file_info. destruct (proc_maps w) as [lines|].
  2:{ intros [= <- <- <-]. split; [done|by left]. }
  destruct (scan_maps lines max []) as [[r hs]|] eqn:Hscan; [|done].
  destruct (scan_maps_ret _ _ _ _ _ Hscan) as [->| ->]; simpl; intros [= <- <- <-].
  - split; [done|]. right. rewrite length_fmap. split; [done|].
    destruct (scan_maps_length _ _ _ _ Hscan) as [Hl|Hl]; [left|right]; simpl in *; lia.
  - split; [done|by left].
Qed.

Ltac mem_simpl :=
  unfold msg_request, msg_flags, msg_size, set_msg_request, set_msg_flags,
    set_msg_size, payload_u64, set_payload_u64, set_payload_state,
    set_payload_addr, payload_memory_nregions, set_payload_memory_nregions,
    set_payload_memory_padding, request_header,
    off_request, off_flags, off_size, off_payload in *;
  repeat first
    [ rewrite get_u32_set_u32
    | rewrite get_u64_set_u64
    | rewrite get_u32_set_u32_ne by lia
    | rewrite get_u32_set_u64_ne by lia
    | rewrite get_u64_set_u32_ne by lia
    | rewrite get_u64_set_u64_ne by lia ].

Lemma prepare_vhost_memory_user_inv msg w r msg' fds w' :
  prepare_vhost_memory_user msg w = Some ((r, msg', fds), w') →
  quiet_step w w' ∧
  (r = -1 ∨
   (r = 0 ∧ 0 ≤ payload_memory_nregions msg' ≤ VHOST_MEMORY_MAX_NREGIONS ∧
    Z.of_nat (length fds) = payload_memory_nregions msg' ∧
    (∀ o, (o + 4 ≤ 12)%nat → get_u32 o msg' = get_u32 o msg))).
Proof.
  unfold prepare_vhost_memory_user, bindM.
  destruct (get_hugepage_file_info _ w) as [[[num huges] w0]|] eqn:Hinfo; [|done].
  apply get_hugepage_file_info_inv in Hinfo as [-> Hnum].
  destruct (num <? 0) eqn:Hneg.
  { intros [= <- <- <- <-]. split; [apply quiet_step_refl|by left]. }
  apply Z.ltb_ge in Hneg. destruct Hnum as [->|[Hlen Hmax]]; [lia|].
  match goal with |- context [open_regions ?a ?b ?c ?d ?e] =>
    destruct (open_regions_step a b c d e) as (m1 & fds1 & w1 & -> & Hfds & Hq & Hhdr) end.
  intros [= <- <- <- <-]. split; [done|]. right. split; [done|].
  rewrite length_take in Hfds. simpl in Hfds.
  assert (0 ≤ num ≤ VHOST_MEMORY_MAX_NREGIONS) as Hb.
  { unfold VHOST_MEMORY_MAX_NREGIONS in *. lia. }
  mem_simpl. rewrite to_u32_small by (unfold VHOST_MEMORY_MAX_NREGIONS in *; lia).
  split; [done|]. split; [lia|].
  intros o Ho. rewrite !get_u32_set_u32_ne by lia. by apply Hhdr.
Qed.

(** What the [switch] leaves: the size the table gives, the header
    untouched, one descriptor per region. *)
Lemma build_request_inv req arg msg w b w' :
  build_request req arg msg w = Some (b, w') →
  msg_size msg = 0 →
  quiet_step w w' ∧
  match b with
  | Return r => r = -1
  | Built msg' fds need_reply =>
      payload_size_spec req (payload_memory_nregions msg') = Some (msg_size msg') ∧
      0 ≤ msg_size msg' ≤ sizeof_payload ∧
      msg_request msg' = msg_request msg ∧
      msg_flags msg' = msg_flags msg ∧
      need_reply = expects_reply req ∧
      (req = VHOST_USER_SET_MEM_TABLE →
       Z.of_nat (length fds) = payload_memory_nregions msg')
  end.
Proof.
  intros Hrun Hsz0.
  destruct req; simpl in Hrun; unfold retM, undefined in Hrun.
  all: try (injection Hrun as <- <-; split; [apply quiet_step_refl|];
            mem_simpl; rewrite ?Hsz0; repeat split; try done;
            vm_compute; by intros [=]).
  all: try (destruct arg; try done; injection Hrun as <- <-;
            split; [apply quiet_step_refl|]; mem_simpl; rewrite ?Hsz0;
            repeat split; try done; vm_compute; by intros [=]).
  - (* VHOST_USER_SET_MEM_TABLE *)
    unfold bindM in Hrun.
    destruct (prepare_vhost_memory_user msg w) as [[[[r m1] fds] w1]|] eqn:Hprep; [|done].
    apply prepare_vhost_memory_user_inv in Hprep as [Hq Hr].
    destruct Hr as [->|(-> & Hn & Hfds & Hhdr)]; simpl in Hrun; injection Hrun as <- <-.
    { split; done. }
    split; [done|]. unfold VHOST_MEMORY_MAX_NREGIONS in Hn.
    set (n := payload_memory_nregions m1) in *.
    assert (payload_memory_nregions
              (set_msg_size (msg_size (set_msg_size (msg_size (set_msg_size 4 m1) + 4)
                 (set_msg_size 4 m1)) + to_int n * sizeof_memory_region)
                 (set_msg_size (msg_size (set_msg_size 4 m1) + 4) (set_msg_size 4 m1))) = n)
      as Hn'.
    { subst n. by mem_simpl. }
    rewrite Hn'. mem_simpl. unfold sizeof_memory_region, sizeof_payload,
      VHOST_MEMORY_MAX_NREGIONS in *.
    rewrite (to_int_small n) by lia.
    rewrite (to_u32_small 4), (to_u32_small (4 + 4)) by lia.
    rewrite to_u32_small by lia.
    repeat split; try (apply Hhdr; lia); unfold sizeof_memory_region; try lia.
    intros _. rewrite length_take. lia.
  - (* VHOST_USER_SET_VRING_KICK *)
    destruct arg as [| | | | |file]; try done.
    destruct (0 <? file_fd file); injection Hrun as <- <-;
      (split; [apply quiet_step_refl|]); mem_simpl;
      repeat split; try done; vm_compute; by intros [=].
  - destruct arg as [| | | | |file]; try done.
    destruct (0 <? file_fd file); injection Hrun as <- <-;
      (split; [apply quiet_step_refl|]); mem_simpl;
      repeat split; try done; vm_compute; by intros [=].
  - destruct arg as [| | | | |file]; try done.
    destruct (0 <? file_fd file); injection Hrun as <- <-;
      (split; [apply quiet_step_refl|]); mem_simpl;
      repeat split; try done; vm_compute; by intros [=].
Qed.


Lemma quiet_not_send evs fd buf fds : quiet evs → EvSendmsg fd buf fds ∉ evs.
Proof.
  intros Hq Hin. unfold quiet in Hq. rewrite Forall_forall in Hq.
  by specialize (Hq _ Hin).
Qed.

Lemma read_reply_inv dev req arg msg w r arg' w' :
  read_reply dev req arg msg w = Some ((r, arg'), w') →
  quiet_step w w' ∧
  ((r = -1 ∧ arg' = arg) ∨
   (r = 0 ∧ ∃ data rest,
      rx_script w = RxData data :: rest ∧ (12 ≤ length data)%nat ∧
      wire_request data = request_code req ∧ wire_flags data = valid_flags ∧
      ((req = VHOST_USER_GET_FEATURES ∧ wire_size data = sizeof_u64 ∧
        ∃ v, arg' = ArgU64 v) ∨
       (req = VHOST_USER_GET_VRING_BASE ∧ wire_size data = sizeof_vring_state ∧
        ∃ s, arg' = ArgState s)))).
Proof.
  unfold read_reply, bindM.
  destruct (vhost_user_read_total (vhostfd dev) msg w)
    as (r1 & m1 & w1 & evs & Hrun & Htr & Hq & Htx & _).
  rewrite Hrun. assert (quiet_step w w1) as Hstep by (split; [done|by exists evs]).
  destruct (vhost_user_read_inv _ _ _ _ _ _ Hrun)
    as [->|(-> & data & rest & Hrx & Hlen & Hreq & Hsz & Hfl & Hb)]; simpl.
  { intros [= <- <- <-]. split; [done|by left]. }
  rewrite Hreq, Hsz.
  destruct (request_code req =? wire_request data) eqn:Hcode; simpl.
  2:{ intros [= <- <- <-]. split; [done|by left]. }
  apply Z.eqb_eq in Hcode.
  destruct req; try (intros [= <- <- <-]; split; [done|by left]).
  - destruct (wire_size data =? sizeof_u64) eqn:Hs; simpl.
    2:{ intros [= <- <- <-]. split; [done|by left]. }
    apply Z.eqb_eq in Hs. destruct arg; try done. intros [= <- <- <-].
    split; [done|]. right. split; [done|]. exists data, rest.
    repeat split; try done. left. eauto.
  - destruct (wire_size data =? sizeof_vring_state) eqn:Hs; simpl.
    2:{ intros [= <- <- <-]. split; [done|by left]. }
    apply Z.eqb_eq in Hs. destruct arg; try done. intros [= <- <- <-].
    split; [done|]. right. split; [done|]. exists data, rest.
    repeat split; try done. right. eauto.
Qed.

(** A reply of the wrong size or kind: [read_reply] fails and leaves
    the argument alone. *)
Lemma read_reply_bad dev arg msg w data rest :
  rx_script w = RxData data :: rest →
  (12 ≤ length data)%nat →
  wire_size data ≠ sizeof_u64 ∨
  wire_request data ≠ request_code VHOST_USER_GET_FEATURES →
  ∃ w', read_reply dev VHOST_USER_GET_FEATURES arg msg w = Some ((-1, arg), w').
Proof.
  intros Hrx Hlen Hbad. unfold read_reply, bindM.
  destruct (vhost_user_read_total (vhostfd dev) msg w)
    as (r1 & m1 & w1 & evs & Hrun & _).
  rewrite Hrun.
  destruct (vhost_user_read_inv _ _ _ _ _ _ Hrun)
    as [->|(-> & data' & rest' & Hrx' & _ & Hreq & Hsz & _)].
  { eexists. reflexivity. }
  change (0 <? 0) with false. cbv iota.
  rewrite Hrx in Hrx'. injection Hrx' as <- <-. rewrite Hreq, Hsz.
  destruct (request_code VHOST_USER_GET_FEATURES =? wire_request data) eqn:Hcode;
    cbn [negb]; [|eexists; reflexivity].
  apply Z.eqb_eq in Hcode.
  destruct (wire_size data =? sizeof_u64) eqn:Hs; cbn [negb]; [|eexists; reflexivity].
  apply Z.eqb_eq in Hs. destruct Hbad as [?|Hne]; [done|].
  by rewrite <- Hcode in Hne.
Qed.

Lemma exchange_write dev req arg msg fds need_reply w k tl :
  tx_script w = replicate k (TxErr EINTR) ++ tl →
  head tl ≠ Some (TxErr EINTR) →
  0 ≤ msg_size msg ≤ sizeof_payload →
  exchange dev req arg msg fds need_reply w =
  let w1 := sent (vhostfd dev) (load 0 (message_len msg) msg) fds k tl w in
  if tx_return (head tl) (message_len msg) <? 0 then Some ((-1, arg), w1)
  else
    let w2 := if is_set_mem_table req then closed fds w1 else w1 in
    if need_reply then read_reply dev req arg msg w2 else Some ((0, arg), w2).
Proof.
  intros Hs Hhd Hsz. unfold exchange, bindM.
  rewrite to_int_small.
  2:{ unfold sizeof_payload, VHOST_MEMORY_MAX_NREGIONS, sizeof_memory_region,
        VHOST_USER_HDR_SIZE in *. lia. }
  rewrite (vhost_user_write_run _ _ _ _ _ k tl Hs Hhd). fold (message_len msg).
  unfold sent. destruct (tx_return _ _ <? 0); [done|].
  destruct (is_set_mem_table req); [rewrite close_fds_run|]; by destruct need_reply.
Qed.

Lemma exchange_inv dev req arg msg fds need_reply w k tl res w' :
  exchange dev req arg msg fds need_reply w = Some (res, w') →
  tx_script w = replicate k (TxErr EINTR) ++ tl →
  head tl ≠ Some (TxErr EINTR) →
  0 ≤ msg_size msg ≤ sizeof_payload →
  ∃ evs,
    trace w' = trace w ++
      replicate (S k) (EvSendmsg (vhostfd dev) (load 0 (message_len msg) msg) fds) ++ evs ∧
    quiet evs ∧ tx_script w' = tail tl ∧
    match head tl with
    | Some (TxAccept n) => need_reply = false → res = (0, arg)
    | _ => res = (-1, arg)
    end.
Proof.
  intros Hrun Hs Hhd Hsz. rewrite (exchange_write _ _ _ _ _ _ _ k tl Hs Hhd Hsz) in Hrun.
  cbv zeta in Hrun.
  set (ev := EvSendmsg _ _ _) in *.
  assert (∀ n, (tx_return (Some (TxAccept n)) (message_len msg) <? 0) = false) as Hacc.
  { intros n. apply Z.ltb_ge. simpl. lia. }
  destruct (head tl) as [[e|n]|] eqn:Hhead.
  1, 3: change (tx_return _ (message_len msg) <? 0) with true in Hrun;
        injection Hrun as <- <-; exists []; rewrite app_nil_r;
        repeat split; try done; by constructor.
  rewrite Hacc in Hrun.
  set (w1 := sent _ _ _ _ _ _) in *.
  set (w2 := if is_set_mem_table req then closed fds w1 else w1) in *.
  assert (quiet_step w1 w2) as Hq12.
  { subst w2. destruct (is_set_mem_table req); [|apply quiet_step_refl].
    split; [done|]. exists (EvClose <$> fds). split; [done|].
    apply Forall_fmap, Forall_true. done. }
  assert (quiet_step w2 w' ∧ (need_reply = false → res = (0, arg))) as [Hq2 Hres].
  { destruct need_reply.
    - destruct res as [r arg']. apply read_reply_inv in Hrun as [Hq _]. done.
    - injection Hrun as <- <-. split; [apply quiet_step_refl|done]. }
  destruct (quiet_step_trans _ _ _ Hq12 Hq2) as [Htx (evs & Htr & Hq)].
  exists evs. split; [|done]. rewrite Htr. subst w1. unfold sent. simpl.
  by rewrite <- app_assoc.
Qed.

Lemma request_header_size req msg : msg_size (request_header req msg) = 0.
Proof. by mem_simpl. Qed.

Lemma vhost_user_sock_run dev req arg w :
  is_server dev && (vhostfd dev <? 0) = false →
  vhost_user_sock dev req arg w =
  match build_request req arg (request_header req (stack w)) w with
  | Some (Return r, w1) => Some ((r, arg), w1)
  | Some (Built msg fds need_reply, w1) => exchange dev req arg msg fds need_reply w1
  | None => None
  end.
Proof.
  intros Hc. unfold vhost_user_sock, bindM. rewrite Hc.
  destruct (build_request _ _ _ _) as [[[]]|]; done.
Qed.

Lemma new_events_app w w' evs : trace w' = trace w ++ evs → new_events w w' = evs.
Proof. intros H. unfold new_events. by rewrite H, drop_app_length. Qed.

Lemma elem_of_replicate_inv {A} (x y : A) n : x ∈ replicate n y → x = y.
Proof. intros H. by apply elem_of_replicate in H as [-> _]. Qed.


Lemma sends_quiet evs : quiet evs → sends evs = [].
Proof.
  unfold sends, quiet. induction 1 as [|e evs He _ IH]; [done|].
  rewrite filter_cons_False by congruence. done.
Qed.

Lemma sends_replicate n fd buf fds :
  sends (replicate n (EvSendmsg fd buf fds)) = replicate n (EvSendmsg fd buf fds).
Proof.
  unfold sends. induction n as [|n IH]; [done|]. simpl.
  rewrite filter_cons_True by done. by rewrite IH.
Qed.

Lemma sends_app evs1 evs2 : sends (evs1 ++ evs2) = sends evs1 ++ sends evs2.
Proof. apply filter_app. Qed.

Lemma land_idx_mask_range idx : 0 ≤ Z.land idx VHOST_USER_VRING_IDX_MASK < 256.
Proof.
  change VHOST_USER_VRING_IDX_MASK with (Z.ones 8). rewrite Z.land_ones by lia.
  apply Z.mod_pos_bound. lia.
Qed.

Lemma lor_nofd_range v : 0 ≤ v < 256 → 0 ≤ Z.lor v VHOST_USER_VRING_NOFD_MASK < 2 ^ 64.
Proof.
  intros Hv. change VHOST_USER_VRING_NOFD_MASK with 256.
  assert (0 ≤ Z.lor v 256) as Hnn by (apply Z.lor_nonneg; lia).
  split; [done|].
  destruct (decide (Z.lor v 256 = 0)) as [->|Hne]; [lia|].
  apply Z.log2_lt_pow2; [lia|]. rewrite Z.log2_lor by lia.
  change (Z.log2 256) with 8.
  destruct (decide (v = 0)) as [->|Hv0]; [simpl; lia|].
  assert (Z.log2 v < 8) by (apply Z.log2_lt_pow2; lia). lia.
Qed.

Lemma exchange_no_reply dev req arg msg fds w k tl :
  tx_script w = replicate k (TxErr EINTR) ++ tl →
  head tl ≠ Some (TxErr EINTR) →
  0 ≤ msg_size msg ≤ sizeof_payload →
  is_set_mem_table req = false →
  exchange dev req arg msg fds false w =
  Some ((if tx_return (head tl) (message_len msg) <? 0 then -1 else 0, arg),
        sent (vhostfd dev) (load 0 (message_len msg) msg) fds k tl w).
Proof.
  intros Hs Hhd Hsz Hmem. rewrite (exchange_write _ _ _ _ _ _ _ k tl Hs Hhd Hsz).
  cbv zeta. rewrite Hmem. by destruct (tx_return _ _ <? 0).
Qed.

(** Claim C5.  For set-vring-kick, set-vring-call and set-vring-err
    on a connected device, every [sendmsg] of the call sends the same
    message: a header with the request and size 8, and the scalar
    [index & 0xff]; with a positive descriptor the descriptor is
    attached and the no-descriptor bit is clear, otherwise nothing is
    attached and the no-descriptor bit is set.  The argument is not
    modified. *)
Theorem vring_file_request dev req file w :
  req = VHOST_USER_SET_VRING_KICK ∨ req = VHOST_USER_SET_VRING_CALL ∨
  req = VHOST_USER_SET_VRING_ERR →
  is_server dev && (vhostfd dev <? 0) = false →
  ∃ r w' k buf fds,
    vhost_user_sock dev req (ArgFile file) w = Some ((r, ArgFile file), w') ∧
    trace w' = trace w ++ replicate (S k) (EvSendmsg (vhostfd dev) buf fds) ∧
    wire_request buf = request_code req ∧
    wire_size buf = sizeof_u64 ∧
    length buf = 20%nat ∧
    if 0 <? file_fd file
    then fds = [file_fd file] ∧
         wire_payload_u64 buf = Z.land (file_index file) VHOST_USER_VRING_IDX_MASK ∧
         Z.land (wire_payload_u64 buf) VHOST_USER_VRING_NOFD_MASK = 0
    else fds = [] ∧
         wire_payload_u64 buf =
           Z.lor (Z.land (file_index file) VHOST_USER_VRING_IDX_MASK)
                 VHOST_USER_VRING_NOFD_MASK.
Proof.
  intros Hreq Hc. rewrite vhost_user_sock_run by done.
  destruct (tx_script_split (tx_script w)) as (k & tl & Hs & Hhd).
  pose proof (land_idx_mask_range (file_index file)) as Hidx.
  pose proof (lor_nofd_range _ Hidx) as Hlor.
  set (v := Z.land (file_index file) VHOST_USER_VRING_IDX_MASK) in *.
  assert (∃ msg fds,
    build_request req (ArgFile file) (request_header req (stack w)) w =
      Some (Built msg fds false, w) ∧
    msg_size msg = sizeof_u64 ∧ msg_request msg = request_code req ∧
    is_set_mem_table req = false ∧
    if 0 <? file_fd file
    then fds = [file_fd file] ∧ payload_u64 msg = v
    else fds = [] ∧ payload_u64 msg = Z.lor v VHOST_USER_VRING_NOFD_MASK)
    as (msg & fds & -> & Hsz & Hrq & Hmem & Hpay).
  { destruct Hreq as [->|[->| ->]]; simpl; fold v; destruct (0 <? file_fd file);
      eexists _, _; (split; [reflexivity|]); mem_simpl;
      rewrite ?(to_u64_small v), ?to_u64_small by lia; done. }
  assert (message_len msg = 20%nat) as Hlen by (unfold message_len; by rewrite Hsz).
  rewrite (exchange_no_reply _ _ _ _ _ _ k tl Hs Hhd); [|by rewrite Hsz|done].
  eexists _, _, k, _, fds. split; [reflexivity|]. split; [done|].
  rewrite Hlen. unfold wire_request, wire_size, wire_payload_u64.
  rewrite !wire_u32_load, wire_u64_load by (unfold off_request, off_size, off_payload; lia).
  rewrite length_load. repeat split; try done.
  fold (payload_u64 msg).
  destruct (0 <? file_fd file); destruct Hpay as [-> ->]; repeat split; try done.
  subst v. change VHOST_USER_VRING_IDX_MASK with (Z.ones 8).
  change VHOST_USER_VRING_NOFD_MASK with (2 ^ 8).
  apply Z.bits_inj'. intros n Hn. rewrite !Z.land_spec, Z.bits_0.
  destruct (decide (n = 8)) as [->|Hne].
  - rewrite Z.ones_spec_high by lia. by rewrite andb_false_r.
  - rewrite Z.pow2_bits_false by lia. by rewrite andb_false_r.
Qed.


(** Claim C9.  When the reply to get-features has a size other than 8
    or another request identifier, [vhost_user_sock] returns -1 and
    the argument is what it was.  In general the call either returns
    -1 with the argument untouched, or returns 0 after a reply with
    the request identifier of get-features and size 8, the argument
    then holding a scalar. *)
Theorem get_features_reply_checked dev arg w :
  (∀ data rest,
     rx_script w = RxData data :: rest →
     (12 ≤ length data)%nat →
     wire_size data ≠ sizeof_u64 ∨
     wire_request data ≠ request_code VHOST_USER_GET_FEATURES →
     ∃ w', vhost_user_sock dev VHOST_USER_GET_FEATURES arg w = Some ((-1, arg), w')) ∧
  (∀ r arg' w',
     vhost_user_sock dev VHOST_USER_GET_FEATURES arg w = Some ((r, arg'), w') →
     (r = -1 ∧ arg' = arg) ∨
     (r = 0 ∧ ∃ data rest v,
        rx_script w = RxData data :: rest ∧
        wire_request data = request_code VHOST_USER_GET_FEATURES ∧
        wire_size data = sizeof_u64 ∧
        arg' = ArgU64 v)).
Proof.
  destruct (is_server dev && (vhostfd dev <? 0)) eqn:Hearly.
  { unfold vhost_user_sock. rewrite Hearly. split.
    - intros. by eexists.
    - intros r arg' w' [= <- <- <-]. by left. }
  rewrite vhost_user_sock_run by done.
  destruct (tx_script_split (tx_script w)) as (k & tl & Hs & Hhd).
  cbn [build_request]. unfold retM.
  rewrite (exchange_write _ _ _ _ _ _ _ k tl Hs Hhd);
    [|by rewrite request_header_size]. cbv zeta. cbn [is_set_mem_table].
  set (w1 := sent _ _ _ _ _ _).
  assert (rx_script w1 = rx_script w) as Hrx1 by done.
  destruct (tx_return _ _ <? 0).
  { split.
    - intros. by eexists.
    - intros r arg' w' [= <- <- <-]. by left. }
  split.
  - intros data rest Hrx Hlen Hbad. rewrite <- Hrx1 in Hrx.
    by apply (read_reply_bad _ _ _ _ data rest).
  - intros r arg' w' Hrun. apply read_reply_inv in Hrun as [_ Hres].
    destruct Hres as [?|(-> & data & rest & Hrx & _ & Hreq & _ & Hcase)]; [by left|].
    right. split; [done|]. rewrite Hrx1 in Hrx.
    destruct Hcase as [(_ & Hsz & v & ->)|([=] & _)]. by exists data, rest, v.
Qed.

(** *** Results, sends and descriptors of a call *)

Lemma read_reply_defined dev req arg msg w :
  arg_matches req arg = true → is_Some (read_reply dev req arg msg w).
Proof.
  intros Harg. unfold read_reply, bindM.
  destruct (vhost_user_read_total (vhostfd dev) msg w) as (r & m1 & w1 & evs & -> & _).
  destruct (r <? 0); [done|]. destruct (negb _); [done|].
  destruct req; try done.
  - destruct (negb _); [done|]. by destruct arg.
  - destruct (negb _); [done|]. by destruct arg.
Qed.

(** *** Calls that reach the send *)

(** When the discovery succeeds the memory table is prepared. *)
Lemma prepare_vhost_memory_user_succeeds msg w :
  discovery_succeeds w →
  ∃ m fds w1, prepare_vhost_memory_user msg w = Some ((0, m, fds), w1).
Proof.
  intros (n & huges & w0 & Hinfo & Hn). unfold prepare_vhost_memory_user, bindM.
  rewrite Hinfo. destruct (n <? 0) eqn:Hlt; [lia|].
  match goal with |- context [open_regions ?a ?b ?c ?d ?e] =>
    destruct (open_regions_step a b c d e) as (m1 & fds1 & w1 & -> & _) end.
  by eexists _, _, _.
Qed.

(** The [switch] builds a message for every request kind of the
    table, given an argument of the documented type and, for a memory
    table, a discovery that succeeds. *)
Lemma build_request_built req arg msg w :
  is_Some (payload_size_spec req 0) →
  arg_matches req arg = true →
  (req = VHOST_USER_SET_MEM_TABLE → discovery_succeeds w) →
  ∃ m fds need w1, build_request req arg msg w = Some (Built m fds need, w1).
Proof.
  intros [sz Hsz] Harg Hmem.
  destruct req; try done; try (by eexists _, _, _, _);
    try (destruct arg; try done; by eexists _, _, _, _).
  - simpl. unfold bindM.
    destruct (prepare_vhost_memory_user_succeeds msg w (Hmem eq_refl))
      as (m & fds & w1 & ->).
    by eexists _, _, _, _.
  - destruct arg as [| | | | |file]; try done. simpl.
    destruct (0 <? file_fd file); by eexists _, _, _, _.
  - destruct arg as [| | | | |file]; try done. simpl.
    destruct (0 <? file_fd file); by eexists _, _, _, _.
  - destruct arg as [| | | | |file]; try done. simpl.
    destruct (0 <? file_fd file); by eexists _, _, _, _.
Qed.

(** A request of the table on a connected device: the message the
    [switch] built is given to [sendmsg] once more than the call is
    interrupted, and the first call that is not interrupted decides. *)
Lemma vhost_user_sock_reaches_send dev req arg w k tl :
  is_server dev && (vhostfd dev <? 0) = false →
  is_Some (payload_size_spec req 0) →
  arg_matches req arg = true →
  (req = VHOST_USER_SET_MEM_TABLE → discovery_succeeds w) →
  tx_script w = replicate k (TxErr EINTR) ++ tl →
  head tl ≠ Some (TxErr EINTR) →
  ∃ msg fds w1 res w',
    build_request req arg (request_header req (stack w)) w =
      Some (Built msg fds (expects_reply req), w1) ∧
    vhost_user_sock dev req arg w = Some (res, w') ∧
    sends (new_events w w') =
      replicate (S k) (EvSendmsg (vhostfd dev) (load 0 (message_len msg) msg) fds) ∧
    tx_script w' = tail tl ∧
    match head tl with
    | Some (TxAccept n) => expects_reply req = false → res = (0, arg)
    | _ => res = (-1, arg)
    end.
Proof.
  intros Hconn Hreq Harg Hmem Hs Hhd.
  destruct (build_request_built req arg (request_header req (stack w)) w Hreq Harg Hmem)
    as (msg & fds & need & w1 & Hb).
  pose proof Hb as Hb'.
  apply build_request_inv in Hb' as [[Htx (evs1 & Htr1 & Hq1)] Hb'];
    [|apply request_header_size].
  destruct Hb' as (_ & Hsz & _ & _ & -> & _). rewrite <- Htx in Hs.
  assert (is_Some (exchange dev req arg msg fds (expects_reply req) w1)) as [[res w'] Hrun].
  { rewrite (exchange_write _ _ _ _ _ _ _ k tl Hs Hhd Hsz). cbv zeta.
    destruct (tx_return _ _ <? 0); [done|].
    destruct (expects_reply req); [|done]. by apply read_reply_defined. }
  exists msg, fds, w1, res, w'. split; [done|].
  rewrite vhost_user_sock_run, Hb by done. split; [done|].
  destruct (exchange_inv _ _ _ _ _ _ _ _ _ _ _ Hrun Hs Hhd Hsz)
    as (evs & Htr & Hq & Htl & Hres).
  rewrite Htr1, <- app_assoc in Htr. rewrite (new_events_app _ _ _ Htr).
  rewrite !sends_app, sends_replicate, !sends_quiet by done.
  by rewrite app_nil_r.
Qed.

(** Claim C1.  A request of a kind of the table of section 4.4, made
    on a connected device with an argument of the documented type
    (and, for a memory table, when the discovery of the hugepage files
    succeeds), is sent: [vhost_user_sock] gives one message to
    [sendmsg] (again after each interruption), on the descriptor of
    the device.  The size field of its header is the payload size the
    table gives for the request kind: 0 for get-features, set-owner,
    reset-owner and set-log-fd, 8 for the kinds with a 64-bit scalar,
    the size of a vring state or of a vring address, and
    8 + 32 * nregions for set-mem-table.  The bytes sent are the
    header and that many payload bytes, the request field is the
    request, and a memory table comes with one descriptor per
    region. *)
Theorem dispatch_header_size dev req arg w :
  is_server dev && (vhostfd dev <? 0) = false →
  is_Some (payload_size_spec req 0) →
  arg_matches req arg = true →
  (req = VHOST_USER_SET_MEM_TABLE → discovery_succeeds w) →
  ∃ res w' k buf fds,
    vhost_user_sock dev req arg w = Some (res, w') ∧
    sends (new_events w w') = replicate (S k) (EvSendmsg (vhostfd dev) buf fds) ∧
    payload_size_spec req (wire_nregions buf) = Some (wire_size buf) ∧
    Z.of_nat (length buf) = VHOST_USER_HDR_SIZE + wire_size buf ∧
    wire_request buf = request_code req ∧
    (req = VHOST_USER_SET_MEM_TABLE → Z.of_nat (length fds) = wire_nregions buf).
Proof.
  intros Hconn Hsup Harg Hmem.
  destruct (tx_script_split (tx_script w)) as (k & tl & Hs & Hhd).
  destruct (vhost_user_sock_reaches_send dev req arg w k tl Hconn Hsup Harg Hmem Hs Hhd)
    as (msg & fds & w1 & res & w' & Hb & Hrun & Hsends & _).
  exists res, w', k, (load 0 (message_len msg) msg), fds.
  split; [done|]. split; [done|].
  apply build_request_inv in Hb as [_ Hb]; [|apply request_header_size].
  destruct Hb as (Hspec & Hsz & Hreq & Hfl & _ & Hfds).
  unfold message_len, VHOST_USER_HDR_SIZE, sizeof_payload, VHOST_MEMORY_MAX_NREGIONS,
    sizeof_memory_region in *.
  assert (wire_size (load 0 (Z.to_nat (12 + msg_size msg)) msg) = msg_size msg) as Hws.
  { unfold wire_size, off_size. rewrite wire_u32_load by lia. done. }
  assert (wire_request (load 0 (Z.to_nat (12 + msg_size msg)) msg) = request_code req)
    as Hwr.
  { unfold wire_request, off_request. rewrite wire_u32_load by lia.
    change (get_u32 0 msg) with (msg_request msg). rewrite Hreq. clear.
    mem_simpl. by destruct req. }
  rewrite Hws, Hwr, length_load. split; [|split; [lia|split; [done|]]].
  - destruct req; try done. simpl in Hspec |- *. injection Hspec as Hspec.
    unfold wire_nregions, off_payload. rewrite wire_u32_load; [|unfold sizeof_memory_region in *].
    + change (get_u32 12 msg) with (payload_memory_nregions msg). by rewrite Hspec.
    + pose proof (get_u32_range 12 msg). unfold payload_memory_nregions, off_payload in *. lia.
  - intros ->. rewrite Hfds by done. simpl in Hspec. injection Hspec as Hspec.
    unfold wire_nregions, off_payload. rewrite wire_u32_load; [done|].
    pose proof (get_u32_range 12 msg).
    unfold payload_memory_nregions, off_payload, sizeof_memory_region in *. lia.
Qed.


(** A call that returns 0 has sent its message: the [sendmsg] calls
    it made are one or more calls on the device's descriptor, all
    with the same bytes and the same descriptors. *)
Theorem dispatch_success_sent dev req arg w arg' w' :
  vhost_user_sock dev req arg w = Some ((0, arg'), w') →
  ∃ k buf fds,
    sends (new_events w w') = replicate (S k) (EvSendmsg (vhostfd dev) buf fds).
Proof.
  intros Hrun. destruct (is_server dev && (vhostfd dev <? 0)) eqn:Hearly.
  { unfold vhost_user_sock in Hrun. by rewrite Hearly in Hrun. }
  rewrite vhost_user_sock_run in Hrun by done.
  destruct (build_request _ _ _ _) as [[b w1]|] eqn:Hb; [|done].
  apply build_request_inv in Hb as [[Htx (evs1 & Htr1 & Hq1)] Hb];
    [|apply request_header_size].
  destruct b as [msg fds need_reply|r]; [|by injection Hrun as -> _].
  destruct Hb as (_ & Hsz & _).
  destruct (tx_script_split (tx_script w1)) as (k & tl & Hs & Hhd).
  destruct (exchange_inv _ _ _ _ _ _ _ _ _ _ _ Hrun Hs Hhd Hsz) as (evs & Htr & Hq & _).
  rewrite Htr1, <- app_assoc in Htr. rewrite (new_events_app _ _ _ Htr).
  rewrite !sends_app, sends_replicate, !sends_quiet by done.
  eexists k, _, _. by rewrite app_nil_r.
Qed.

(** A request kind outside the table, or a server without a peer:
    -1, and no system call. *)
Theorem unsupported_request_fails dev req arg w :
  payload_size_spec req 0 = None ∨ is_server dev && (vhostfd dev <? 0) = true →
  vhost_user_sock dev req arg w = Some ((-1, arg), w).
Proof.
  intros [Hreq|Hearly].
  - unfold vhost_user_sock, bindM. destruct (is_server dev && (vhostfd dev <? 0)); [done|].
    by destruct req.
  - unfold vhost_user_sock. by rewrite Hearly.
Qed.

(** get-vring-base: the argument changes only after a reply with the
    request identifier of get-vring-base and the size of a vring
    state. *)
Theorem get_vring_base_reply_checked dev arg w r arg' w' :
  vhost_user_sock dev VHOST_USER_GET_VRING_BASE arg w = Some ((r, arg'), w') →
  (r = -1 ∧ arg' = arg) ∨
  (r = 0 ∧ ∃ data rest s,
     rx_script w = RxData data :: rest ∧
     wire_request data = request_code VHOST_USER_GET_VRING_BASE ∧
     wire_size data = sizeof_vring_state ∧
     arg' = ArgState s).
Proof.
  destruct (is_server dev && (vhostfd dev <? 0)) eqn:Hearly.
  { unfold vhost_user_sock. rewrite Hearly. intros [= <- <- <-]. by left. }
  rewrite vhost_user_sock_run by done. cbn [build_request].
  destruct arg as [| | |s0| |]; try done. unfold retM.
  destruct (tx_script_split (tx_script w)) as (k & tl & Hs & Hhd).
  rewrite (exchange_write _ _ _ _ _ _ _ k tl Hs Hhd); [|by mem_simpl].
  cbv zeta. cbn [is_set_mem_table].
  set (w1 := sent _ _ _ _ _ _).
  assert (rx_script w1 = rx_script w) as Hrx1 by done.
  destruct (tx_return _ _ <? 0); [intros [= <- <- <-]; by left|].
  intros Hrun. apply read_reply_inv in Hrun as [_ Hres].
  destruct Hres as [?|(-> & data & rest & Hrx & _ & Hreq & _ & Hcase)]; [by left|].
  right. split; [done|]. rewrite Hrx1 in Hrx.
  destruct Hcase as [([=] & _)|(_ & Hsz & s & ->)]. by exists data, rest, s.
Qed.

Lemma opened_fds_app evs1 evs2 :
  opened_fds (evs1 ++ evs2) = opened_fds evs1 ++ opened_fds evs2.
Proof. apply omap_app. Qed.

Lemma closed_fds_app evs1 evs2 :
  closed_fds (evs1 ++ evs2) = closed_fds evs1 ++ closed_fds evs2.
Proof. apply omap_app. Qed.

Lemma opened_fds_sends n fd buf fds : opened_fds (replicate n (EvSendmsg fd buf fds)) = [].
Proof. induction n; [done|]. simpl. done. Qed.

Lemma closed_fds_sends n fd buf fds : closed_fds (replicate n (EvSendmsg fd buf fds)) = [].
Proof. induction n; [done|]. simpl. done. Qed.

Lemma opened_fds_closes fds : opened_fds (EvClose <$> fds) = [].
Proof. induction fds; [done|]. simpl. done. Qed.

Lemma closed_fds_closes fds : closed_fds (EvClose <$> fds) = fds.
Proof. unfold closed_fds. induction fds as [|fd fds IH]; simpl; [done|by f_equal]. Qed.

(** What the loop of [prepare_vhost_memory_user] opens: one [open]
    for each record, its result appended to [fds]; a descriptor it
    returns was not in use before. *)
Lemma open_regions_fds huges : ∀ i msg fds w msg' fds' w',
  open_regions huges i msg fds w = Some ((msg', fds'), w') →
  ∃ new evs,
    fds' = fds ++ new ∧ length new = length huges ∧ trace w' = trace w ++ evs ∧
    opened_fds evs = new ∧ closed_fds evs = [] ∧ sends evs = [] ∧
    tx_script w' = tx_script w ∧
    fd_table w ⊆ fd_table w' ∧ fd_table w' ⊆ fd_table w ∪ list_to_set new ∧
    ∀ fd, fd ∈ new → fd = -1 ∨ fd ∉ fd_table w.
Proof.
  induction huges as [|h huges IH]; intros i msg fds w msg' fds' w'.
  - simpl. unfold retM. intros [= <- <- <-]. exists [], []. rewrite !app_nil_r.
    repeat split; try done; [set_solver|].
    intros fd Hfd. by apply elem_of_nil in Hfd.
  - simpl. unfold bindM.
    destruct (sys_open (huge_path h) w) as [[fd w1]|] eqn:Hopen; [|done].
    intros Hrun. apply IH in Hrun
      as (new & evs & -> & Hlen & Htr & Hop & Hcl & Hse & Htx & Hsub1 & Hsub2 & Hfresh).
    unfold sys_open in Hopen.
    destruct (openable w (huge_path h)); injection Hopen as <- <-.
    + exists (fresh (fd_table w) :: new), (EvOpen (huge_path h) (fresh (fd_table w)) :: evs).
      pose proof (is_fresh (fd_table w)) as Hnew. simpl in *.
      rewrite <- !app_assoc in *. simpl in *.
      repeat split; try done.
      * by rewrite Hlen.
      * by rewrite Hop.
      * set_solver.
      * intros x Hx. apply Hsub2 in Hx. revert Hx.
        rewrite !elem_of_union, !elem_of_singleton. tauto.
      * intros fd [->|Hfd]%elem_of_cons; [by right|].
        destruct (Hfresh fd Hfd) as [?|Hn]; [by left|]. right. set_solver.
    + exists (-1 :: new), (EvOpen (huge_path h) (-1) :: evs). simpl in *.
      rewrite <- !app_assoc in *. simpl in *.
      repeat split; try done.
      * by rewrite Hlen.
      * by rewrite Hop.
      * intros x Hx. apply Hsub2 in Hx. revert Hx.
        rewrite !elem_of_union, !elem_of_singleton. tauto.
      * intros fd [->|Hfd]%elem_of_cons; [by left|]. by apply Hfresh.
Qed.

(** A set-mem-table call that returns 0 closed every descriptor it
    opened: the [close] calls are given the results of the [open]
    calls, in order, and the descriptor table is what it was. *)
Theorem mem_table_success_closes_all dev arg w arg' w' :
  vhost_user_sock dev VHOST_USER_SET_MEM_TABLE arg w = Some ((0, arg'), w') →
  -1 ∉ fd_table w →
  closed_fds (new_events w w') = opened_fds (new_events w w') ∧
  fd_table w' = fd_table w.
Proof.
  intros Hrun Hneg. destruct (is_server dev && (vhostfd dev <? 0)) eqn:Hearly.
  { unfold vhost_user_sock in Hrun. by rewrite Hearly in Hrun. }
  rewrite vhost_user_sock_run in Hrun by done.
  destruct (build_request _ _ _ _) as [[b w1]|] eqn:Hb; [|done].
  pose proof Hb as Hinv.
  apply build_request_inv in Hinv as [_ Hinv]; [|apply request_header_size].
  destruct b as [msg fds need_reply|r]; [|by injection Hrun as -> _].
  destruct Hinv as (_ & Hsz & _ & _ & -> & Hlen). specialize (Hlen eq_refl).
  (* the descriptors and the events of the build *)
  cbn [build_request] in Hb. unfold bindM, prepare_vhost_memory_user, bindM in Hb.
  destruct (get_hugepage_file_info _ w) as [[[num huges] w0]|] eqn:Hinfo; [|done].
  apply get_hugepage_file_info_inv in Hinfo as [-> Hnum].
  destruct (num <? 0) eqn:Hneg0; [done|]. apply Z.ltb_ge in Hneg0.
  destruct Hnum as [->|[Hnum Hmax]]; [lia|].
  destruct (open_regions _ _ _ _ _) as [[[m1 fds1] w2]|] eqn:Hopen; [|done].
  apply open_regions_fds in Hopen
    as (new & evs & Hfds1 & Hnew & Htr & Hop & Hcl & Hse & Htx & Hsub1 & Hsub2 & Hfresh).
  simpl in Hfds1. subst fds1. cbn in Hb. injection Hb as <- <- <-.
  rewrite length_take in Hnew. clear Hlen.
  assert (take (Z.to_nat (to_int (payload_memory_nregions
            (set_payload_memory_padding 0 (set_payload_memory_nregions num m1))))) new
          = new) as Htake.
  { apply firstn_all2. mem_simpl. unfold VHOST_MEMORY_MAX_NREGIONS in Hmax.
    rewrite to_u32_small, to_int_small by lia. lia. }
  rewrite Htake in *.
  (* the exchange *)
  destruct (tx_script_split (tx_script w2)) as (k & tl & Hs & Hhd).
  rewrite (exchange_write _ _ _ _ _ _ _ k tl Hs Hhd Hsz) in Hrun. cbv zeta in Hrun.
  destruct (tx_return _ _ <? 0); [done|]. cbn in Hrun. injection Hrun as <- <-.
  split.
  - erewrite new_events_app.
    2:{ unfold closed, sent. simpl. rewrite Htr, <- !app_assoc. reflexivity. }
    rewrite !opened_fds_app, !closed_fds_app, Hop, Hcl.
    change (EvSendmsg (vhostfd dev) ?b ?f :: replicate k ?e) with (replicate (S k) e).
    by rewrite opened_fds_sends, closed_fds_sends, opened_fds_closes, closed_fds_closes,
      app_nil_r.
  - unfold closed, sent. simpl. apply set_eq. intros fd.
    rewrite elem_of_difference, elem_of_list_to_set. split.
    + intros [Hin Hnot]. apply Hsub2 in Hin. rewrite elem_of_union, elem_of_list_to_set in Hin.
      by destruct Hin.
    + intros Hin. split; [by apply Hsub1|]. intros Hfd.
      destruct (Hfresh fd Hfd) as [->|?]; done.
Qed.

(** ** Queue-pair enable helper *)

Lemma vhost_user_sock_state_total dev req s w :
  req = VHOST_USER_SET_VRING_NUM ∨ req = VHOST_USER_SET_VRING_BASE ∨
  req = VHOST_USER_SET_VRING_ENABLE →
  ∃ r w', vhost_user_sock dev req (ArgState s) w = Some ((r, ArgState s), w') ∧
          (r = 0 ∨ r = -1).
Proof.
  intros Hreq. destruct (is_server dev && (vhostfd dev <? 0)) eqn:Hearly.
  { unfold vhost_user_sock. rewrite Hearly. eexists _, _. split; [done|by right]. }
  rewrite vhost_user_sock_run by done.
  destruct (tx_script_split (tx_script w)) as (k & tl & Hs & Hhd).
  assert (∃ msg,
    build_request req (ArgState s) (request_header req (stack w)) w =
      Some (Built msg [] false, w) ∧
    msg_size msg = sizeof_vring_state ∧ is_set_mem_table req = false)
    as (msg & -> & Hsz & Hmem).
  { destruct Hreq as [->|[->| ->]]; simpl; eexists; (split; [reflexivity|]);
      mem_simpl; done. }
  rewrite (exchange_no_reply _ _ _ _ _ _ k tl Hs Hhd); [|by rewrite Hsz|done].
  eexists _, _. split; [done|]. destruct (tx_return _ _ <? 0); auto.
Qed.

(** Claim C8.  [vhost_user_enable_queue_pair] dispatches
    set-vring-enable for ring [2 * pair_idx] with the value of
    [enable]; if that fails it returns -1 in the world the first
    dispatch left, nothing else done; otherwise it dispatches
    set-vring-enable for ring [2 * pair_idx + 1] with the same value
    and returns 0 or -1 as the second dispatch succeeds or fails. *)
Theorem enable_queue_pair_dispatches dev pair_idx enable w :
  0 ≤ pair_idx < 2 ^ 16 →
  ∃ r1 w1,
    vhost_user_sock dev VHOST_USER_SET_VRING_ENABLE (ring_state pair_idx 0 enable) w =
      Some ((r1, ring_state pair_idx 0 enable), w1) ∧
    if r1 =? 0 then
      ∃ r2 w2,
        vhost_user_sock dev VHOST_USER_SET_VRING_ENABLE (ring_state pair_idx 1 enable) w1 =
          Some ((r2, ring_state pair_idx 1 enable), w2) ∧
        vhost_user_enable_queue_pair dev pair_idx enable w =
          Some (if r2 =? 0 then 0 else -1, w2)
    else vhost_user_enable_queue_pair dev pair_idx enable w = Some (-1, w1).
Proof.
  intros Hp. unfold vhost_user_enable_queue_pair, enable_loop, bindM.
  rewrite (to_u32_small (pair_idx * 2 + 0)),
    (to_u32_small (pair_idx * 2 + (0 + 1))) by lia.
  replace (pair_idx * 2 + 0) with (2 * pair_idx + 0) by lia.
  replace (pair_idx * 2 + (0 + 1)) with (2 * pair_idx + 1) by lia.
  fold (ring_state pair_idx 0 enable) (ring_state pair_idx 1 enable).
  destruct (vhost_user_sock_state_total dev VHOST_USER_SET_VRING_ENABLE
              {| state_index := 2 * pair_idx + 0; state_num := to_u32 enable |} w)
    as (r1 & w1 & Hrun1 & Hr1); [auto|].
  fold (ring_state pair_idx 0 enable) in Hrun1. rewrite Hrun1.
  exists r1, w1. split; [done|].
  destruct Hr1 as [-> | ->]; [|reflexivity]. cbn [Z.eqb negb].
  destruct (vhost_user_sock_state_total dev VHOST_USER_SET_VRING_ENABLE
              {| state_index := 2 * pair_idx + 1; state_num := to_u32 enable |} w1)
    as (r2 & w2 & Hrun2 & Hr2); [auto|].
  fold (ring_state pair_idx 1 enable) in Hrun2. rewrite Hrun2.
  exists r2, w2. split; [done|]. destruct Hr2 as [-> | ->]; reflexivity.
Qed.

(** ** Connection setup *)

Lemma fresh_nonneg (X : gset Z) : 0 ≤ fresh X.
Proof.
  change (0 ≤ foldr (Z.max ∘ Z.succ) 0 (elements X)).
  induction (elements X) as [|x l IH]; simpl; lia.
Qed.

Lemma sys_socket_run h :
  sys_socket h =
  if socket_ok (env h)
  then Some (fresh (fd_table (files h)),
             opened (fresh (fd_table (files h))) (Socket 0 O_RDWR None None None)
               [CallSocket (fresh (fd_table (files h)))] h)
  else Some (-1, log_call (CallSocket (-1)) h).
Proof. done. Qed.

Lemma on_socket_opened fd r upd call s cs h :
  on_socket fd r upd call (opened fd s cs h) =
  Some (r s, opened fd (upd s) (cs ++ [call (r s)]) h).
Proof.
  unfold on_socket, opened. cbn [sockets]. rewrite lookup_insert_eq.
  unfold log_call, set_sockets. cbn. by rewrite insert_insert_eq, <- app_assoc.
Qed.

Lemma sys_bind_opened fd un s cs h :
  sys_bind fd un (opened fd s cs h) =
  if bindable (env h) un
  then Some (0, opened fd (Socket (fd_flags s) (status_flags s) (Some un)
                             (listen_backlog s) (connected_to s))
                  (cs ++ [CallBind fd un 0]) h)
  else Some (-1, opened fd s (cs ++ [CallBind fd un (-1)]) h).
Proof.
  unfold sys_bind. cbn [env opened]. destruct (bindable (env h) un).
  - by rewrite on_socket_opened.
  - unfold opened, log_call. cbn. by rewrite <- app_assoc.
Qed.

Lemma sys_listen_opened fd backlog s cs h :
  sys_listen fd backlog (opened fd s cs h) =
  if listen_ok (env h)
  then Some (0, opened fd (Socket (fd_flags s) (status_flags s) (bound_to s)
                             (Some backlog) (connected_to s))
                  (cs ++ [CallListen fd backlog 0]) h)
  else Some (-1, opened fd s (cs ++ [CallListen fd backlog (-1)]) h).
Proof.
  unfold sys_listen. cbn [env opened]. destruct (listen_ok (env h)).
  - by rewrite on_socket_opened.
  - unfold opened, log_call. cbn. by rewrite <- app_assoc.
Qed.

Lemma sys_connect_opened fd un s cs h :
  sys_connect fd un (opened fd s cs h) =
  if connectable (env h) un
  then Some (0, opened fd (Socket (fd_flags s) (status_flags s) (bound_to s)
                             (listen_backlog s) (Some un))
                  (cs ++ [CallConnect fd un 0]) h)
  else Some (-1, opened fd s (cs ++ [CallConnect fd un (-1)]) h).
Proof.
  unfold sys_connect. cbn [env opened]. destruct (connectable (env h) un).
  - by rewrite on_socket_opened.
  - unfold opened, log_call. cbn. by rewrite <- app_assoc.
Qed.

Lemma host_close_opened fd s cs h :
  host_close fd (opened fd s cs h) = Some (tt, released fd cs h).
Proof.
  unfold host_close, bindN, liftN, sys_close, opened, released, set_files, set_sockets.
  cbn. by rewrite delete_insert_eq.
Qed.

Ltac setup_step :=
  cbv beta iota;
  cbn [fd_flags status_flags bound_to listen_backlog connected_to id].

Lemma vhost_user_setup_run dev h :
  let fd := fresh (fd_table (files h)) in
  let un := sun_path_of dev in
  vhost_user_setup dev h =
  if socket_ok (env h) then
    if is_server dev then
      if bindable (env h) un then
        if listen_ok (env h) then
          Some ((0, set_vhostfd (-1) (set_listenfd fd dev)),
                opened fd
                  (Socket (Z.lor 0 FD_CLOEXEC) (Z.lor O_RDWR O_NONBLOCK) (Some un)
                     (Some MAX_VIRTIO_USER_BACKLOG) None)
                  (socket_calls fd ++
                   [CallBind fd un 0; CallListen fd MAX_VIRTIO_USER_BACKLOG 0;
                    CallGetfl fd O_RDWR; CallSetfl fd (Z.lor O_RDWR O_NONBLOCK) 0]) h)
        else Some ((-1, set_listenfd fd dev),
                   released fd
                     (socket_calls fd ++
                      [CallBind fd un 0; CallListen fd MAX_VIRTIO_USER_BACKLOG (-1)]) h)
      else Some ((-1, set_listenfd fd dev),
                 released fd (socket_calls fd ++ [CallBind fd un (-1)]) h)
    else
      if connectable (env h) un then
        Some ((0, set_vhostfd fd dev),
              opened fd (Socket (Z.lor 0 FD_CLOEXEC) O_RDWR None None (Some un))
                (socket_calls fd ++ [CallConnect fd un 0]) h)
      else Some ((-1, dev), released fd (socket_calls fd ++ [CallConnect fd un (-1)]) h)
  else Some ((-1, dev), log_call (CallSocket (-1)) h).
Proof.
  intros fd un. unfold vhost_user_setup, bindN at 1. rewrite sys_socket_run.
  destruct (socket_ok (env h)); [|done]. fold fd.
  assert ((fd <? 0) = false) as -> by apply Z.ltb_ge, fresh_nonneg.
  unfold bindN at 1, sys_fcntl_getfd. rewrite on_socket_opened.
  unfold bindN at 1, sys_fcntl_setfd. rewrite on_socket_opened.
  cbn [fd_flags status_flags bound_to listen_backlog connected_to id app].
  fold (sun_path_of dev). fold un. destruct (is_server dev).
  - unfold virtio_user_start_server, bindN. cbn [listenfd set_listenfd].
    rewrite sys_bind_opened. destruct (bindable (env h) un).
    + change (0 <? 0) with false. setup_step.
      rewrite sys_listen_opened. destruct (listen_ok (env h)).
      * change (0 <? 0) with false. setup_step.
        unfold sys_fcntl_getfl, sys_fcntl_setfl. rewrite !on_socket_opened.
        setup_step. by rewrite <- !app_assoc.
      * change (-1 <? 0) with true. setup_step. unfold retN.
        change (-1 <? 0) with true. setup_step. rewrite host_close_opened.
        by rewrite <- !app_assoc.
    + change (-1 <? 0) with true. setup_step. unfold retN.
      change (-1 <? 0) with true. setup_step. by rewrite host_close_opened.
  - unfold bindN. rewrite sys_connect_opened. destruct (connectable (env h) un).
    + done.
    + change (-1 <? 0) with true. setup_step. by rewrite host_close_opened.
Qed.

Lemma released_fd_table h cs :
  fd_table (files (released (fresh (fd_table (files h))) cs h)) = fd_table (files h).
Proof.
  unfold released. cbn. pose proof (is_fresh (fd_table (files h))) as Hfresh.
  apply set_eq. intros x. rewrite elem_of_difference, elem_of_union, !elem_of_singleton.
  split; [intros [[->|?] ?]; done|]. intros Hx. split; [by right|]. by intros ->.
Qed.

Lemma released_new_events h fd cs :
  new_events (files h) (files (released fd cs h)) = [EvClose fd].
Proof. unfold new_events, released. cbn. by rewrite drop_app_length. Qed.

(** A setup that fails leaves no descriptor behind: the descriptor
    table is the one before the call, and the socket, when the call
    got one, was closed.  A client device is as before; a server
    device keeps the number of the closed socket in [listenfd]. *)
Theorem setup_failure_releases_socket dev h dev' h' :
  vhost_user_setup dev h = Some ((-1, dev'), h') →
  fd_table (files h') = fd_table (files h) ∧
  vhostfd dev' = vhostfd dev ∧
  if socket_ok (env h)
  then closed_fds (new_events (files h) (files h')) = [fresh (fd_table (files h))] ∧
       sockets h' !! fresh (fd_table (files h)) = None ∧
       if is_server dev
       then dev' = set_listenfd (fresh (fd_table (files h))) dev ∧
            listenfd dev' ∉ fd_table (files h')
       else dev' = dev
  else h' = log_call (CallSocket (-1)) h ∧ dev' = dev.
Proof.
  rewrite vhost_user_setup_run. cbv zeta.
  pose proof (is_fresh (fd_table (files h))) as Hfresh.
  destruct (socket_ok (env h)); [|by intros [= <- <-]].
  destruct (is_server dev).
  - destruct (bindable _ _); [destruct (listen_ok _); [done|]|];
      intros [= <- <-]; rewrite released_fd_table, released_new_events;
      (split; [done|]); (split; [done|]); (split; [done|]);
      (split; [apply lookup_delete_eq|]); (split; [done|]); apply Hfresh.
  - destruct (connectable _ _); [done|].
    intros [= <- <-]; rewrite released_fd_table, released_new_events.
    repeat split. apply lookup_delete_eq.
Qed.

(** A client setup that succeeds: [vhostfd] is a new descriptor, not
    negative, that was not open before; it is a socket connected to
    the address of the device's path, with the close-on-exec flag;
    [listenfd] is untouched. *)
Theorem setup_client_connects dev h dev' h' :
  is_server dev = false →
  vhost_user_setup dev h = Some ((0, dev'), h') →
  0 ≤ vhostfd dev' ∧ (vhostfd dev' ∉ fd_table (files h)) ∧
  fd_table (files h') = ({[vhostfd dev']} ∪ fd_table (files h)) ∧
  listenfd dev' = listenfd dev ∧
  trace (files h') = trace (files h) ∧
  ∃ s, sockets h' !! vhostfd dev' = Some s ∧
       connected_to s = Some (sun_path_of dev) ∧
       listen_backlog s = None ∧
       Z.land (fd_flags s) FD_CLOEXEC = FD_CLOEXEC.
Proof.
  intros Hcl. rewrite vhost_user_setup_run. cbv zeta. rewrite Hcl.
  pose proof (is_fresh (fd_table (files h))) as Hfresh.
  pose proof (fresh_nonneg (fd_table (files h))) as Hpos.
  destruct (socket_ok (env h)); [|done].
  destruct (connectable _ _); [|done]. intros [= <- <-]. cbn.
  repeat split; try done.
  eexists. rewrite lookup_insert_eq. by repeat split.
Qed.

(** A server setup that succeeds: [vhostfd] is -1; [listenfd] is a
    new descriptor, a socket bound to the address of the device's
    path, listening with a backlog of 1, not blocking, with the
    close-on-exec flag, and connected to nobody. *)
Theorem setup_server_listens dev h dev' h' :
  is_server dev = true →
  vhost_user_setup dev h = Some ((0, dev'), h') →
  vhostfd dev' = -1 ∧
  0 ≤ listenfd dev' ∧ (listenfd dev' ∉ fd_table (files h)) ∧
  fd_table (files h') = ({[listenfd dev']} ∪ fd_table (files h)) ∧
  trace (files h') = trace (files h) ∧
  ∃ s, sockets h' !! listenfd dev' = Some s ∧
       bound_to s = Some (sun_path_of dev) ∧
       listen_backlog s = Some 1 ∧
       connected_to s = None ∧
       Z.land (status_flags s) O_NONBLOCK = O_NONBLOCK ∧
       Z.land (fd_flags s) FD_CLOEXEC = FD_CLOEXEC.
Proof.
  intros Hsrv. rewrite vhost_user_setup_run. cbv zeta. rewrite Hsrv.
  pose proof (is_fresh (fd_table (files h))) as Hfresh.
  pose proof (fresh_nonneg (fd_table (files h))) as Hpos.
  destruct (socket_ok (env h)); [|done].
  destruct (bindable _ _); [|done]. destruct (listen_ok _); [|done].
  intros [= <- <-]. cbn.
  repeat split; try done.
  eexists. rewrite lookup_insert_eq. by repeat split.
Qed.

Lemma snprintf_length n s : (String.length (snprintf n s) ≤ n - 1)%nat.
Proof.
  unfold snprintf. generalize (n - 1)%nat. clear n. intros n. revert s.
  induction n as [|n IH]; intros [|a s]; simpl; try lia.
  specialize (IH s). lia.
Qed.

Lemma snprintf_short n s : (String.length s < n)%nat → snprintf n s = s.
Proof. intros. unfold snprintf. apply substring_all. lia. Qed.

Lemma new_calls_app h h' cs : calls h' = calls h ++ cs → new_calls h h' = cs.
Proof. intros H. unfold new_calls. by rewrite H, drop_app_length. Qed.

(** The address of every [bind] and [connect] of a setup is the
    device's path cut to the 107 bytes that fit in [sun_path] with
    the terminator: the path itself when it is shorter than 108
    bytes, and otherwise a different, shorter string, with no error
    reported. *)
Theorem setup_address_truncated dev h r dev' h' un :
  vhost_user_setup dev h = Some ((r, dev'), h') →
  un ∈ addresses (new_calls h h') →
  un = substring 0 107 (path dev) ∧
  (String.length un ≤ 107)%nat ∧
  (un = path dev ↔ (String.length (path dev) < 108)%nat).
Proof.
  intros Hrun Hin.
  assert (un = sun_path_of dev) as ->.
  { revert Hrun Hin. rewrite vhost_user_setup_run. cbv zeta.
    destruct (socket_ok (env h)).
    2:{ intros [= <- <- <-]. rewrite (new_calls_app h _ [CallSocket (-1)]) by done.
        cbn. by intros ?%elem_of_nil. }
    destruct (is_server dev);
      [destruct (bindable _ _); [destruct (listen_ok _)|]|destruct (connectable _ _)];
      intros [= <- <- <-];
      (erewrite new_calls_app; [|unfold opened, released; cbn [calls]; reflexivity]);
      cbn; rewrite ?elem_of_cons; intros [->|Hin]; try done;
      by apply elem_of_nil in Hin. }
  split; [done|]. split; [apply (snprintf_length sizeof_sun_path)|].
  split.
  - intros Heq. pose proof (snprintf_length sizeof_sun_path (path dev)) as Hlen.
    unfold sun_path_of in Heq. rewrite Heq in Hlen. unfold sizeof_sun_path in Hlen. lia.
  - intros Hlt. apply snprintf_short. unfold sizeof_sun_path. lia.
Qed.

(** ** Messages of the dispatcher on the wire *)

(** A [sendmsg] of a dispatch sends the message the [switch] built,
    on the device's descriptor. *)
Lemma vhost_user_sock_sends dev req arg w res w' fd buf fds :
  vhost_user_sock dev req arg w = Some (res, w') →
  EvSendmsg fd buf fds ∈ new_events w w' →
  is_server dev && (vhostfd dev <? 0) = false ∧
  fd = vhostfd dev ∧
  ∃ msg need_reply w1,
    build_request req arg (request_header req (stack w)) w =
      Some (Built msg fds need_reply, w1) ∧
    0 ≤ msg_size msg ≤ sizeof_payload ∧
    msg_flags msg = VHOST_USER_VERSION ∧
    buf = load 0 (message_len msg) msg.
Proof.
  intros Hrun Hin.
  destruct (is_server dev && (vhostfd dev <? 0)) eqn:Hearly.
  { unfold vhost_user_sock in Hrun. rewrite Hearly in Hrun. injection Hrun as <- <-.
    unfold new_events in Hin. rewrite drop_all in Hin. by apply elem_of_nil in Hin. }
  rewrite vhost_user_sock_run in Hrun by done.
  destruct (build_request _ _ _ _) as [[b w1]|] eqn:Hb; [|done].
  pose proof Hb as Hb'.
  apply build_request_inv in Hb' as [[Htx (evs1 & Htr1 & Hq1)] Hb'];
    [|apply request_header_size].
  destruct b as [msg fds' need_reply|r'].
  2:{ injection Hrun as <- <-. rewrite (new_events_app _ _ _ Htr1) in Hin.
      by apply quiet_not_send in Hin. }
  destruct Hb' as (Hspec & Hsz & Hreq & Hfl & _ & Hfds).
  destruct (tx_script_split (tx_script w1)) as (k & tl & Hs & Hhd).
  destruct (exchange_inv _ _ _ _ _ _ _ _ _ _ _ Hrun Hs Hhd Hsz) as (evs & Htr & Hq & _).
  rewrite Htr1, <- app_assoc in Htr. rewrite (new_events_app _ _ _ Htr) in Hin.
  rewrite !elem_of_app in Hin. destruct Hin as [Hin|[Hin|Hin]];
    [by apply quiet_not_send in Hin| |by apply quiet_not_send in Hin].
  apply elem_of_replicate_inv in Hin. injection Hin as -> -> ->.
  split; [done|]. split; [done|]. exists msg, need_reply, w1.
  repeat split; try done; try lia.
Qed.

Lemma wire_flags_load msg : wire_flags (load 0 (message_len msg) msg) = msg_flags msg.
Proof.
  unfold wire_flags, off_flags, message_len, VHOST_USER_HDR_SIZE.
  pose proof (get_u32_range 8 msg). unfold msg_size, off_size.
  rewrite wire_u32_load by lia. done.
Qed.

(** Every message of a dispatch goes to the device's descriptor and
    carries the protocol version, and nothing else, in its flags: no
    request has the reply bit. *)
Theorem dispatch_flags_and_descriptor dev req arg w res w' fd buf fds :
  vhost_user_sock dev req arg w = Some (res, w') →
  EvSendmsg fd buf fds ∈ new_events w w' →
  fd = vhostfd dev ∧
  wire_flags buf = VHOST_USER_VERSION ∧
  Z.land (wire_flags buf) VHOST_USER_REPLY_MASK = 0.
Proof.
  intros Hrun Hin.
  destruct (vhost_user_sock_sends _ _ _ _ _ _ _ _ _ Hrun Hin)
    as (_ & -> & msg & need & w1 & _ & _ & Hfl & ->).
  rewrite wire_flags_load, Hfl. done.
Qed.

Ltac wire_simpl :=
  unfold wire_request, wire_size, wire_flags, wire_payload_u64, wire_payload_state,
    wire_payload_addr, wire_nregions, wire_padding,
    off_request, off_flags, off_size, off_payload;
  rewrite ?wire_u32_load, ?wire_u64_load by (simpl; lia).

(** set-features and set-log-base: the message is 20 bytes, its
    payload is the scalar behind the argument, and it comes with no
    descriptor. *)
Theorem scalar_request_wire dev req v w res w' fd buf fds :
  req = VHOST_USER_SET_FEATURES ∨ req = VHOST_USER_SET_LOG_BASE →
  0 ≤ v < 2 ^ 64 →
  vhost_user_sock dev req (ArgU64 v) w = Some (res, w') →
  EvSendmsg fd buf fds ∈ new_events w w' →
  wire_payload_u64 buf = v ∧ length buf = 20%nat ∧ fds = [].
Proof.
  intros Hreq Hv Hrun Hin.
  destruct (vhost_user_sock_sends _ _ _ _ _ _ _ _ _ Hrun Hin)
    as (_ & -> & msg & need & w1 & Hb & _ & _ & ->).
  assert (msg = set_msg_size sizeof_u64 (set_payload_u64 v (request_header req (stack w)))
          ∧ fds = []) as [-> ->].
  { destruct Hreq as [-> | ->]; simpl in Hb; unfold retM in Hb; by injection Hb as <- <- _ _. }
  assert (message_len (set_msg_size sizeof_u64
            (set_payload_u64 v (request_header req (stack w)))) = 20%nat) as ->.
  { unfold message_len. by mem_simpl. }
  rewrite length_load. wire_simpl. mem_simpl. by rewrite to_u64_small.
Qed.

(** The requests that carry a vring state (set-vring-num,
    set-vring-base, set-vring-enable and get-vring-base): the message
    is 20 bytes, its payload is the state behind the argument, index
    first, and it comes with no descriptor. *)
Theorem state_request_wire dev req s w res w' fd buf fds :
  req = VHOST_USER_SET_VRING_NUM ∨ req = VHOST_USER_SET_VRING_BASE ∨
  req = VHOST_USER_SET_VRING_ENABLE ∨ req = VHOST_USER_GET_VRING_BASE →
  state_ok s →
  vhost_user_sock dev req (ArgState s) w = Some (res, w') →
  EvSendmsg fd buf fds ∈ new_events w w' →
  wire_payload_state buf = s ∧ length buf = 20%nat ∧ fds = [].
Proof.
  intros Hreq [Hi Hn] Hrun Hin.
  destruct (vhost_user_sock_sends _ _ _ _ _ _ _ _ _ Hrun Hin)
    as (_ & -> & msg & need & w1 & Hb & _ & _ & ->).
  assert (msg = set_msg_size sizeof_vring_state
                  (set_payload_state s (request_header req (stack w)))
          ∧ fds = []) as [-> ->].
  { destruct Hreq as [-> |[-> |[-> | ->]]]; simpl in Hb; unfold retM in Hb;
      by injection Hb as <- <- _ _. }
  assert (message_len (set_msg_size sizeof_vring_state
            (set_payload_state s (request_header req (stack w)))) = 20%nat) as ->.
  { unfold message_len. by mem_simpl. }
  rewrite length_load. wire_simpl. mem_simpl. rewrite !to_u32_small by done.
  by destruct s.
Qed.

(** set-vring-addr: the message is 52 bytes, its payload is the vring
    address behind the argument, field by field, and it comes with no
    descriptor. *)
Theorem vring_addr_request_wire dev a w res w' fd buf fds :
  addr_ok a →
  vhost_user_sock dev VHOST_USER_SET_VRING_ADDR (ArgAddr a) w = Some (res, w') →
  EvSendmsg fd buf fds ∈ new_events w w' →
  wire_payload_addr buf = a ∧ length buf = 52%nat ∧ fds = [].
Proof.
  intros (H1 & H2 & H3 & H4 & H5 & H6) Hrun Hin.
  destruct (vhost_user_sock_sends _ _ _ _ _ _ _ _ _ Hrun Hin)
    as (_ & -> & msg & need & w1 & Hb & _ & _ & ->).
  simpl in Hb. unfold retM in Hb. injection Hb as <- <- _ _.
  match goal with |- context [message_len ?m] =>
    assert (message_len m = 52%nat) as -> by (unfold message_len; by mem_simpl) end.
  rewrite length_load. wire_simpl. mem_simpl.
  rewrite !to_u32_small, !to_u64_small by done. by destruct a.
Qed.

(** Which requests pass descriptors: set-log-fd passes the descriptor
    behind its argument, whatever its value; apart from it, the vring
    file requests and set-mem-table, a message comes with none. *)
Theorem request_descriptors dev req arg w res w' fd buf fds :
  req ≠ VHOST_USER_SET_MEM_TABLE → req ≠ VHOST_USER_SET_VRING_KICK →
  req ≠ VHOST_USER_SET_VRING_CALL → req ≠ VHOST_USER_SET_VRING_ERR →
  vhost_user_sock dev req arg w = Some (res, w') →
  EvSendmsg fd buf fds ∈ new_events w w' →
  fds = match req, arg with
        | VHOST_USER_SET_LOG_FD, ArgInt log_fd => [log_fd]
        | _, _ => []
        end.
Proof.
  intros Hm Hk Hc He Hrun Hin.
  destruct (vhost_user_sock_sends _ _ _ _ _ _ _ _ _ Hrun Hin)
    as (_ & -> & msg & need & w1 & Hb & _ & _ & ->).
  destruct req; try done; simpl in Hb; unfold retM, undefined in Hb;
    try (by injection Hb as _ <- _ _);
    destruct arg; try done; by injection Hb as _ <- _ _.
Qed.

(** ** Setup, then requests *)

(** The operations of the backend, in the order the driver calls
    them.  After the setup of a server nothing can be asked of the
    peer: until another part of the driver accepts a connection and
    sets [vhostfd], every request and every queue-pair call returns
    -1 without a system call. *)
Theorem server_setup_blocks_requests dev h dev' h' :
  is_server dev = true →
  setup ops_user dev h = Some ((0, dev'), h') →
  (∀ req arg w, send_request ops_user dev' req arg w = Some ((-1, arg), w)) ∧
  (∀ pair_idx enable w, enable_qp ops_user dev' pair_idx enable w = Some (-1, w)).
Proof.
  intros Hsrv. cbn [setup send_request enable_qp ops_user].
  rewrite vhost_user_setup_run. cbv zeta. rewrite Hsrv.
  destruct (socket_ok (env h)); [|done].
  destruct (bindable _ _); [|done]. destruct (listen_ok _); [|done].
  intros [= <- <-].
  assert (∀ req arg w,
    vhost_user_sock (set_vhostfd (-1) (set_listenfd (fresh (fd_table (files h))) dev))
      req arg w = Some ((-1, arg), w)) as Hsock.
  { intros req arg w. unfold vhost_user_sock. cbn [is_server vhostfd set_vhostfd set_listenfd].
    by rewrite Hsrv. }
  split; [done|]. intros pair_idx enable w.
  unfold vhost_user_enable_queue_pair, enable_loop, bindM. by rewrite Hsock.
Qed.

(** After the setup of a client every message of a request goes to
    the socket the setup connected: a descriptor that is open, and a
    socket connected to the address of the device's path. *)
Theorem client_setup_then_requests dev h dev' h' req arg res w' fd buf fds :
  is_server dev = false →
  setup ops_user dev h = Some ((0, dev'), h') →
  send_request ops_user dev' req arg (files h') = Some (res, w') →
  EvSendmsg fd buf fds ∈ new_events (files h') w' →
  fd ∈ fd_table (files h') ∧
  ∃ s, sockets h' !! fd = Some s ∧ connected_to s = Some (sun_path_of dev).
Proof.
  cbn [setup send_request ops_user]. intros Hcl Hsetup Hrun Hin.
  destruct (vhost_user_sock_sends _ _ _ _ _ _ _ _ _ Hrun Hin) as (_ & -> & _).
  revert Hsetup. rewrite vhost_user_setup_run. cbv zeta. rewrite Hcl.
  destruct (socket_ok (env h)); [|done].
  destruct (connectable _ _); [|done]. intros [= <- <-]. cbn.
  split; [set_solver|]. eexists. by rewrite lookup_insert_eq.
Qed.

(** ** Reading a message *)

Lemma load_app off a b m : load off (a + b) m = load off a m ++ load (off + a) b m.
Proof. unfold load. by rewrite seq_app, fmap_app. Qed.

Lemma store_above off bs m i : (off + length bs ≤ i)%nat → store off bs m i = m i.
Proof. intros H. unfold store. destruct (decide _); [lia|done]. Qed.

(** [vhost_user_read] after a whole header with the flags of a reply
    and a size that fits. *)
Lemma vhost_user_read_header_ok fd msg w data rest :
  rx_script w = RxData data :: rest →
  (12 ≤ length data)%nat →
  wire_flags data = valid_flags →
  wire_size data ≤ sizeof_payload →
  vhost_user_read fd msg w =
    let w1 := set_rx_script (rx_left 12 (rx_script w)) (log (EvRecv fd 0 12) w) in
    let msg1 := store 0 (take 12 data) msg in
    if wire_size data =? 0 then Some ((0, msg1), w1)
    else
      match sys_recv fd msg1 12 (Z.to_nat (wire_size data)) w1 with
      | Some ((ret, msg2), w2) =>
          Some ((if ret <? wire_size data then -1 else 0, msg2), w2)
      | None => None
      end.
Proof.
  intros Hrx Hlen Hfl Hsz. unfold vhost_user_read, bindM.
  change (Z.to_nat VHOST_USER_HDR_SIZE) with 12%nat.
  rewrite (sys_recv_data _ _ _ _ _ _ _ Hrx).
  rewrite length_take, Nat.min_l by done.
  change (Z.of_nat 12 <? VHOST_USER_HDR_SIZE) with false. cbv iota.
  unfold msg_flags, msg_size, off_flags, off_size.
  rewrite !hdr_field_received by (done || lia).
  change (wire_u32 4 data) with (wire_flags data).
  change (wire_u32 8 data) with (wire_size data). fold valid_flags.
  pose proof (wire_u32_range off_size data) as Hr. fold (wire_size data) in Hr.
  rewrite Hfl, Z.eqb_refl. cbn [negb].
  assert (to_int (wire_size data) = wire_size data) as Hint.
  { apply to_int_small.
    unfold sizeof_payload, VHOST_MEMORY_MAX_NREGIONS, sizeof_memory_region in Hsz. lia. }
  rewrite Hint.
  assert ((sizeof_payload <? to_size_t (wire_size data)) = false) as ->.
  { apply Z.ltb_ge. unfold to_size_t. rewrite Z.mod_small; [done|].
    unfold sizeof_payload, VHOST_MEMORY_MAX_NREGIONS, sizeof_memory_region in Hsz. lia. }
  cbv zeta. destruct (wire_size data =? 0); cbn [negb]; [done|].
  destruct (sys_recv _ _ _ _ _) as [[[ret msg2] w2]|]; [|done].
  by destruct (ret <? wire_size data).
Qed.

(** When the first [recv] finds less than a header (the peer is gone,
    the call fails, or fewer than 12 bytes have arrived yet),
    [vhost_user_read] returns -1 after this one [recv]; the bytes it
    took are gone from the socket. *)
Theorem vhost_user_read_short_header fd msg w :
  (pending (rx_script w) < 12)%nat →
  ∃ msg',
    vhost_user_read fd msg w =
      Some ((-1, msg'), set_rx_script (rx_left 12 (rx_script w)) (log (EvRecv fd 0 12) w)) ∧
    ∀ i, (pending (rx_script w) ≤ i)%nat → msg' i = msg i.
Proof.
  intros Hshort. unfold vhost_user_read, bindM.
  change (Z.to_nat VHOST_USER_HDR_SIZE) with 12%nat.
  destruct w as [pm st op ft tx rx sk tr]. cbn [rx_script] in *.
  destruct rx as [|[e|data] rest].
  - unfold sys_recv. simpl. eexists. split; [reflexivity|done].
  - unfold sys_recv. simpl. eexists. split; [reflexivity|done].
  - erewrite sys_recv_data by reflexivity. simpl in Hshort.
    rewrite length_take, Nat.min_r by lia.
    assert ((Z.of_nat (length data) <? VHOST_USER_HDR_SIZE) = true) as ->.
    { apply Z.ltb_lt. unfold VHOST_USER_HDR_SIZE. lia. }
    eexists. split; [reflexivity|].
    intros i Hi. simpl in Hi. apply store_above. rewrite length_take. lia.
Qed.

(** When the header announces a payload and the second [recv] finds
    fewer bytes than announced, [vhost_user_read] returns -1: it does
    not wait for the rest, and the bytes it took are gone from the
    socket. *)
Theorem vhost_user_read_short_payload fd msg w data rest :
  rx_script w = RxData data :: rest →
  (12 ≤ length data)%nat →
  wire_flags data = valid_flags →
  wire_size data ≤ sizeof_payload →
  (pending (rx_left 12 (rx_script w)) < Z.to_nat (wire_size data))%nat →
  ∃ msg' w',
    vhost_user_read fd msg w = Some ((-1, msg'), w') ∧
    trace w' = trace w ++ [EvRecv fd 0 12; EvRecv fd 12 (Z.to_nat (wire_size data))] ∧
    rx_script w' = rx_left (Z.to_nat (wire_size data)) (rx_left 12 (rx_script w)).
Proof.
  intros Hrx Hlen Hfl Hsz Hshort.
  rewrite (vhost_user_read_header_ok _ _ _ _ _ Hrx Hlen Hfl Hsz). cbv zeta.
  destruct (wire_size data =? 0) eqn:Hz.
  { apply Z.eqb_eq in Hz. rewrite Hz in Hshort. simpl in Hshort. lia. }
  apply Z.eqb_neq in Hz.
  pose proof (wire_u32_range off_size data) as Hr. fold (wire_size data) in Hr.
  set (w1 := set_rx_script _ _) in *.
  assert (rx_script w1 = rx_left 12 (rx_script w)) as Hrx1 by done.
  assert (trace w1 = trace w ++ [EvRecv fd 0 12]) as Htr1 by done.
  rewrite <- Hrx1 in *. clearbody w1.
  unfold sys_recv. destruct (rx_script w1) as [|[e|d] more] eqn:Hw1;
    cbn [pending] in Hshort; cbv zeta.
  - assert ((0 <? wire_size data) = true) as -> by (apply Z.ltb_lt; lia).
    eexists _, _. split; [reflexivity|]. simpl. by rewrite Htr1, <- app_assoc, Hw1.
  - assert ((-1 <? wire_size data) = true) as -> by (apply Z.ltb_lt; lia).
    eexists _, _. split; [reflexivity|]. simpl. by rewrite Htr1, <- app_assoc.
  - rewrite length_take, Nat.min_r by lia.
    assert ((Z.of_nat (length d) <? wire_size data) = true) as -> by (apply Z.ltb_lt; lia).
    eexists _, _. split; [reflexivity|]. simpl. rewrite Htr1, <- app_assoc.
    split; [done|]. by destruct (drop _ d).
Qed.

(** [vhost_user_read] when a whole message waits in the socket. *)
Lemma vhost_user_read_whole fd msg w data rest :
  rx_script w = RxData data :: rest →
  wire_flags data = valid_flags →
  wire_size data ≤ sizeof_payload →
  (12 + Z.to_nat (wire_size data) ≤ length data)%nat →
  ∃ msg' w',
    vhost_user_read fd msg w = Some ((0, msg'), w') ∧
    load 0 (12 + Z.to_nat (wire_size data)) msg' =
      take (12 + Z.to_nat (wire_size data)) data ∧
    (∀ i, (12 + Z.to_nat (wire_size data) ≤ i)%nat → msg' i = msg i) ∧
    rx_script w' = rx_left (12 + Z.to_nat (wire_size data)) (rx_script w) ∧
    tx_script w' = tx_script w ∧ fd_table w' = fd_table w.
Proof.
  intros Hrx Hfl Hsz Hlen.
  rewrite (vhost_user_read_header_ok _ _ _ _ _ Hrx) by (done || lia). cbv zeta.
  pose proof (wire_u32_range off_size data) as Hr. fold (wire_size data) in Hr.
  set (n := Z.to_nat (wire_size data)) in *.
  assert (load 0 12 (store 0 (take 12 data) msg) = take 12 data) as Hhdr.
  { pose proof (load_store_eq 0 (take 12 data) msg) as H.
    rewrite length_take, Nat.min_l in H by lia. done. }
  destruct (wire_size data =? 0) eqn:Hz.
  - apply Z.eqb_eq in Hz. assert (n = 0%nat) as Hn by lia. rewrite Hn, Nat.add_0_r.
    eexists _, _. split; [reflexivity|]. split; [done|]. split; [|done].
    intros i Hi. apply store_above. rewrite length_take. lia.
  - apply Z.eqb_neq in Hz. assert (0 < n)%nat as Hn by lia.
    set (w1 := set_rx_script _ _).
    assert (rx_script w1 = RxData (drop 12 data) :: rest) as Hrx1.
    { subst w1. simpl. rewrite Hrx. simpl.
      destruct (drop 12 data) eqn:Hd; [|done].
      apply (f_equal length) in Hd. rewrite length_drop in Hd. simpl in Hd. lia. }
    rewrite (sys_recv_data _ _ _ _ _ _ _ Hrx1).
    rewrite length_take, length_drop, Nat.min_l by lia.
    assert ((Z.of_nat n <? wire_size data) = false) as -> by (apply Z.ltb_ge; lia).
    eexists _, _. split; [reflexivity|]. split; [|split; [|split; [|done]]].
    + rewrite load_app. rewrite load_store_ne by (rewrite length_take; lia).
      rewrite Hhdr. simpl.
      pose proof (load_store_eq 12 (take n (drop 12 data))
                    (store 0 (take 12 data) msg)) as H.
      rewrite length_take, length_drop, Nat.min_l in H by lia. rewrite H.
      by rewrite take_take_drop.
    + intros i Hi. rewrite !store_above; [done| |];
        rewrite length_take, ?length_drop; lia.
    + cbn [rx_script set_rx_script log set_trace]. rewrite Hrx1, Hrx.
      cbn [rx_left]. by rewrite drop_drop.
Qed.

Lemma wire_u64_take off n (bs : list byte) :
  (off + 8 ≤ n)%nat → wire_u64 off (take n bs) = wire_u64 off bs.
Proof.
  intros Hn. unfold wire_u64.
  replace n with (off + (n - off))%nat by lia.
  rewrite <- take_drop_commute, take_take. f_equal. f_equal. lia.
Qed.

Lemma get_u32_received off len (data : list byte) msg :
  load 0 len msg = take len data → (off + 4 ≤ len)%nat →
  get_u32 off msg = wire_u32 off data.
Proof.
  intros Hload Hoff. rewrite <- (wire_u32_load off len) by done.
  rewrite Hload. by apply wire_u32_take.
Qed.

Lemma get_u64_received off len (data : list byte) msg :
  load 0 len msg = take len data → (off + 8 ≤ len)%nat →
  get_u64 off msg = wire_u64 off data.
Proof.
  intros Hload Hoff. rewrite <- (wire_u64_load off len) by done.
  rewrite Hload. by apply wire_u64_take.
Qed.

(** A whole reply waiting in the socket is read as it is: the call
    returns 0, the message holds the header and the payload the peer
    wrote, the bytes of the message object past them are untouched,
    and what follows the reply stays in the socket for the next
    read. *)
Theorem vhost_user_read_receives fd msg w data rest :
  rx_script w = RxData data :: rest →
  wire_flags data = valid_flags →
  wire_size data ≤ sizeof_payload →
  (12 + Z.to_nat (wire_size data) ≤ length data)%nat →
  ∃ msg' w',
    vhost_user_read fd msg w = Some ((0, msg'), w') ∧
    msg_request msg' = wire_request data ∧
    msg_flags msg' = valid_flags ∧
    msg_size msg' = wire_size data ∧
    load 12 (Z.to_nat (wire_size data)) msg' =
      take (Z.to_nat (wire_size data)) (wire_payload data) ∧
    (∀ i, (12 + Z.to_nat (wire_size data) ≤ i)%nat → msg' i = msg i) ∧
    rx_script w' = rx_left (12 + Z.to_nat (wire_size data)) (rx_script w).
Proof.
  intros Hrx Hfl Hsz Hlen.
  destruct (vhost_user_read_whole fd msg w data rest Hrx Hfl Hsz Hlen)
    as (msg' & w' & Hrun & Hload & Hframe & Hrx' & _).
  exists msg', w'. split; [done|].
  unfold msg_request, msg_flags, msg_size, off_request, off_flags, off_size.
  rewrite !(get_u32_received _ _ _ _ Hload) by lia.
  repeat split; try done.
  rewrite load_app in Hload. rewrite <- take_take_drop in Hload.
  apply app_inj_1 in Hload as [_ Hload]; [done|].
  rewrite length_load, length_take. lia.
Qed.

(** ** Replies *)

(** [read_reply] when a whole, well-formed reply to the request waits
    in the socket. *)
Lemma read_reply_whole dev req arg msg w data rest :
  rx_script w = RxData data :: rest →
  wire_flags data = valid_flags →
  wire_request data = request_code req →
  (req = VHOST_USER_GET_FEATURES ∧ wire_size data = sizeof_u64 ∧ ∃ v, arg = ArgU64 v) ∨
  (req = VHOST_USER_GET_VRING_BASE ∧ wire_size data = sizeof_vring_state ∧
   ∃ s, arg = ArgState s) →
  (20 ≤ length data)%nat →
  ∃ w',
    read_reply dev req arg msg w =
      Some ((0, match req with
                | VHOST_USER_GET_FEATURES => ArgU64 (wire_payload_u64 data)
                | _ => ArgState (wire_payload_state data)
                end), w') ∧
    rx_script w' = rx_left 20 (rx_script w) ∧
    tx_script w' = tx_script w ∧ fd_table w' = fd_table w.
Proof.
  intros Hrx Hfl Hreq Hcase Hlen.
  assert (wire_size data = 8) as Hsz by (by destruct Hcase as [(_ & ? & _)|(_ & ? & _)]).
  destruct (vhost_user_read_whole (vhostfd dev) msg w data rest Hrx Hfl)
    as (msg' & w' & Hrun & Hload & _ & Hrx' & Htx & Hfd).
  { rewrite Hsz. done. }
  { rewrite Hsz. simpl. lia. }
  rewrite Hsz in *. change (12 + Z.to_nat 8)%nat with 20%nat in *.
  unfold read_reply, bindM. rewrite Hrun. change (0 <? 0) with false. cbv iota.
  unfold msg_request, msg_size, off_request, off_size.
  rewrite !(get_u32_received _ _ _ _ Hload) by lia.
  change (wire_u32 0 data) with (wire_request data).
  change (wire_u32 8 data) with (wire_size data).
  rewrite Hreq, Hsz, Z.eqb_refl. cbn [negb].
  exists w'. split; [|done].
  destruct Hcase as [(-> & _ & v & ->)|(-> & _ & s & ->)]; cbn.
  - unfold retM, payload_u64, wire_payload_u64, off_payload.
    by rewrite (get_u64_received _ _ _ _ Hload) by lia.
  - unfold retM, payload_state, wire_payload_state, off_payload.
    by rewrite !(get_u32_received _ _ _ _ Hload) by (simpl; lia).
Qed.

(** get-features and get-vring-base, when the message is sent and a
    whole reply to the request, with the flags of a reply and a
    payload of 8 bytes, waits in the socket: the call returns 0 and
    the object behind the argument holds the payload of the reply,
    the scalar or the vring state; the 20 bytes of the reply are
    taken from the socket and what follows them is left. *)
Theorem reply_round_trip dev req arg w k n tl data rest :
  is_server dev && (vhostfd dev <? 0) = false →
  tx_script w = replicate k (TxErr EINTR) ++ TxAccept n :: tl →
  rx_script w = RxData data :: rest →
  wire_request data = request_code req →
  wire_flags data = valid_flags →
  (req = VHOST_USER_GET_FEATURES ∧ wire_size data = sizeof_u64 ∧ ∃ v, arg = ArgU64 v) ∨
  (req = VHOST_USER_GET_VRING_BASE ∧ wire_size data = sizeof_vring_state ∧
   ∃ s, arg = ArgState s) →
  (20 ≤ length data)%nat →
  ∃ w',
    vhost_user_sock dev req arg w =
      Some ((0, match req with
                | VHOST_USER_GET_FEATURES => ArgU64 (wire_payload_u64 data)
                | _ => ArgState (wire_payload_state data)
                end), w') ∧
    rx_script w' = rx_left 20 (rx_script w) ∧
    tx_script w' = tl.
Proof.
  intros Hc Htx Hrx Hreq Hfl Hcase Hlen. rewrite vhost_user_sock_run by done.
  assert (∃ msg,
    build_request req arg (request_header req (stack w)) w = Some (Built msg [] true, w) ∧
    0 ≤ msg_size msg ≤ sizeof_payload ∧ is_set_mem_table req = false)
    as (msg & -> & Hsz & Hmem).
  { destruct Hcase as [(-> & _ & v & ->)|(-> & _ & s & ->)]; cbn [build_request];
      unfold retM; eexists; (split; [reflexivity|]); split; try done; by mem_simpl. }
  rewrite (exchange_write _ _ _ _ _ _ _ k (TxAccept n :: tl) Htx); [|done|done].
  cbv zeta. cbn [head tx_return]. rewrite Hmem.
  match goal with |- context [Z.of_nat ?x <? 0] =>
    assert ((Z.of_nat x <? 0) = false) as -> by (apply Z.ltb_ge; lia) end.
  set (w1 := sent _ _ _ _ _ _).
  destruct (read_reply_whole dev req arg msg w1 data rest)
    as (w' & Hrun & Hrx' & Htx' & _); try done.
  exists w'. by rewrite Hrun, Hrx', Htx'.
Qed.

(** ** The memory table *)

Lemma load_ext off n (m1 m2 : buffer) :
  (∀ x, (off ≤ x < off + n)%nat → m1 x = m2 x) → load off n m1 = load off n m2.
Proof.
  intros H. unfold load. apply list_eq. intros i. rewrite !list_lookup_fmap.
  destruct (seq off n !! i) as [x|] eqn:Hx; [|done]. simpl.
  apply lookup_seq in Hx as [-> Hi]. f_equal. apply H. lia.
Qed.

Lemma get_u32_ext off (m1 m2 : buffer) :
  (∀ x, (off ≤ x < off + 4)%nat → m1 x = m2 x) → get_u32 off m1 = get_u32 off m2.
Proof. intros H. unfold get_u32. by rewrite (load_ext _ _ m1 m2). Qed.

Lemma get_u64_ext off (m1 m2 : buffer) :
  (∀ x, (off ≤ x < off + 8)%nat → m1 x = m2 x) → get_u64 off m1 = get_u64 off m2.
Proof. intros H. unfold get_u64. by rewrite (load_ext _ _ m1 m2). Qed.

Lemma store_outside off bs m i :
  (i < off ∨ off + length bs ≤ i)%nat → store off bs m i = m i.
Proof. intros H. unfold store. destruct (decide _); [lia|done]. Qed.

Lemma set_u32_outside off v m i : (i < off ∨ off + 4 ≤ i)%nat → set_u32 off v m i = m i.
Proof. intros H. unfold set_u32. apply store_outside. rewrite length_le_split. lia. Qed.

Lemma set_u64_outside off v m i : (i < off ∨ off + 8 ≤ i)%nat → set_u64 off v m i = m i.
Proof. intros H. unfold set_u64. apply store_outside. rewrite length_le_split. lia. Qed.

Lemma set_region_outside i mr m x :
  (x < off_region i ∨ off_region (S i) ≤ x)%nat →
  set_payload_memory_region i mr m x = m x.
Proof.
  intros H. unfold set_payload_memory_region, off_region, off_payload in *.
  rewrite !set_u64_outside; [done|lia..].
Qed.

Lemma region_set_region i mr m :
  payload_memory_region i (set_payload_memory_region i mr m) =
  {| guest_phys_addr := to_u64 (guest_phys_addr mr);
     memory_size := to_u64 (memory_size mr);
     userspace_addr := to_u64 (userspace_addr mr);
     mmap_offset := to_u64 (mmap_offset mr) |}.
Proof.
  unfold payload_memory_region, set_payload_memory_region.
  f_equal; repeat first
    [ rewrite get_u64_set_u64 | rewrite get_u64_set_u64_ne by lia ]; done.
Qed.

Lemma region_ext i (m1 m2 : buffer) :
  (∀ x, (off_region i ≤ x < off_region (S i))%nat → m1 x = m2 x) →
  payload_memory_region i m1 = payload_memory_region i m2.
Proof.
  intros H. unfold payload_memory_region.
  f_equal; apply get_u64_ext; intros x Hx; apply H;
    unfold off_region, off_payload in *; lia.
Qed.

Lemma same_peer_refl w : same_peer w w.
Proof. by repeat split. Qed.

Lemma same_peer_trans w1 w2 w3 : same_peer w1 w2 → same_peer w2 w3 → same_peer w1 w3.
Proof. unfold same_peer. intros (?&?&?&?&?&?) (?&?&?&?&?&?). repeat split; congruence. Qed.

(** The loop of [prepare_vhost_memory_user], in full: one [open] for
    each record, in order; the regions written; nothing else of the
    message touched. *)
Lemma open_regions_run huges : ∀ i msg fds w,
  ∃ msg' new w',
    open_regions huges i msg fds w = Some ((msg', fds ++ new), w') ∧
    length new = length huges ∧
    trace w' = trace w ++ zip_with EvOpen (huge_path <$> huges) new ∧
    same_peer w w' ∧
    (∀ j h, huges !! j = Some h →
       payload_memory_region (i + j) msg' =
       payload_memory_region (i + j)
         (set_payload_memory_region (i + j) (region_of h) msg)) ∧
    (∀ x, (x < off_region i ∨ off_region (i + length huges) ≤ x)%nat → msg' x = msg x) ∧
    (∀ j h, huges !! j = Some h →
       ∃ fd, new !! j = Some fd ∧
             if openable w (huge_path h) then 0 ≤ fd ∧ fd ∉ fd_table w else fd = -1).
Proof.
  induction huges as [|h huges IH]; intros i msg fds w.
  - exists msg, [], w. simpl. unfold retM. rewrite !app_nil_r.
    repeat split; try done.
  - cbn [open_regions]. unfold bindM.
    set (msg1 := set_payload_memory_region i _ msg).
    assert (∃ fd w1, sys_open (huge_path h) w = Some (fd, w1) ∧
              trace w1 = trace w ++ [EvOpen (huge_path h) fd] ∧ same_peer w w1 ∧
              fd_table w ⊆ fd_table w1 ∧
              if openable w (huge_path h) then 0 ≤ fd ∧ fd ∉ fd_table w else fd = -1)
      as (fd & w1 & -> & Htr1 & Hp1 & Hsub & Hfd).
    { unfold sys_open. destruct (openable w (huge_path h)) eqn:Hop.
      - eexists _, _. split; [reflexivity|]. repeat split; try done.
        + cbn. set_solver.
        + apply fresh_nonneg.
        + apply is_fresh.
      - eexists _, _. split; [reflexivity|]. by repeat split. }
    destruct (IH (S i) msg1 (fds ++ [fd]) w1)
      as (msg' & new & w' & Hrun & Hlen & Htr & Hp & Hreg & Hframe & Hfds).
    exists msg', (fd :: new), w'. rewrite <- app_assoc in Hrun.
    split; [done|]. split; [simpl; by rewrite Hlen|].
    split; [rewrite Htr, Htr1, <- app_assoc; done|].
    split; [by apply (same_peer_trans _ w1)|].
    split; [|split].
    + intros [|j] h' Hj; simpl in Hj.
      * injection Hj as <-. rewrite Nat.add_0_r.
        apply region_ext. intros x Hx.
        rewrite Hframe by (unfold off_region, off_payload in *; lia).
        done.
      * rewrite <- Nat.add_succ_comm. rewrite (Hreg j h' Hj).
        rewrite !region_set_region. done.
    + intros x Hx. rewrite Hframe.
      * subst msg1. apply set_region_outside.
        unfold off_region, off_payload in *. cbn [length] in Hx. lia.
      * unfold off_region, off_payload in *. cbn [length] in Hx. lia.
    + intros [|j] h' Hj; simpl in Hj.
      * injection Hj as <-. by exists fd.
      * destruct (Hfds j h' Hj) as (fd' & Hl & Hfd'). exists fd'. split; [done|].
        destruct Hp1 as (_ & _ & Hop1 & _). rewrite Hop1 in Hfd'.
        destruct (openable w (huge_path h')); [|done].
        split; [apply Hfd'|]. intros Hin. apply Hfd'. by apply Hsub.
Qed.

Lemma hex_digit_range c d : hex_digit c = Some d → 0 ≤ d < 16.
Proof.
  unfold hex_digit. repeat case_match; intros [= <-];
    repeat match goal with
    | H : (_ && _) = true |- _ => apply andb_true_iff in H as [? ?]
    | H : (_ <=? _)%nat = true |- _ => apply Nat.leb_le in H
    end; lia.
Qed.

Lemma hex_digits_nonneg s : ∀ acc, 0 ≤ acc → 0 ≤ (hex_digits s acc).1.
Proof.
  induction s as [|a s IH]; intros acc Hacc; simpl; [done|].
  destruct (hex_digit a) as [d|] eqn:Hd; [|done].
  apply hex_digit_range in Hd. apply IH. lia.
Qed.

Lemma scan_lx_range s v rest : scan_lx s = Some (v, rest) → 0 ≤ v < 2 ^ 64.
Proof.
  unfold scan_lx. destruct (skip_sign (skip_white s)) as [neg s1].
  match goal with |- context [let '(_, _) := ?x in _] => destruct x as [prefix s2] end.
  destruct (prefix || starts_with_hex s2); [|done].
  pose proof (hex_digits_nonneg s2 0 ltac:(done)) as Hnn.
  destruct (hex_digits s2 0) as [v0 rest0]. simpl in Hnn.
  intros [= <- <-]. destruct (2 ^ 64 <=? v0) eqn:Hbig; [lia|].
  apply Z.leb_gt in Hbig. destruct neg; [|lia].
  unfold to_u64. apply Z.mod_pos_bound. lia.
Qed.

Lemma sscanf_range_range buf v_start v_end :
  sscanf_range buf = Some (v_start, v_end) → 0 ≤ v_start < 2 ^ 64 ∧ 0 ≤ v_end < 2 ^ 64.
Proof.
  unfold sscanf_range. destruct (scan_lx buf) as [[v1 [|a rest]]|] eqn:H1; try done.
  destruct (Ascii.eqb a "-"); [|done].
  destruct (scan_lx rest) as [[v2 rest2]|] eqn:H2; [|done].
  intros [= <- <-]. split; eapply scan_lx_range; eauto.
Qed.

Lemma to_size_t_range z : 0 ≤ to_size_t z < 2 ^ 64.
Proof. unfold to_size_t. apply Z.mod_pos_bound. lia. Qed.

Lemma scan_maps_records_ok lines max : ∀ huges r out,
  Forall record_ok huges →
  scan_maps lines max huges = Some (r, out) → Forall record_ok out.
Proof.
  induction lines as [|buf lines IH]; intros huges r out Hok; simpl.
  - by intros [= _ <-].
  - destruct (sscanf_range buf) as [[v_start v_end]|] eqn:Hr; [|by intros [= _ <-]].
    destruct (path_field buf) as [tmp|]; [|done].
    destruct (negb (match_hugefile tmp)); [by apply IH|].
    destruct (existsb _ huges); [by apply IH|].
    destruct (max <=? _); [by intros [= _ <-]|].
    apply IH. apply Forall_app. split; [done|]. apply Forall_singleton.
    apply sscanf_range_range in Hr as [Hs _]. split; [done|apply to_size_t_range].
Qed.

(** Every record of the discovery holds an address and a size of 64
    bits. *)
Lemma get_hugepage_file_info_records_ok max w n huges w' :
  get_hugepage_file_info max w = Some ((n, huges), w') → Forall record_ok huges.
Proof.
  unfold get_hugepage_file_info. destruct (proc_maps w) as [lines|].
  2:{ intros [= _ <- _]. constructor. }
  destruct (scan_maps lines max []) as [[r hs]|] eqn:Hscan; [|done].
  apply scan_maps_records_ok in Hscan; [|constructor].
  destruct (r <? 0); intros [= _ <- _]; [done|].
  apply Forall_fmap. eapply Forall_impl; [done|]. intros h [Ha Hs].
  unfold compose, correct_size. destruct (stat_size w (huge_path h)); [|by split].
  split; [done|apply to_size_t_range].
Qed.

Lemma region_of_stored i h msg :
  record_ok h →
  payload_memory_region i (set_payload_memory_region i (region_of h) msg) = region_of h.
Proof.
  intros [Ha Hs]. rewrite region_set_region. unfold region_of. cbn.
  by rewrite !to_u64_small by (done || lia).
Qed.

(** [prepare_vhost_memory_user], in full. *)
Lemma prepare_vhost_memory_user_run msg w r msg' fds w' :
  prepare_vhost_memory_user msg w = Some ((r, msg', fds), w') →
  (r = -1 ∧ w' = w ∧ fds = [] ∧
   ∃ hs, get_hugepage_file_info VHOST_MEMORY_MAX_NREGIONS w = Some ((-1, hs), w)) ∨
  (r = 0 ∧ ∃ huges,
     get_hugepage_file_info VHOST_MEMORY_MAX_NREGIONS w =
       Some ((Z.of_nat (length huges), huges), w) ∧
     (length huges ≤ 8)%nat ∧ Forall record_ok huges ∧
     length fds = length huges ∧
     trace w' = trace w ++ zip_with EvOpen (huge_path <$> huges) fds ∧
     same_peer w w' ∧
     payload_memory_nregions msg' = Z.of_nat (length huges) ∧
     get_u32 16 msg' = 0 ∧
     (∀ j h, huges !! j = Some h → payload_memory_region j msg' = region_of h) ∧
     (∀ x, (x < 12 ∨ 20 + 32 * length huges ≤ x)%nat → msg' x = msg x) ∧
     (∀ j h, huges !! j = Some h →
        ∃ fd, fds !! j = Some fd ∧
              if openable w (huge_path h) then 0 ≤ fd ∧ fd ∉ fd_table w else fd = -1)).
Proof.
  unfold prepare_vhost_memory_user, bindM.
  destruct (get_hugepage_file_info _ w) as [[[num huges] w0]|] eqn:Hinfo; [|done].
  pose proof (get_hugepage_file_info_records_ok _ _ _ _ _ Hinfo) as Hok.
  pose proof Hinfo as Hinv. apply get_hugepage_file_info_inv in Hinv as [-> Hnum].
  destruct (num <? 0) eqn:Hneg.
  { intros [= <- <- <- <-]. left. apply Z.ltb_lt in Hneg.
    destruct Hnum as [->|[-> ?]]; [|lia]. repeat split; try done. by exists huges. }
  apply Z.ltb_ge in Hneg. destruct Hnum as [->|[-> Hmax]]; [lia|].
  assert (length huges ≤ 8)%nat as Hlen8.
  { unfold VHOST_MEMORY_MAX_NREGIONS in Hmax. lia. }
  rewrite Nat2Z.id, firstn_all.
  destruct (open_regions_run huges 0 msg [] w)
    as (m1 & new & w1 & -> & Hlen & Htr & Hp & Hreg & Hframe & Hfds).
  cbn. intros [= <- <- <- <-]. right. split; [done|]. exists huges.
  split; [done|]. split; [done|]. split; [done|]. split; [done|].
  split; [done|]. split; [done|].
  split; [|split; [|split; [|split]]].
  - mem_simpl. rewrite to_u32_small; [done|]. lia.
  - by mem_simpl.
  - intros j h Hj.
    transitivity (payload_memory_region j
                    (set_payload_memory_region j (region_of h) msg)).
    2:{ apply region_of_stored. eapply Forall_lookup_1 in Hok; eauto. }
    specialize (Hreg j h Hj). cbn [Nat.add] in Hreg. rewrite <- Hreg.
    apply region_ext. intros x Hx.
    unfold set_payload_memory_padding, set_payload_memory_nregions, off_region,
      off_payload in *.
    rewrite !set_u32_outside by lia. done.
  - intros x Hx.
    unfold set_payload_memory_padding, set_payload_memory_nregions, off_payload.
    destruct (decide (x < 12)%nat) as [Hlt|Hge].
    + rewrite !set_u32_outside by lia. apply Hframe. unfold off_region, off_payload. lia.
    + rewrite !set_u32_outside by lia. apply Hframe. unfold off_region, off_payload. lia.
  - done.
Qed.

(** A set-mem-table call on a device with a descriptor, in full:
    either the discovery fails and nothing happens, or the files are
    opened, the table is sent and, unless the send fails, the files
    are closed. *)
Lemma mem_table_run dev arg w res w' :
  is_server dev && (vhostfd dev <? 0) = false →
  vhost_user_sock dev VHOST_USER_SET_MEM_TABLE arg w = Some (res, w') →
  (res = (-1, arg) ∧ w' = w ∧
   ∃ hs, get_hugepage_file_info VHOST_MEMORY_MAX_NREGIONS w = Some ((-1, hs), w)) ∨
  (∃ huges msg fds k,
     get_hugepage_file_info VHOST_MEMORY_MAX_NREGIONS w =
       Some ((Z.of_nat (length huges), huges), w) ∧
     (length huges ≤ 8)%nat ∧ Forall record_ok huges ∧
     length fds = length huges ∧
     msg_size msg = 8 + 32 * Z.of_nat (length huges) ∧
     payload_memory_nregions msg = Z.of_nat (length huges) ∧
     get_u32 16 msg = 0 ∧
     (∀ j h, huges !! j = Some h → payload_memory_region j msg = region_of h) ∧
     (∀ j h, huges !! j = Some h →
        ∃ fd, fds !! j = Some fd ∧
              if openable w (huge_path h) then 0 ≤ fd ∧ fd ∉ fd_table w else fd = -1) ∧
     snd res = arg ∧ same_peer w (set_tx_script (tx_script w) w') ∧
     new_events w w' =
       zip_with EvOpen (huge_path <$> huges) fds ++
       replicate (S k) (EvSendmsg (vhostfd dev) (load 0 (message_len msg) msg) fds) ++
       (if fst res <? 0 then [] else EvClose <$> fds)).
Proof.
  intros Hc. rewrite vhost_user_sock_run by done. cbn [build_request]. unfold bindM.
  destruct (prepare_vhost_memory_user _ w) as [[[[r m1] fds] w1]|] eqn:Hprep; [|done].
  apply prepare_vhost_memory_user_run in Hprep
    as [(-> & -> & -> & hs & Hinfo)|(-> & huges & Hinfo & Hlen8 & Hok & Hlen & Htr & Hp
                                     & Hn & Hpad & Hreg & Hframe & Hfds)].
  { cbn. intros [= <- <-]. left. repeat split; try done. by exists hs. }
  change (0 <? 0) with false. cbv iota. unfold retM.
  set (msg := set_msg_size _ _).
  assert (to_int (payload_memory_nregions m1) = Z.of_nat (length huges)) as Hnum.
  { rewrite Hn. apply to_int_small. lia. }
  assert (∀ x, (12 ≤ x)%nat → msg x = m1 x) as Hmsg.
  { intros x Hx. subst msg. unfold set_msg_size, off_size.
    rewrite !set_u32_outside by lia. done. }
  assert (msg_size msg = 8 + 32 * Z.of_nat (length huges)) as Hsz.
  { subst msg. mem_simpl. rewrite Hnum.
    unfold sizeof_memory_region.
    rewrite (to_u32_small 4), (to_u32_small (4 + 4)) by lia.
    rewrite to_u32_small by lia. lia. }
  rewrite Hnum, Nat2Z.id, <- Hlen, firstn_all.
  destruct (tx_script_split (tx_script w1)) as (k & tl & Hs & Hhd).
  rewrite (exchange_write _ _ _ _ _ _ _ k tl Hs Hhd).
  2:{ rewrite Hsz. unfold sizeof_payload, VHOST_MEMORY_MAX_NREGIONS, sizeof_memory_region.
      lia. }
  cbv zeta. cbn [is_set_mem_table].
  intros Hrun. right. exists huges, msg, fds, k.
  split; [done|]. split; [done|]. split; [done|]. split; [done|]. split; [done|].
  split.
  { rewrite <- Hn. unfold payload_memory_nregions, off_payload.
    apply get_u32_ext. intros x Hx. apply Hmsg. lia. }
  split.
  { rewrite <- Hpad. apply get_u32_ext. intros x Hx. apply Hmsg. lia. }
  split.
  { intros j h Hj. rewrite <- (Hreg j h Hj). apply region_ext. intros x Hx.
    apply Hmsg. unfold off_region, off_payload in Hx. lia. }
  split; [done|].
  destruct Hp as (Hp1 & Hp2 & Hp3 & Hp4 & Hp5 & Hp6).
  destruct (tx_return _ _ <? 0); injection Hrun as <- <-; cbn.
  - split; [done|]. split; [by repeat split|].
    erewrite new_events_app; [|cbn; rewrite Htr, <- !app_assoc; reflexivity].
    by rewrite app_nil_r.
  - split; [done|]. split; [by repeat split|].
    erewrite new_events_app; [|cbn; rewrite Htr, <- !app_assoc; reflexivity]. done.
Qed.

(** ** What a set-mem-table call sends, opens and closes *)

Lemma message_len_mem_table msg n :
  msg_size msg = 8 + 32 * Z.of_nat n → message_len msg = (20 + 32 * n)%nat.
Proof. intros H. unfold message_len, VHOST_USER_HDR_SIZE. rewrite H. lia. Qed.

(** The memory table on the wire: as many regions as the discovery
    found files, no more than 8; padding 0; 20 bytes and 32 for each
    region; and region [i] describes file [i], its virtual address
    given as guest physical address and as user address, its size,
    and offset 0. *)
Theorem mem_table_wire dev arg w res w' fd buf fds :
  vhost_user_sock dev VHOST_USER_SET_MEM_TABLE arg w = Some (res, w') →
  EvSendmsg fd buf fds ∈ new_events w w' →
  let huges := discovered VHOST_MEMORY_MAX_NREGIONS w in
  (length huges ≤ 8)%nat ∧
  wire_nregions buf = Z.of_nat (length huges) ∧
  wire_padding buf = 0 ∧
  length buf = (20 + 32 * length huges)%nat ∧
  ∀ i h, huges !! i = Some h → wire_region i buf = region_of h.
Proof.
  intros Hrun Hin.
  destruct (vhost_user_sock_sends _ _ _ _ _ _ _ _ _ Hrun Hin) as (Hc & _ & _).
  destruct (mem_table_run _ _ _ _ _ Hc Hrun)
    as [(_ & -> & _)|(huges & msg & fds' & k & Hinfo & Hlen8 & Hok & Hlen & Hsz & Hn
                      & Hpad & Hreg & Hfds & _ & _ & Hev)].
  { unfold new_events in Hin. rewrite drop_all in Hin. by apply elem_of_nil in Hin. }
  unfold discovered. rewrite Hinfo. cbv zeta.
  rewrite Hev, !elem_of_app in Hin. destruct Hin as [Hin|[Hin|Hin]].
  - apply elem_of_lookup_zip_with in Hin as (? & ? & ? & ? & _). done.
  - apply elem_of_replicate_inv in Hin. injection Hin as _ -> ->.
    rewrite (message_len_mem_table _ _ Hsz). rewrite length_load.
    split; [done|]. split; [|split; [|split; [done|]]].
    + unfold wire_nregions, off_payload. rewrite wire_u32_load by lia. done.
    + unfold wire_padding, off_payload. rewrite wire_u32_load by lia. done.
    + intros i h Hi. rewrite <- (Hreg i h Hi).
      apply lookup_lt_Some in Hi.
      unfold wire_region, payload_memory_region.
      rewrite !wire_u64_load by (unfold off_region, off_payload; lia). done.
  - destruct (fst res <? 0); [by apply elem_of_nil in Hin|].
    apply list_elem_of_fmap in Hin as (? & ? & _). done.
Qed.

Lemma opened_paths_app evs1 evs2 :
  opened_paths (evs1 ++ evs2) = opened_paths evs1 ++ opened_paths evs2.
Proof. apply omap_app. Qed.

Lemma opened_paths_sends n fd buf fds :
  opened_paths (replicate n (EvSendmsg fd buf fds)) = [].
Proof. induction n; [done|]. simpl. done. Qed.

Lemma opened_paths_closes fds : opened_paths (EvClose <$> fds) = [].
Proof. induction fds; [done|]. simpl. done. Qed.

Lemma opened_paths_opens (ps : list string) : ∀ fds : list Z,
  length fds = length ps → opened_paths (zip_with EvOpen ps fds) = ps.
Proof.
  induction ps as [|p ps IH]; intros [|fd fds] Hlen; try done.
  cbn. f_equal. apply IH. by injection Hlen.
Qed.

Lemma opened_fds_opens (ps : list string) : ∀ fds : list Z,
  length fds = length ps → opened_fds (zip_with EvOpen ps fds) = fds.
Proof.
  induction ps as [|p ps IH]; intros [|fd fds] Hlen; try done.
  cbn. f_equal. apply IH. by injection Hlen.
Qed.

(** The descriptors of a memory table: every file of the discovery is
    opened once, in order, and what [open] returned goes with the
    message, region by region.  The result of [open] is not looked
    at: for a file that cannot be opened the message comes with -1 in
    the place of a descriptor. *)
Theorem mem_table_descriptors dev arg w res w' fd buf fds :
  vhost_user_sock dev VHOST_USER_SET_MEM_TABLE arg w = Some (res, w') →
  EvSendmsg fd buf fds ∈ new_events w w' →
  let huges := discovered VHOST_MEMORY_MAX_NREGIONS w in
  opened_paths (new_events w w') = huge_path <$> huges ∧
  opened_fds (new_events w w') = fds ∧
  ∀ i h, huges !! i = Some h →
    ∃ fd_i, fds !! i = Some fd_i ∧
      if openable w (huge_path h) then 0 ≤ fd_i ∧ fd_i ∉ fd_table w else fd_i = -1.
Proof.
  intros Hrun Hin.
  destruct (vhost_user_sock_sends _ _ _ _ _ _ _ _ _ Hrun Hin) as (Hc & _ & _).
  destruct (mem_table_run _ _ _ _ _ Hc Hrun)
    as [(_ & -> & _)|(huges & msg & fds' & k & Hinfo & Hlen8 & Hok & Hlen & Hsz & Hn
                      & Hpad & Hreg & Hfds & _ & _ & Hev)].
  { unfold new_events in Hin. rewrite drop_all in Hin. by apply elem_of_nil in Hin. }
  unfold discovered. rewrite Hinfo. cbv zeta.
  assert (fds = fds') as ->.
  { rewrite Hev, !elem_of_app in Hin. destruct Hin as [Hin|[Hin|Hin]].
    - apply elem_of_lookup_zip_with in Hin as (? & ? & ? & ? & _). done.
    - apply elem_of_replicate_inv in Hin. by injection Hin.
    - destruct (fst res <? 0); [by apply elem_of_nil in Hin|].
      apply list_elem_of_fmap in Hin as (? & ? & _). done. }
  rewrite Hev, !opened_paths_app, !opened_fds_app, opened_paths_sends, opened_fds_sends.
  assert (opened_paths (if fst res <? 0 then [] else EvClose <$> fds') = []) as ->.
  { destruct (fst res <? 0); [done|apply opened_paths_closes]. }
  assert (opened_fds (if fst res <? 0 then [] else EvClose <$> fds') = []) as ->.
  { destruct (fst res <? 0); [done|apply opened_fds_closes]. }
  rewrite !app_nil_r, opened_paths_opens, opened_fds_opens
    by (by rewrite length_fmap).
  done.
Qed.

(** When the discovery fails, a set-mem-table call returns -1 and
    that is all: no file is opened, nothing is sent, the world is as
    before. *)
Theorem mem_table_discovery_failure dev arg w hs :
  get_hugepage_file_info VHOST_MEMORY_MAX_NREGIONS w = Some ((-1, hs), w) →
  vhost_user_sock dev VHOST_USER_SET_MEM_TABLE arg w = Some ((-1, arg), w).
Proof.
  intros Hinfo. destruct (is_server dev && (vhostfd dev <? 0)) eqn:Hearly.
  { unfold vhost_user_sock. by rewrite Hearly. }
  rewrite vhost_user_sock_run by done. cbn [build_request].
  unfold bindM, prepare_vhost_memory_user, bindM. rewrite Hinfo. done.
Qed.

(** When no line of /proc/self/maps is the mapping of a hugepage
    file, a set-mem-table call still sends a table: 20 bytes, no
    region, no descriptor; no file is opened. *)
Theorem mem_table_without_hugepages dev arg w lines :
  is_server dev && (vhostfd dev <? 0) = false →
  proc_maps w = Some lines →
  Forall line_parses lines →
  hugepage_mappings lines = [] →
  ∃ r w' k buf,
    vhost_user_sock dev VHOST_USER_SET_MEM_TABLE arg w = Some ((r, arg), w') ∧
    new_events w w' = replicate (S k) (EvSendmsg (vhostfd dev) buf []) ∧
    wire_nregions buf = 0 ∧ wire_size buf = 8 ∧ length buf = 20%nat.
Proof.
  intros Hc Hmaps Hparse Hnone.
  assert (get_hugepage_file_info VHOST_MEMORY_MAX_NREGIONS w = Some ((0, []), w)) as Hinfo.
  { unfold get_hugepage_file_info. rewrite Hmaps.
    rewrite (scan_maps_complete lines VHOST_MEMORY_MAX_NREGIONS []); try done.
    - by rewrite Hnone.
    - rewrite Hnone. constructor.
    - constructor.
    - by rewrite Hnone. }
  rewrite vhost_user_sock_run by done. cbn [build_request].
  unfold bindM, prepare_vhost_memory_user, bindM. rewrite Hinfo.
  change (0 <? 0) with false. cbv iota.
  change (take (Z.to_nat 0) (@nil hugepage_file_info)) with (@nil hugepage_file_info).
  cbn [open_regions]. unfold retM. cbv beta iota.
  change (0 <? 0) with false. cbv beta iota.
  assert (to_int (payload_memory_nregions
            (set_payload_memory_padding 0
               (set_payload_memory_nregions 0
                  (request_header VHOST_USER_SET_MEM_TABLE (stack w))))) = 0) as ->.
  { by mem_simpl. }
  cbn [Z.to_nat take].
  set (msg := set_msg_size (_ + 0 * sizeof_memory_region) _).
  assert (msg_size msg = 8 ∧ payload_memory_nregions msg = 0) as [Hsz Hn].
  { subst msg. by mem_simpl. }
  destruct (tx_script_split (tx_script w)) as (k & tl & Hs & Hhd).
  rewrite (exchange_write _ _ _ _ _ _ _ k tl Hs Hhd); [|by rewrite Hsz].
  cbv zeta. cbn [is_set_mem_table].
  assert (message_len msg = 20%nat) as Hlen by (unfold message_len; by rewrite Hsz).
  rewrite Hlen.
  exists (if tx_return (head tl) 20 <? 0 then -1 else 0).
  destruct (tx_return (head tl) 20 <? 0); eexists _, k, _;
    (split; [reflexivity|]);
    (split; [erewrite new_events_app; [reflexivity|];
             cbn [trace closed sent set_trace set_tx_script set_fd_table fmap list_fmap];
             by rewrite ?app_nil_r|]);
    rewrite length_load; wire_simpl;
    change (get_u32 12 msg) with (payload_memory_nregions msg);
    change (get_u32 8 msg) with (msg_size msg); by rewrite Hn, Hsz.
Qed.

(** ** Requests that expect no reply *)

Lemma build_request_pure req arg msg w b w1 :
  req ≠ VHOST_USER_SET_MEM_TABLE →
  build_request req arg msg w = Some (b, w1) → w1 = w.
Proof.
  intros Hreq. destruct req; try done; simpl; unfold retM, undefined;
    try (by intros [= _ <-]); destruct arg; try done; try (by intros [= _ <-]).
  all: destruct (0 <? file_fd _); by intros [= _ <-].
Qed.

Lemma Forall_replicate_send n fd buf fds :
  Forall (λ e, is_recv e = false) (replicate n (EvSendmsg fd buf fds)).
Proof. by apply Forall_replicate. Qed.

(** A request that expects no reply never reads from the socket: the
    call makes no [recv], leaves what waits in the socket where it
    is, and leaves the object behind the argument alone, whatever the
    peer has sent. *)
Theorem no_reply_never_reads dev req arg w res w' :
  expects_reply req = false →
  vhost_user_sock dev req arg w = Some (res, w') →
  snd res = arg ∧
  rx_script w' = rx_script w ∧
  Forall (λ e, is_recv e = false) (new_events w w').
Proof.
  intros Hno Hrun. destruct (is_server dev && (vhostfd dev <? 0)) eqn:Hearly.
  { unfold vhost_user_sock in Hrun. rewrite Hearly in Hrun. injection Hrun as <- <-.
    unfold new_events. rewrite drop_all. by repeat split. }
  destruct (decide (req = VHOST_USER_SET_MEM_TABLE)) as [->|Hreq].
  { destruct (mem_table_run _ _ _ _ _ Hearly Hrun)
      as [(-> & -> & _)|(huges & msg & fds & k & _ & _ & _ & _ & _ & _ & _ & _ & _
                         & Harg & Hp & Hev)].
    - unfold new_events. rewrite drop_all. by repeat split.
    - split; [done|]. split; [apply Hp|]. rewrite Hev.
      rewrite !Forall_app. split; [|split].
      + apply Forall_forall. intros e He.
        apply elem_of_lookup_zip_with in He as (? & ? & ? & -> & _). done.
      + apply Forall_replicate_send.
      + destruct (fst res <? 0); [constructor|].
        apply Forall_fmap. by apply Forall_true. }
  rewrite vhost_user_sock_run in Hrun by done.
  destruct (build_request _ _ _ _) as [[b w1]|] eqn:Hb; [|done].
  pose proof (build_request_pure _ _ _ _ _ _ Hreq Hb) as ->.
  apply build_request_inv in Hb as [_ Hb]; [|apply request_header_size].
  destruct b as [msg fds need_reply|r].
  2:{ injection Hrun as <- <-. unfold new_events. rewrite drop_all. by repeat split. }
  destruct Hb as (_ & Hsz & _ & _ & -> & _). rewrite Hno in Hrun.
  destruct (tx_script_split (tx_script w)) as (k & tl & Hs & Hhd).
  rewrite (exchange_no_reply _ _ _ _ _ _ k tl Hs Hhd Hsz) in Hrun by (by destruct req).
  injection Hrun as <- <-. split; [done|]. split; [done|].
  erewrite new_events_app; [|cbn [sent trace set_trace set_tx_script]; reflexivity].
  apply Forall_replicate_send.
Qed.

(** ** Bounds and order of the discovery *)

Lemma scan_maps_bound lines max : ∀ huges r out,
  scan_maps lines max huges = Some (r, out) →
  Z.of_nat (length out) ≤ Z.max max (Z.of_nat (length huges)).
Proof.
  induction lines as [|buf lines IH]; intros huges r out; simpl.
  - intros [= _ <-]. lia.
  - destruct (sscanf_range buf) as [[v_start v_end]|]; [|intros [= _ <-]; lia].
    destruct (path_field buf) as [tmp|]; [|done].
    destruct (negb (match_hugefile tmp)); [by apply IH|].
    destruct (existsb _ huges); [by apply IH|].
    destruct (max <=? _) eqn:Hfull; [intros [= _ <-]; lia|].
    apply Z.leb_gt in Hfull. intros Hrun. apply IH in Hrun.
    rewrite length_app in Hrun. simpl in Hrun. lia.
Qed.

(** The discovery never writes past the array it is given: whatever
    the table holds and however the call ends, [huges] holds at most
    [max] records, the return value is -1 or their number, and the
    world is as it was. *)
Theorem discovery_within_bounds max w n huges w' :
  0 ≤ max →
  get_hugepage_file_info max w = Some ((n, huges), w') →
  Z.of_nat (length huges) ≤ max ∧
  (n = -1 ∨ n = Z.of_nat (length huges)) ∧
  w' = w.
Proof.
  intros Hmax. unfold get_hugepage_file_info.
  destruct (proc_maps w) as [lines|].
  2:{ intros [= <- <- <-]. simpl. split; [lia|]. split; [by left|done]. }
  destruct (scan_maps lines max []) as [[r hs]|] eqn:Hscan; [|done].
  apply scan_maps_bound in Hscan. simpl in Hscan.
  destruct (r <? 0); intros [= <- <- <-].
  - split; [lia|]. split; [by left|done].
  - rewrite length_fmap. split; [lia|]. split; [by right|done].
Qed.

Lemma filter_not_in_snoc (H : list string) p (l : list string) :
  filter (λ y, y ∉ H ++ [p]) l = filter (λ y, y ∉ H) (filter (λ y, y ≠ p) l).
Proof.
  rewrite list_filter_filter. apply list_filter_iff. intros y.
  rewrite elem_of_app, list_elem_of_singleton. tauto.
Qed.

Lemma filter_not_in_recorded (H : list string) p (l : list string) :
  p ∈ H → filter (λ y, y ∉ H) (filter (λ y, y ≠ p) l) = filter (λ y, y ∉ H) l.
Proof.
  intros Hp. rewrite list_filter_filter. apply list_filter_iff. intros y.
  split; [tauto|]. intros Hy. split; [done|]. by intros ->.
Qed.

Lemma absorb_order ms : ∀ huges,
  Forall fits ms →
  huge_path <$> absorb huges ms =
  (huge_path <$> huges) ++
  filter (λ p, p ∉ huge_path <$> huges) (first_occurrences (mapping_path <$> ms)).
Proof.
  induction ms as [|m ms IH]; intros huges Hfit.
  - simpl. by rewrite app_nil_r.
  - apply Forall_cons in Hfit as [Hm Hfit]. rewrite absorb_cons.
    rewrite fmap_cons. cbn [first_occurrences].
    destruct (recorded huges (mapping_path m)) eqn:Hrm.
    + apply recorded_true in Hrm. rewrite IH by done.
      rewrite filter_cons_False by tauto.
      by rewrite filter_not_in_recorded.
    + assert (mapping_path m ∉ huge_path <$> huges) as Hnotin.
      { rewrite <- recorded_true. congruence. }
      rewrite IH by done. rewrite paths_snoc by done.
      rewrite filter_cons_True by done.
      rewrite <- app_assoc. cbn [app]. by rewrite filter_not_in_snoc.
Qed.

Lemma filter_not_in_nil (l : list string) : filter (λ p, p ∉ @nil string) l = l.
Proof.
  induction l as [|x l IH]; [done|].
  rewrite filter_cons_True by apply not_elem_of_nil. by rewrite IH.
Qed.

(** The records of a successful discovery are the hugepage files of
    the table, each once, in the order of the first line of each. *)
Theorem discovery_order w lines max n huges w' :
  proc_maps w = Some lines →
  Forall fits (hugepage_mappings lines) →
  get_hugepage_file_info max w = Some ((n, huges), w') →
  0 ≤ n →
  huge_path <$> huges = first_occurrences (mapping_path <$> hugepage_mappings lines).
Proof.
  intros Hmaps Hfit. unfold get_hugepage_file_info. rewrite Hmaps.
  destruct (scan_maps lines max []) as [[r hs]|] eqn:Hscan; [|done].
  destruct (r <? 0) eqn:Hr; [intros [= <- _ _]; lia|]. intros [= _ <- _] _.
  destruct (scan_maps_ret _ _ _ _ _ Hscan) as [-> | ->]; [|done].
  apply scan_maps_absorb in Hscan as ->.
  rewrite <- list_fmap_compose.
  rewrite (list_fmap_ext (huge_path ∘ correct_size w) huge_path)
    by (intros; apply correct_size_path).
  rewrite absorb_order by done. simpl.
  apply filter_not_in_nil.
Qed.

(** ** The queue-pair helper on the wire *)

Lemma set_vring_enable_run dev s w k tl :
  is_server dev && (vhostfd dev <? 0) = false →
  tx_script w = replicate k (TxErr EINTR) ++ tl →
  head tl ≠ Some (TxErr EINTR) →
  vhost_user_sock dev VHOST_USER_SET_VRING_ENABLE (ArgState s) w =
  Some ((if tx_return (head tl) 20 <? 0 then -1 else 0, ArgState s),
        sent (vhostfd dev)
          (load 0 20 (set_msg_size sizeof_vring_state
                        (set_payload_state s
                           (request_header VHOST_USER_SET_VRING_ENABLE (stack w)))))
          [] k tl w).
Proof.
  intros Hc Hs Hhd. rewrite vhost_user_sock_run by done. cbn [build_request].
  unfold retM. rewrite (exchange_no_reply _ _ _ _ _ _ k tl Hs Hhd); [|by mem_simpl|done].
  match goal with |- context [message_len ?m] =>
    assert (message_len m = 20%nat) as -> by (unfold message_len; by mem_simpl) end.
  done.
Qed.

Lemma sent_state_load s msg :
  state_ok s →
  wire_payload_state
    (load 0 20 (set_msg_size sizeof_vring_state
                  (set_payload_state s (request_header VHOST_USER_SET_VRING_ENABLE msg))))
    = s ∧
  wire_request
    (load 0 20 (set_msg_size sizeof_vring_state
                  (set_payload_state s (request_header VHOST_USER_SET_VRING_ENABLE msg))))
    = request_code VHOST_USER_SET_VRING_ENABLE.
Proof.
  intros [Hi Hn]. wire_simpl. mem_simpl. rewrite !to_u32_small by done.
  split; [by destruct s|done].
Qed.

(** When the peer takes both messages, the queue-pair helper returns
    0 and the peer has seen two set-vring-enable messages, for ring
    [2 * pair_idx] and then for ring [2 * pair_idx + 1], both with
    the value of [enable] as an unsigned 32-bit number. *)
Theorem enable_queue_pair_wire dev pair_idx enable w n1 n2 tl :
  is_server dev && (vhostfd dev <? 0) = false →
  0 ≤ pair_idx < 2 ^ 16 →
  tx_script w = TxAccept n1 :: TxAccept n2 :: tl →
  ∃ w',
    vhost_user_enable_queue_pair dev pair_idx enable w = Some (0, w') ∧
    sent_states (new_events w w') =
      [ (request_code VHOST_USER_SET_VRING_ENABLE,
         {| state_index := 2 * pair_idx; state_num := to_u32 enable |});
        (request_code VHOST_USER_SET_VRING_ENABLE,
         {| state_index := 2 * pair_idx + 1; state_num := to_u32 enable |}) ] ∧
    tx_script w' = tl.
Proof.
  intros Hc Hp Htx. unfold vhost_user_enable_queue_pair, enable_loop, bindM.
  rewrite (to_u32_small (pair_idx * 2 + 0)),
    (to_u32_small (pair_idx * 2 + (0 + 1))) by lia.
  replace (pair_idx * 2 + 0) with (2 * pair_idx) by lia.
  replace (pair_idx * 2 + (0 + 1)) with (2 * pair_idx + 1) by lia.
  rewrite (set_vring_enable_run dev _ w 0 (TxAccept n1 :: TxAccept n2 :: tl)) by done.
  cbn [head tx_return].
  assert (∀ n, (Z.of_nat (n `min` 20) <? 0) = false) as Hacc
    by (intros; apply Z.ltb_ge; lia).
  rewrite Hacc. cbn [negb Z.eqb].
  set (w1 := sent _ _ _ _ _ w).
  rewrite (set_vring_enable_run dev _ w1 0 (TxAccept n2 :: tl)) by done.
  cbn [head tx_return]. rewrite Hacc. cbn [negb Z.eqb]. unfold retM.
  eexists. split; [reflexivity|]. split; [|done].
  erewrite new_events_app.
  2:{ subst w1. cbn [sent trace set_trace set_tx_script replicate]. rewrite <- app_assoc.
      reflexivity. }
  assert (0 ≤ to_u32 enable < 2 ^ 32) as Hen by (apply Z.mod_pos_bound; lia).
  cbn [app sent_states omap list_omap stack sent set_tx_script set_trace].
  destruct (sent_state_load {| state_index := 2 * pair_idx; state_num := to_u32 enable |}
              (stack w)) as [-> ->]; [split; simpl; lia|].
  destruct (sent_state_load {| state_index := 2 * pair_idx + 1; state_num := to_u32 enable |}
              (stack w)) as [-> ->]; [split; simpl; lia|].
  done.
Qed.

(** ** The uninitialised message *)

Lemma agree_below_load n m1 m2 : agree_below n m1 m2 → load 0 n m1 = load 0 n m2.
Proof. intros H. apply load_ext. intros x Hx. apply H. lia. Qed.

Lemma agree_below_get_u32 n off m1 m2 :
  agree_below n m1 m2 → (off + 4 ≤ n)%nat → get_u32 off m1 = get_u32 off m2.
Proof. intros H Hoff. apply get_u32_ext. intros x Hx. apply H. lia. Qed.

Lemma agree_below_get_u64 n off m1 m2 :
  agree_below n m1 m2 → (off + 8 ≤ n)%nat → get_u64 off m1 = get_u64 off m2.
Proof. intros H Hoff. apply get_u64_ext. intros x Hx. apply H. lia. Qed.

Lemma store_same off bs m1 m2 x :
  (off ≤ x < off + length bs)%nat ∨ m1 x = m2 x →
  store off bs m1 x = store off bs m2 x.
Proof. intros H. unfold store. destruct (decide _); [done|]. destruct H; [lia|done]. Qed.

Lemma set_u32_same off v m1 m2 x :
  (off ≤ x < off + 4)%nat ∨ m1 x = m2 x → set_u32 off v m1 x = set_u32 off v m2 x.
Proof. intros H. apply store_same. by rewrite length_le_split. Qed.

Lemma set_u64_same off v m1 m2 x :
  (off ≤ x < off + 8)%nat ∨ m1 x = m2 x → set_u64 off v m1 x = set_u64 off v m2 x.
Proof. intros H. apply store_same. by rewrite length_le_split. Qed.

Lemma request_header_agree req b1 b2 :
  agree_below 12 (request_header req b1) (request_header req b2).
Proof.
  intros x Hx. unfold request_header, set_msg_size, set_msg_flags, set_msg_request,
    off_size, off_flags, off_request.
  apply set_u32_same. destruct (decide (8 ≤ x)%nat); [left; lia|right].
  apply set_u32_same. destruct (decide (4 ≤ x)%nat); [left; lia|right].
  apply set_u32_same. left. lia.
Qed.

Lemma set_msg_size_agree n v m1 m2 :
  agree_below n m1 m2 → agree_below n (set_msg_size v m1) (set_msg_size v m2).
Proof. intros H x Hx. apply set_u32_same. right. by apply H. Qed.

Lemma set_payload_u64_agree v m1 m2 :
  agree_below 12 m1 m2 → agree_below 20 (set_payload_u64 v m1) (set_payload_u64 v m2).
Proof.
  intros H x Hx. apply set_u64_same. unfold off_payload.
  destruct (decide (12 ≤ x)%nat); [left; lia|right]. apply H. lia.
Qed.

Lemma set_payload_state_agree s m1 m2 :
  agree_below 12 m1 m2 → agree_below 20 (set_payload_state s m1) (set_payload_state s m2).
Proof.
  intros H x Hx. unfold set_payload_state, off_payload.
  apply set_u32_same. destruct (decide (16 ≤ x)%nat); [left; lia|right].
  apply set_u32_same. destruct (decide (12 ≤ x)%nat); [left; lia|right]. apply H. lia.
Qed.

Lemma set_payload_addr_agree a m1 m2 :
  agree_below 12 m1 m2 → agree_below 52 (set_payload_addr a m1) (set_payload_addr a m2).
Proof.
  intros H x Hx. unfold set_payload_addr, off_payload.
  apply set_u64_same. destruct (decide (44 ≤ x)%nat); [left; lia|right].
  apply set_u64_same. destruct (decide (36 ≤ x)%nat); [left; lia|right].
  apply set_u64_same. destruct (decide (28 ≤ x)%nat); [left; lia|right].
  apply set_u64_same. destruct (decide (20 ≤ x)%nat); [left; lia|right].
  apply set_u32_same. destruct (decide (16 ≤ x)%nat); [left; lia|right].
  apply set_u32_same. destruct (decide (12 ≤ x)%nat); [left; lia|right]. apply H. lia.
Qed.

Lemma agree_below_le n n' m1 m2 : (n' ≤ n)%nat → agree_below n m1 m2 → agree_below n' m1 m2.
Proof. intros Hle H x Hx. apply H. lia. Qed.

Lemma sys_open_stack p w s : sys_open p (with_stack s w) = on_stack s (sys_open p w).
Proof. unfold sys_open. cbn. by destruct (openable w p). Qed.

Lemma sys_close_stack fd w s : sys_close fd (with_stack s w) = on_stack s (sys_close fd w).
Proof. done. Qed.

Lemma sys_sendmsg_stack fd buf fds w s :
  sys_sendmsg fd buf fds (with_stack s w) = on_stack s (sys_sendmsg fd buf fds w).
Proof. unfold sys_sendmsg. cbn. by destruct (tx_script w) as [|[e|n] rest]. Qed.

Lemma sendmsg_loop_stack fd buf fds s : ∀ turns w,
  sendmsg_loop turns fd buf fds (with_stack s w) =
  on_stack s (sendmsg_loop turns fd buf fds w).
Proof.
  induction turns as [|turns IH]; intros w; cbn [sendmsg_loop]; unfold bindM;
    rewrite sys_sendmsg_stack; destruct (sys_sendmsg fd buf fds w) as [[[r e] w1]|];
    try done; cbn [on_stack]; by destruct ((r <? 0) && (e =? EINTR)).
Qed.

Lemma vhost_user_write_stack fd m1 m2 len fds w s :
  load 0 (Z.to_nat len) m1 = load 0 (Z.to_nat len) m2 →
  vhost_user_write fd m2 len fds (with_stack s w) =
  on_stack s (vhost_user_write fd m1 len fds w).
Proof.
  intros Hload. unfold vhost_user_write. rewrite <- Hload.
  change (tx_script (with_stack s w)) with (tx_script w). apply sendmsg_loop_stack.
Qed.

Lemma close_fds_stack fds s : ∀ w,
  close_fds fds (with_stack s w) = on_stack s (close_fds fds w).
Proof.
  induction fds as [|fd fds IH]; intros w; [done|].
  cbn [close_fds]. unfold bindM. rewrite sys_close_stack. cbn [sys_close on_stack].
  apply IH.
Qed.

Lemma get_hugepage_file_info_stack max w s :
  get_hugepage_file_info max (with_stack s w) =
  on_stack s (get_hugepage_file_info max w).
Proof.
  unfold get_hugepage_file_info. cbn [proc_maps with_stack].
  destruct (proc_maps w) as [lines|]; [|done].
  destruct (scan_maps lines max []) as [[r hs]|]; [|done].
  by destruct (r <? 0).
Qed.

Lemma open_regions_stack huges s : ∀ i m1 m2 fds w,
  ∃ m1' m2' fds' w',
    open_regions huges i m1 fds w = Some ((m1', fds'), w') ∧
    open_regions huges i m2 fds (with_stack s w) = Some ((m2', fds'), with_stack s w') ∧
    ∀ x, (off_region i ≤ x < off_region (i + length huges))%nat ∨ m1 x = m2 x →
         m1' x = m2' x.
Proof.
  induction huges as [|h huges IH]; intros i m1 m2 fds w.
  - exists m1, m2, fds, w. repeat split. intros x [Hx|Hx]; [|done].
    rewrite Nat.add_0_r in Hx. lia.
  - cbn [open_regions]. unfold bindM. rewrite sys_open_stack.
    destruct (sys_open_step (huge_path h) w) as (fd & w1 & -> & _). cbn [on_stack].
    match goal with |- context [open_regions huges (S i) ?a _ w1] => set (n1 := a) end.
    match goal with |- context [open_regions huges (S i) ?a _ (with_stack s w1)] =>
      set (n2 := a) end.
    destruct (IH (S i) n1 n2 (fds ++ [fd]) w1) as (m1' & m2' & fds' & w' & -> & -> & Hag).
    exists m1', m2', fds', w'. repeat split. intros x Hx. apply Hag.
    destruct (decide (off_region (S i) ≤ x < off_region (S i + length huges))%nat)
      as [Hin|Hout]; [by left|right].
    subst n1 n2. unfold set_payload_memory_region.
    unfold off_region, off_payload in *. cbn [length] in Hx.
    destruct Hx as [Hx|Hx].
    + apply set_u64_same.
      destruct (decide (12 + 8 + 32 * i + 24 ≤ x)%nat); [left; lia|right].
      apply set_u64_same.
      destruct (decide (12 + 8 + 32 * i + 16 ≤ x)%nat); [left; lia|right].
      apply set_u64_same.
      destruct (decide (12 + 8 + 32 * i + 8 ≤ x)%nat); [left; lia|right].
      apply set_u64_same. left. lia.
    + do 4 (apply set_u64_same; right). done.
Qed.

Ltac message_len_is n :=
  match goal with |- context [message_len ?m] =>
    assert (message_len m = n) as -> by (unfold message_len; by mem_simpl)
  end.

Ltac size_in_bounds :=
  mem_simpl; unfold sizeof_payload, VHOST_MEMORY_MAX_NREGIONS, sizeof_memory_region,
    sizeof_u64, sizeof_vring_state, sizeof_vring_addr;
  rewrite to_u32_small; lia.

(** The message the [switch] builds is the same in its first
    [VHOST_USER_HDR_SIZE + size] bytes whatever the stack held, and
    so are the descriptors and the world. *)
Lemma build_request_stack req arg b1 b2 w s :
  match build_request req arg (request_header req b1) w with
  | Some (Built msg1 fds need, w1) =>
      ∃ msg2,
        build_request req arg (request_header req b2) (with_stack s w) =
          Some (Built msg2 fds need, with_stack s w1) ∧
        0 ≤ msg_size msg1 ≤ sizeof_payload ∧
        agree_below (message_len msg1) msg1 msg2
  | Some (Return r, w1) =>
      build_request req arg (request_header req b2) (with_stack s w) =
        Some (Return r, with_stack s w1)
  | None => build_request req arg (request_header req b2) (with_stack s w) = None
  end.
Proof.
  pose proof (request_header_agree req b1 b2) as Hhdr.
  destruct req; try done.
  - (* get-features *)
    cbn [build_request]; unfold retM. eexists. split; [reflexivity|]. split; [size_in_bounds|].
    message_len_is 12%nat. done.
  - (* set-features *)
    destruct arg; try done. cbn [build_request]; unfold retM. eexists. split; [reflexivity|]. split; [size_in_bounds|].
    message_len_is 20%nat. by apply set_msg_size_agree, set_payload_u64_agree.
  - (* set-owner *)
    cbn [build_request]; unfold retM. eexists. split; [reflexivity|]. split; [size_in_bounds|].
    message_len_is 12%nat. done.
  - (* reset-owner *)
    cbn [build_request]; unfold retM. eexists. split; [reflexivity|]. split; [size_in_bounds|].
    message_len_is 12%nat. done.
  - (* set-mem-table *)
    cbn [build_request]. unfold bindM, prepare_vhost_memory_user, bindM.
    rewrite get_hugepage_file_info_stack.
    destruct (get_hugepage_file_info _ w) as [[[num huges] w0]|] eqn:Hinfo; [|done].
    apply get_hugepage_file_info_inv in Hinfo as [-> Hnum]. cbn [on_stack].
    destruct (num <? 0) eqn:Hneg; [done|]. apply Z.ltb_ge in Hneg.
    destruct Hnum as [->|[-> Hmax]]; [lia|].
    unfold VHOST_MEMORY_MAX_NREGIONS in Hmax. rewrite Nat2Z.id, firstn_all.
    destruct (open_regions_stack huges s 0 (request_header VHOST_USER_SET_MEM_TABLE b1)
                (request_header VHOST_USER_SET_MEM_TABLE b2) [] w)
      as (m1 & m2 & fds & w1 & -> & -> & Hag).
    cbn. unfold retM.
    assert (∀ m, to_int (payload_memory_nregions
                   (set_payload_memory_padding 0
                      (set_payload_memory_nregions (Z.of_nat (length huges)) m)))
                 = Z.of_nat (length huges)) as Hn.
    { intros m. mem_simpl. rewrite to_u32_small, to_int_small; lia. }
    rewrite !Hn. eexists. split; [reflexivity|].
    match goal with |- context [msg_size ?m] => set (msg := m) end.
    assert (msg_size msg = 8 + 32 * Z.of_nat (length huges)) as Hsz.
    { subst msg. mem_simpl. unfold sizeof_memory_region.
      rewrite (to_u32_small 4), (to_u32_small (4 + 4)) by lia.
      rewrite to_u32_small by lia. lia. }
    split.
    { rewrite Hsz. unfold sizeof_payload, VHOST_MEMORY_MAX_NREGIONS, sizeof_memory_region.
      lia. }
    rewrite (message_len_mem_table _ _ Hsz). subst msg.
    assert (∀ v1 v2 v3 n1 n2,
      agree_below (20 + 32 * length huges) n1 n2 →
      agree_below (20 + 32 * length huges)
        (set_msg_size v1 (set_msg_size v2 (set_msg_size v3 n1)))
        (set_msg_size v1 (set_msg_size v2 (set_msg_size v3 n2)))) as Hsizes.
    { intros. by do 3 apply set_msg_size_agree. }
    mem_simpl.
    match goal with
    | |- agree_below _ (set_u32 8 ?v1 (set_u32 8 ?v2 (set_u32 8 ?v3 ?n1)))
                       (set_u32 8 ?v1' (set_u32 8 ?v2' (set_u32 8 ?v3' ?n2)))  =>
        apply (Hsizes v1 v2 v3 n1 n2)
    end.
    intros x Hx. apply set_u32_same.
    destruct (decide (16 ≤ x < 20)%nat); [left; lia|right].
    apply set_u32_same.
    destruct (decide (12 ≤ x < 16)%nat); [left; lia|right].
    apply Hag. unfold off_region, off_payload.
    destruct (decide (x < 12)%nat); [right; by apply Hhdr|left; lia].
  - (* set-log-base *)
    destruct arg; try done. cbn [build_request]; unfold retM. eexists. split; [reflexivity|]. split; [size_in_bounds|].
    message_len_is 20%nat. by apply set_msg_size_agree, set_payload_u64_agree.
  - (* set-log-fd *)
    destruct arg; try done. cbn [build_request]; unfold retM. eexists. split; [reflexivity|]. split; [size_in_bounds|].
    message_len_is 12%nat. done.
  - (* set-vring-num *)
    destruct arg; try done. cbn [build_request]; unfold retM. eexists. split; [reflexivity|]. split; [size_in_bounds|].
    message_len_is 20%nat. by apply set_msg_size_agree, set_payload_state_agree.
  - (* set-vring-addr *)
    destruct arg; try done. cbn [build_request]; unfold retM. eexists. split; [reflexivity|]. split; [size_in_bounds|].
    message_len_is 52%nat. by apply set_msg_size_agree, set_payload_addr_agree.
  - (* set-vring-base *)
    destruct arg; try done. cbn [build_request]; unfold retM. eexists. split; [reflexivity|]. split; [size_in_bounds|].
    message_len_is 20%nat. by apply set_msg_size_agree, set_payload_state_agree.
  - (* get-vring-base *)
    destruct arg; try done. cbn [build_request]; unfold retM. eexists. split; [reflexivity|]. split; [size_in_bounds|].
    message_len_is 20%nat. by apply set_msg_size_agree, set_payload_state_agree.
  - (* set-vring-kick *)
    destruct arg as [| | | | |file]; try done. cbn [build_request].
    destruct (0 <? file_fd file); unfold retM; (eexists; split; [reflexivity|]);
      (split; [size_in_bounds|]); message_len_is 20%nat.
    + by apply set_msg_size_agree, set_payload_u64_agree.
    + mem_simpl. apply set_payload_u64_agree.
      eapply agree_below_le; [|by apply set_msg_size_agree, set_payload_u64_agree]. lia.
  - destruct arg as [| | | | |file]; try done. cbn [build_request].
    destruct (0 <? file_fd file); unfold retM; (eexists; split; [reflexivity|]);
      (split; [size_in_bounds|]); message_len_is 20%nat.
    + by apply set_msg_size_agree, set_payload_u64_agree.
    + mem_simpl. apply set_payload_u64_agree.
      eapply agree_below_le; [|by apply set_msg_size_agree, set_payload_u64_agree]. lia.
  - destruct arg as [| | | | |file]; try done. cbn [build_request].
    destruct (0 <? file_fd file); unfold retM; (eexists; split; [reflexivity|]);
      (split; [size_in_bounds|]); message_len_is 20%nat.
    + by apply set_msg_size_agree, set_payload_u64_agree.
    + mem_simpl. apply set_payload_u64_agree.
      eapply agree_below_le; [|by apply set_msg_size_agree, set_payload_u64_agree]. lia.
  - (* set-vring-enable *)
    destruct arg; try done. cbn [build_request]; unfold retM. eexists.
    split; [reflexivity|]. split; [size_in_bounds|].
    message_len_is 20%nat. by apply set_msg_size_agree, set_payload_state_agree.
Qed.

Lemma sys_recv_stack fd m1 m2 off n w s :
  ∃ r m1' m2' w',
    sys_recv fd m1 off n w = Some ((r, m1'), w') ∧
    sys_recv fd m2 off n (with_stack s w) = Some ((r, m2'), with_stack s w') ∧
    ∀ x, (off ≤ x < off + Z.to_nat r)%nat ∨ m1 x = m2 x → m1' x = m2' x.
Proof.
  unfold sys_recv. cbn [rx_script with_stack].
  destruct (rx_script w) as [|[e|data] rest].
  - eexists _, _, _, _. repeat split. intros x [Hx|Hx]; [simpl in Hx; lia|done].
  - eexists _, _, _, _. repeat split. intros x [Hx|Hx]; [simpl in Hx; lia|done].
  - cbv zeta. eexists _, _, _, _. split; [reflexivity|]. split; [reflexivity|].
    intros x Hx. apply store_same. rewrite Nat2Z.id in Hx. done.
Qed.

(** [vhost_user_read] returns the same and leaves the same world
    whatever the message object held; after a successful read the
    object holds the same header and payload. *)
Lemma vhost_user_read_stack fd m1 m2 w s :
  ∃ r m1' m2' w',
    vhost_user_read fd m1 w = Some ((r, m1'), w') ∧
    vhost_user_read fd m2 (with_stack s w) = Some ((r, m2'), with_stack s w') ∧
    (r = -1 ∨ (r = 0 ∧ agree_below (12 + Z.to_nat (msg_size m1')) m1' m2')).
Proof.
  unfold vhost_user_read, bindM. change (Z.to_nat VHOST_USER_HDR_SIZE) with 12%nat.
  destruct (sys_recv_stack fd m1 m2 0 12 w s) as (r1 & m1a & m2a & w1 & -> & -> & Hag1).
  unfold VHOST_USER_HDR_SIZE.
  destruct (r1 <? 12) eqn:Hr1; [eexists _, _, _, _; by eauto|]. apply Z.ltb_ge in Hr1.
  assert (agree_below 12 m1a m2a) as Hhdr.
  { intros x Hx. apply Hag1. left. lia. }
  assert (msg_flags m2a = msg_flags m1a) as ->.
  { symmetry. apply (agree_below_get_u32 12); [done|]. unfold off_flags. lia. }
  assert (msg_size m2a = msg_size m1a) as ->.
  { symmetry. apply (agree_below_get_u32 12); [done|]. unfold off_size. lia. }
  destruct (negb (msg_flags m1a =? _)); [eexists _, _, _, _; by eauto|].
  pose proof (get_u32_range off_size m1a) as Hrange. fold (msg_size m1a) in Hrange.
  destruct (sizeof_payload <? to_size_t (to_int (msg_size m1a))) eqn:Hbig;
    [eexists _, _, _, _; by eauto|].
  destruct (to_size_t_to_int_le _ Hrange Hbig) as [Hle Heq]. rewrite Heq.
  destruct (msg_size m1a =? 0) eqn:Hz; cbn [negb].
  { apply Z.eqb_eq in Hz. eexists _, _, _, _. split; [reflexivity|].
    split; [reflexivity|]. right. split; [done|]. rewrite Hz. done. }
  destruct (sys_recv_stack fd m1a m2a 12 (Z.to_nat (msg_size m1a)) w1 s)
    as (r2 & m1b & m2b & w2 & Hrun1 & Hrun2 & Hag2).
  rewrite Hrun1, Hrun2.
  destruct (r2 <? msg_size m1a) eqn:Hr2; [eexists _, _, _, _; by eauto|]. apply Z.ltb_ge in Hr2.
  eexists _, _, _, _. split; [reflexivity|]. split; [reflexivity|]. right.
  split; [done|].
  assert (msg_size m1b = msg_size m1a) as ->.
  { unfold msg_size, off_size. eapply sys_recv_keeps; [done|lia]. }
  intros x Hx. apply Hag2.
  destruct (decide (x < 12)%nat); [right; by apply Hhdr|left; lia].
Qed.

Lemma read_reply_stack dev req arg m1 m2 w s :
  read_reply dev req arg m2 (with_stack s w) = on_stack s (read_reply dev req arg m1 w).
Proof.
  unfold read_reply, bindM.
  destruct (vhost_user_read_stack (vhostfd dev) m1 m2 w s)
    as (r & m1' & m2' & w' & -> & -> & Hag).
  destruct Hag as [->|[-> Hag]]; [done|]. change (0 <? 0) with false. cbv iota.
  assert (msg_request m2' = msg_request m1') as ->.
  { symmetry. eapply agree_below_get_u32; [done|]. unfold off_request. lia. }
  destruct (negb (request_code req =? msg_request m1')); [done|].
  assert (msg_size m2' = msg_size m1') as ->.
  { symmetry. eapply agree_below_get_u32; [done|]. unfold off_size. lia. }
  destruct req; try done.
  - destruct (msg_size m1' =? sizeof_u64) eqn:Hsz; cbn [negb]; [|done].
    apply Z.eqb_eq in Hsz. rewrite Hsz in Hag.
    change (12 + Z.to_nat sizeof_u64)%nat with 20%nat in Hag.
    destruct arg; try done. unfold payload_u64, off_payload.
    by rewrite (agree_below_get_u64 _ 12 _ _ Hag) by lia.
  - destruct (msg_size m1' =? sizeof_vring_state) eqn:Hsz; cbn [negb]; [|done].
    apply Z.eqb_eq in Hsz. rewrite Hsz in Hag.
    change (12 + Z.to_nat sizeof_vring_state)%nat with 20%nat in Hag.
    destruct arg; try done. unfold payload_state, off_payload.
    by rewrite !(agree_below_get_u32 _ _ _ _ Hag) by lia.
Qed.

Lemma exchange_stack dev req arg m1 m2 fds need_reply w s :
  0 ≤ msg_size m1 ≤ sizeof_payload →
  agree_below (message_len m1) m1 m2 →
  exchange dev req arg m2 fds need_reply (with_stack s w) =
  on_stack s (exchange dev req arg m1 fds need_reply w).
Proof.
  intros Hsz Hag. unfold exchange, bindM.
  assert (msg_size m2 = msg_size m1) as ->.
  { symmetry. eapply agree_below_get_u32; [done|].
    unfold message_len, VHOST_USER_HDR_SIZE, off_size. lia. }
  rewrite (vhost_user_write_stack _ m1 m2).
  2:{ rewrite to_int_small.
      - by apply agree_below_load.
      - unfold VHOST_USER_HDR_SIZE, sizeof_payload, VHOST_MEMORY_MAX_NREGIONS,
          sizeof_memory_region in *. lia. }
  destruct (vhost_user_write _ m1 _ _ w) as [[r w1]|]; [|done]. cbn [on_stack].
  destruct (r <? 0); [done|].
  destruct (is_set_mem_table req).
  - rewrite close_fds_stack. destruct (close_fds fds w1) as [[[] w2]|]; [|done].
    cbn [on_stack]. destruct need_reply; [|done]. apply read_reply_stack.
  - unfold retM. destruct need_reply; [|done]. apply read_reply_stack.
Qed.

(** What the stack held where the message is allocated makes no
    difference: the return value, the object behind the argument, the
    system calls and every byte sent are the same.  No byte of the
    uninitialised message reaches the peer or a decision. *)
Theorem requests_ignore_the_stack dev req arg w s :
  vhost_user_sock dev req arg (with_stack s w) =
  on_stack s (vhost_user_sock dev req arg w).
Proof.
  unfold vhost_user_sock. destruct (is_server dev && (vhostfd dev <? 0)); [done|].
  unfold bindM. cbn [stack with_stack].
  pose proof (build_request_stack req arg (stack w) s w s) as Hb.
  destruct (build_request req arg (request_header req (stack w)) w)
    as [[[msg1 fds need|r] w1]|].
  - destruct Hb as (msg2 & -> & Hsz & Hag). by apply exchange_stack.
  - by rewrite Hb.
  - by rewrite Hb.
Qed.

(** ** Names of hugepage files *)

Local Open Scope string_scope.

Lemma string_app_cons a (s1 s2 : string) : String a s1 +:+ s2 = String a (s1 +:+ s2).
Proof. reflexivity. Qed.

Lemma string_app_nil (s : string) : "" +:+ s = s.
Proof. reflexivity. Qed.

Lemma string_length_app (s1 s2 : string) :
  String.length (s1 +:+ s2) = (String.length s1 + String.length s2)%nat.
Proof.
  induction s1 as [|a s1 IH]; [done|]. rewrite string_app_cons. simpl. by rewrite IH.
Qed.

Lemma string_app_assoc (s1 s2 s3 : string) : (s1 +:+ s2) +:+ s3 = s1 +:+ (s2 +:+ s3).
Proof.
  induction s1 as [|a s1 IH]; [done|]. rewrite !string_app_cons. by rewrite IH.
Qed.

Lemma string_split (s : string) : ∀ n,
  (n ≤ String.length s)%nat → ∃ a b, s = a +:+ b ∧ String.length a = n.
Proof.
  induction s as [|c s IH]; intros [|n] Hn; simpl in Hn.
  - by exists "", "".
  - lia.
  - by exists "", (String c s).
  - destruct (IH n) as (a & b & -> & Hlen); [lia|].
    exists (String c a), b. rewrite string_app_cons. simpl. by rewrite Hlen.
Qed.

Lemma str_from_app (s1 s2 : string) : str_from (String.length s1) (s1 +:+ s2) = s2.
Proof.
  unfold str_from. rewrite string_length_app.
  replace (String.length s1 + String.length s2 - String.length s1)%nat
    with (String.length s2) by lia.
  induction s1 as [|a s1 IH]; [by apply substring_all|].
  rewrite string_app_cons. simpl. done.
Qed.

Lemma strrchr_found (s1 s2 : string) c :
  strrchr s2 c = None → strrchr (s1 +:+ String c s2) c = Some (String.length s1).
Proof.
  intros H2. induction s1 as [|a s1 IH].
  - rewrite string_app_nil. simpl. rewrite H2. by rewrite Ascii.eqb_refl.
  - rewrite string_app_cons. simpl. by rewrite IH.
Qed.

Lemma strrchr_Some (s : string) c : ∀ i,
  strrchr s c = Some i →
  ∃ s1 s2, s = s1 +:+ String c s2 ∧ String.length s1 = i ∧ strrchr s2 c = None.
Proof.
  induction s as [|a s IH]; intros i; simpl; [done|].
  destruct (strrchr s c) as [j|] eqn:Hs.
  - intros [= <-]. destruct (IH j eq_refl) as (s1 & s2 & -> & Hlen & Hnone).
    exists (String a s1), s2. rewrite string_app_cons. simpl. by rewrite Hlen.
  - destruct (Ascii.eqb a c) eqn:Hac; [|done]. intros [= <-].
    apply Ascii.eqb_eq in Hac as ->. by exists "", s.
Qed.

Lemma sscanf_map_d_spec (s : string) :
  sscanf_map_d s = true ↔ ∃ rest, s = "map_" +:+ rest ∧ starts_number rest = true.
Proof.
  unfold sscanf_map_d, starts_number. split.
  - destruct s as [|m [|a [|p [|u rest]]]]; try done.
    rewrite !andb_true_iff, !Ascii.eqb_eq. intros [[[[-> ->] ->] ->] Hnum].
    by exists rest.
  - intros (rest & -> & Hnum). rewrite !string_app_cons, string_app_nil.
    by rewrite !Ascii.eqb_refl.
Qed.

(** Which pathnames the discovery takes for hugepage files: those
    that end in [map_], a number and anything without an underscore.
    Nothing else of the name is looked at. *)
Theorem match_hugefile_spec (tmp : string) :
  match_hugefile tmp = true ↔
  ∃ pre suf, tmp = pre +:+ "map_" +:+ suf ∧
             strrchr suf "_" = None ∧ starts_number suf = true.
Proof.
  unfold match_hugefile. split.
  - destruct (strrchr tmp "_") as [u|] eqn:Hu; [|done].
    apply strrchr_Some in Hu as (s1 & s2 & -> & Hlen & Hnone).
    destruct (u <? 3)%nat eqn:Hlt; [done|]. apply Nat.ltb_ge in Hlt.
    destruct (string_split s1 (u - 3)) as (pre & t & -> & Hpre); [lia|].
    rewrite string_app_assoc, <- Hpre, str_from_app.
    rewrite string_length_app in Hlen.
    intros (rest & Heq & Hnum)%sscanf_map_d_spec.
    destruct t as [|a [|b [|c [|d t]]]]; simpl in Hlen; try lia.
    rewrite !string_app_cons, !string_app_nil in Heq. injection Heq as -> -> -> ->.
    exists pre, rest. by rewrite !string_app_cons, !string_app_nil.
  - intros (pre & suf & -> & Hnone & Hnum).
    change ("map_" +:+ suf) with ("map" +:+ String "_" suf).
    rewrite <- string_app_assoc, strrchr_found by done.
    rewrite string_length_app. cbn [String.length].
    destruct (String.length pre + 3 <? 3)%nat eqn:Hlt; [apply Nat.ltb_lt in Hlt; lia|].
    replace (String.length pre + 3 - 3)%nat with (String.length pre) by lia.
    rewrite string_app_assoc, str_from_app. apply sscanf_map_d_spec. by exists suf.
Qed.

Local Close Scope string_scope.

(** * Examples, witnesses and failing inputs *)

(** Claim C3: the code fails it.  The memory table names one file;
    [open] returns descriptor 4 for it; the send fails with EPIPE.
    [vhost_user_sock] returns -1 at line 364, before the loop that
    closes the descriptors: descriptor 4 was opened, was not closed,
    and is in the descriptor table when the call returns. *)
Theorem mem_table_send_failure_leaks :
  (fst <$> vhost_user_sock example_dev VHOST_USER_SET_MEM_TABLE ArgNull send_fails_world
     = Some (-1, ArgNull)) ∧
  let w' := world_after
              (vhost_user_sock example_dev VHOST_USER_SET_MEM_TABLE ArgNull send_fails_world)
              send_fails_world in
  opened_fds (trace w') = [4] ∧ closed_fds (trace w') = [] ∧
  bool_decide (4 ∈ fd_table w') = true ∧
  bool_decide (4 ∈ fd_table send_fails_world) = false.
Proof. vm_compute. done. Qed.

(** The same call in a world where the send succeeds closes what it opened. *)
Example mem_table_success_closes :
  (fst <$> vhost_user_sock example_dev VHOST_USER_SET_MEM_TABLE ArgNull accepting_world
     = Some (0, ArgNull)) ∧
  let w' := world_after
              (vhost_user_sock example_dev VHOST_USER_SET_MEM_TABLE ArgNull accepting_world)
              accepting_world in
  opened_fds (trace w') = [4] ∧ closed_fds (trace w') = [4] ∧
  bool_decide (4 ∈ fd_table w') = false.
Proof. vm_compute. done. Qed.

(** Address ranges as [sscanf] reads them: a 0x without digits is the
    number 0, a sign negates modulo 2^64, and a letter that is no
    digit ends the number. *)
Example sscanf_range_examples :
  sscanf_range "7f0000000000-7f0040000000 rw-s" = Some (0x7f0000000000, 0x7f0040000000) ∧
  sscanf_range "0x-1000 rw-s" = Some (0, 0x1000) ∧
  sscanf_range "0X-0X" = Some (0, 0) ∧
  sscanf_range "-0x10-1" = Some (2 ^ 64 - 16, 1) ∧
  sscanf_range "0xg-1" = None ∧
  sscanf_range "vsyscall" = None.
Proof. vm_compute. done. Qed.

(** Claim C6: the code fails it.  One hugepage file, mapped twice,
    whose pathname has 4096 bytes.  Line 204 stores the pathname cut
    to 4095 bytes; at the second line of the file, line 189 compares
    the stored pathname with the whole one, finds no record and
    writes a second one.  Discovery returns two records for one file;
    neither is under its pathname, and neither has the size of the
    file: [stat] is asked about the cut pathname. *)
Theorem long_path_recorded_twice :
  hugepage_files long_path_maps = [long_hugefile] ∧
  stat_size long_path_world long_hugefile = Some 2147483648 ∧
  fst <$> get_hugepage_file_info VHOST_MEMORY_MAX_NREGIONS long_path_world =
    Some (2, [ {| huge_addr := 0x7f0000000000;
                  huge_size := 0x40000000;
                  huge_path := snprintf PATH_MAX long_hugefile |};
               {| huge_addr := 0x7f0080000000;
                  huge_size := 0x40000000;
                  huge_path := snprintf PATH_MAX long_hugefile |} ]) ∧
  String.length long_hugefile = PATH_MAX ∧
  String.length (snprintf PATH_MAX long_hugefile) = 4095%nat.
Proof. vm_compute. done. Qed.

(** Claim C7: the code fails it for the limit.  The table names nine
    hugepage files.  The eighth has a pathname of 4096 bytes that ends
    in rtemap_12; line 204 stores it cut to 4095 bytes, which is the
    pathname of the ninth file.  At the ninth file line 189 finds that
    record and takes the file for one it has seen; the test of line
    197 is not reached and discovery returns 8. *)
Theorem over_limit_not_detected :
  length (hugepage_files over_limit_maps) = 9%nat ∧
  snprintf PATH_MAX long_hugefile_12 = long_hugefile_1 ∧
  (fst ∘ fst) <$> get_hugepage_file_info VHOST_MEMORY_MAX_NREGIONS over_limit_world =
    Some 8 ∧
  huge_path <$> discovered VHOST_MEMORY_MAX_NREGIONS over_limit_world =
    take 7 (hugepage_files over_limit_maps) ++ [long_hugefile_1] ∧
  huge_addr <$> last (discovered VHOST_MEMORY_MAX_NREGIONS over_limit_world) =
    Some 0x7f01c0000000.
Proof. vm_compute. done. Qed.

Lemma dispatch_header_size_witness :
  (∃ res w' k buf fds,
     vhost_user_sock example_dev VHOST_USER_SET_MEM_TABLE ArgNull accepting_world =
       Some (res, w') ∧
     sends (new_events accepting_world w') =
       replicate (S k) (EvSendmsg (vhostfd example_dev) buf fds) ∧
     payload_size_spec VHOST_USER_SET_MEM_TABLE (wire_nregions buf) = Some (wire_size buf) ∧
     Z.of_nat (length buf) = VHOST_USER_HDR_SIZE + wire_size buf ∧
     wire_request buf = request_code VHOST_USER_SET_MEM_TABLE ∧
     (VHOST_USER_SET_MEM_TABLE = VHOST_USER_SET_MEM_TABLE →
      Z.of_nat (length fds) = wire_nregions buf)) ∧
  (∃ res w' k buf fds,
     vhost_user_sock example_dev VHOST_USER_GET_FEATURES (ArgU64 0) broken_pipe_world =
       Some (res, w') ∧
     sends (new_events broken_pipe_world w') =
       replicate (S k) (EvSendmsg (vhostfd example_dev) buf fds) ∧
     payload_size_spec VHOST_USER_GET_FEATURES (wire_nregions buf) = Some (wire_size buf) ∧
     Z.of_nat (length buf) = VHOST_USER_HDR_SIZE + wire_size buf ∧
     wire_request buf = request_code VHOST_USER_GET_FEATURES ∧
     (VHOST_USER_GET_FEATURES = VHOST_USER_SET_MEM_TABLE →
      Z.of_nat (length fds) = wire_nregions buf)) ∧
  (∃ res w' k buf fds,
     vhost_user_sock example_dev VHOST_USER_SET_VRING_ADDR (ArgAddr example_addr)
       accepting_world = Some (res, w') ∧
     sends (new_events accepting_world w') =
       replicate (S k) (EvSendmsg (vhostfd example_dev) buf fds) ∧
     payload_size_spec VHOST_USER_SET_VRING_ADDR (wire_nregions buf) = Some (wire_size buf) ∧
     Z.of_nat (length buf) = VHOST_USER_HDR_SIZE + wire_size buf ∧
     wire_request buf = request_code VHOST_USER_SET_VRING_ADDR ∧
     (VHOST_USER_SET_VRING_ADDR = VHOST_USER_SET_MEM_TABLE →
      Z.of_nat (length fds) = wire_nregions buf)).
Proof.
  split; [|split].
  - refine (dispatch_header_size example_dev VHOST_USER_SET_MEM_TABLE ArgNull
              accepting_world _ _ _ _); [reflexivity|by eexists|reflexivity|].
    intros _. eexists _, _, _. split; [vm_compute; reflexivity|lia].
  - refine (dispatch_header_size example_dev VHOST_USER_GET_FEATURES (ArgU64 0)
              broken_pipe_world _ _ _ _); [reflexivity|by eexists|reflexivity|].
    intros [=].
  - refine (dispatch_header_size example_dev VHOST_USER_SET_VRING_ADDR
              (ArgAddr example_addr) accepting_world _ _ _ _);
      [reflexivity|by eexists|reflexivity|].
    intros [=].
Defined.

(** The same requests, run: the messages sent have 12 + 40, 12 and
    12 + 40 bytes. *)
Example dispatch_header_size_examples :
  let sent_by req arg w :=
    (λ e, match e with
          | EvSendmsg _ buf _ => (wire_request buf, wire_size buf, length buf)
          | _ => (0, 0, O)
          end) <$> sends (new_events w (world_after (vhost_user_sock example_dev req arg w) w)) in
  sent_by VHOST_USER_SET_MEM_TABLE ArgNull accepting_world = [(5, 40, 52%nat)] ∧
  sent_by VHOST_USER_GET_FEATURES (ArgU64 0) broken_pipe_world =
    [(1, 0, 12%nat); (1, 0, 12%nat); (1, 0, 12%nat)] ∧
  sent_by VHOST_USER_SET_VRING_ADDR (ArgAddr example_addr) accepting_world =
    [(9, 40, 52%nat)] ∧
  sent_by VHOST_USER_SET_OWNER ArgNull accepting_world = [(3, 0, 12%nat)] ∧
  sent_by VHOST_USER_SET_FEATURES (ArgU64 7) accepting_world = [(2, 8, 20%nat)] ∧
  sent_by VHOST_USER_SET_VRING_NUM (ArgState example_state) accepting_world =
    [(8, 8, 20%nat)].
Proof. vm_compute. done. Qed.


(** [vhost_user_write] returns what [sendmsg] returns and the
    dispatcher tests it for [< 0] only; the count is compared with
    [len] nowhere.  Were a socket to take 5 of the 12 bytes of a
    set-owner message (one for which [takes_whole] fails),
    [vhost_user_write] would return 5 and [vhost_user_sock] 0. *)
Example write_count_not_compared :
  ¬ takes_whole (head (tx_script short_write_world)) ∧
  (fst <$> vhost_user_write 3 (request_header VHOST_USER_SET_OWNER (stack short_write_world))
             12 [] short_write_world = Some 5) ∧
  (fst <$> vhost_user_sock example_dev VHOST_USER_SET_OWNER ArgNull short_write_world
     = Some (0, ArgNull)).
Proof. split; [vm_compute; lia|]. vm_compute. done. Qed.

Lemma vhost_user_read_validates_header_witness :
  ∃ r msg' w',
    vhost_user_read 3 (stack oversized_reply_world) oversized_reply_world =
      Some ((r, msg'), w') ∧
    (wire_flags oversized_reply ≠ valid_flags ∨
     sizeof_payload < wire_size oversized_reply →
       r = -1 ∧
       w' = set_rx_script (rx_left 12 (rx_script oversized_reply_world))
              (log (EvRecv 3 0 12) oversized_reply_world)) ∧
    (trace w' = trace oversized_reply_world ++ [EvRecv 3 0 12] ∨
     ∃ n, (n ≤ 264)%nat ∧ Z.of_nat n = wire_size oversized_reply ∧
          trace w' = trace oversized_reply_world ++ [EvRecv 3 0 12; EvRecv 3 12 n]).
Proof.
  apply (vhost_user_read_validates_header 3 (stack oversized_reply_world)
           oversized_reply_world oversized_reply []).
  - reflexivity.
  - vm_compute. lia.
Defined.

Lemma stat_failure_keeps_placeholder_witness :
  ∃ huges,
    get_hugepage_file_info 8 stat_fails_world =
      Some ((Z.of_nat (length (hugepage_files example_maps)), huges), stat_fails_world) ∧
    filter (λ h, huge_path h = hugefile_0) huges =
    [ {| huge_addr := example_mapping.1.1;
         huge_size := to_size_t (example_mapping.1.2 - example_mapping.1.1);
         huge_path := hugefile_0 |} ].
Proof.
  apply (stat_failure_keeps_placeholder stat_fails_world example_maps 8 hugefile_0
           example_mapping).
  - reflexivity.
  - compute_done.
  - compute_done.
  - vm_compute. congruence.
  - vm_compute. reflexivity.
  - reflexivity.
Defined.

Lemma vring_file_request_witness :
  ∃ r w' k buf fds,
    vhost_user_sock example_dev VHOST_USER_SET_VRING_KICK (ArgFile kick_without_fd)
      accepting_world = Some ((r, ArgFile kick_without_fd), w') ∧
    trace w' = trace accepting_world ++
               replicate (S k) (EvSendmsg (vhostfd example_dev) buf fds) ∧
    wire_request buf = request_code VHOST_USER_SET_VRING_KICK ∧
    wire_size buf = sizeof_u64 ∧
    length buf = 20%nat ∧
    if 0 <? file_fd kick_without_fd
    then fds = [file_fd kick_without_fd] ∧
         wire_payload_u64 buf =
           Z.land (file_index kick_without_fd) VHOST_USER_VRING_IDX_MASK ∧
         Z.land (wire_payload_u64 buf) VHOST_USER_VRING_NOFD_MASK = 0
    else fds = [] ∧
         wire_payload_u64 buf =
           Z.lor (Z.land (file_index kick_without_fd) VHOST_USER_VRING_IDX_MASK)
                 VHOST_USER_VRING_NOFD_MASK.
Proof.
  apply (vring_file_request example_dev VHOST_USER_SET_VRING_KICK kick_without_fd
           accepting_world).
  - left. reflexivity.
  - reflexivity.
Defined.

(** The two examples of the specification, evaluated. *)
Example kick_examples :
  sent_scalars (trace (world_after
    (vhost_user_sock example_dev VHOST_USER_SET_VRING_KICK (ArgFile kick_without_fd)
       accepting_world) accepting_world)) =
    [(12, 8, Z.lor 3 VHOST_USER_VRING_NOFD_MASK, [])] ∧
  sent_scalars (trace (world_after
    (vhost_user_sock example_dev VHOST_USER_SET_VRING_KICK (ArgFile kick_with_fd)
       accepting_world) accepting_world)) =
    [(12, 8, 3, [7])].
Proof. vm_compute. done. Qed.

Lemma enable_queue_pair_dispatches_witness :
  ∃ r1 w1,
    vhost_user_sock example_dev VHOST_USER_SET_VRING_ENABLE (ring_state 2 0 1)
      two_sends_world = Some ((r1, ring_state 2 0 1), w1) ∧
    if r1 =? 0 then
      ∃ r2 w2,
        vhost_user_sock example_dev VHOST_USER_SET_VRING_ENABLE (ring_state 2 1 1) w1 =
          Some ((r2, ring_state 2 1 1), w2) ∧
        vhost_user_enable_queue_pair example_dev 2 1 two_sends_world =
          Some (if r2 =? 0 then 0 else -1, w2)
    else vhost_user_enable_queue_pair example_dev 2 1 two_sends_world = Some (-1, w1).
Proof.
  apply (enable_queue_pair_dispatches example_dev 2 1 two_sends_world). lia.
Defined.

(** The example of the specification, evaluated: rings 4 and 5, both
    with value 1; and one message only when the first send fails. *)
Example enable_queue_pair_examples :
  (fst <$> vhost_user_enable_queue_pair example_dev 2 1 two_sends_world = Some 0) ∧
  sent_states (trace (world_after
    (vhost_user_enable_queue_pair example_dev 2 1 two_sends_world) two_sends_world)) =
    [ (18, {| state_index := 4; state_num := 1 |});
      (18, {| state_index := 5; state_num := 1 |}) ] ∧
  (fst <$> vhost_user_enable_queue_pair example_dev 2 1 first_send_fails_world
     = Some (-1)) ∧
  sent_states (trace (world_after
    (vhost_user_enable_queue_pair example_dev 2 1 first_send_fails_world)
    first_send_fails_world)) =
    [ (18, {| state_index := 4; state_num := 1 |}) ].
Proof. vm_compute. done. Qed.

Lemma get_features_reply_checked_witness :
  ∃ w', vhost_user_sock example_dev VHOST_USER_GET_FEATURES (ArgU64 0) bad_reply_world =
          Some ((-1, ArgU64 0), w').
Proof.
  apply (proj1 (get_features_reply_checked example_dev (ArgU64 0) bad_reply_world)
           bad_reply []).
  - reflexivity.
  - vm_compute. lia.
  - left. vm_compute. congruence.
Defined.

Lemma dispatch_success_sent_witness :
  ∃ k buf fds,
    sends (new_events accepting_world mem_table_after) =
    replicate (S k) (EvSendmsg (vhostfd example_dev) buf fds).
Proof.
  apply (dispatch_success_sent example_dev VHOST_USER_SET_MEM_TABLE ArgNull
           accepting_world ArgNull mem_table_after).
  vm_compute. reflexivity.
Defined.

Lemma unsupported_request_fails_witness :
  vhost_user_sock unconnected_server VHOST_USER_SET_OWNER ArgNull example_world =
    Some ((-1, ArgNull), example_world) ∧
  vhost_user_sock example_dev VHOST_USER_SET_PROTOCOL_FEATURES (ArgU64 1) example_world =
    Some ((-1, ArgU64 1), example_world).
Proof.
  split.
  - apply (unsupported_request_fails unconnected_server VHOST_USER_SET_OWNER ArgNull
             example_world).
    right. reflexivity.
  - apply (unsupported_request_fails example_dev VHOST_USER_SET_PROTOCOL_FEATURES (ArgU64 1)
             example_world).
    left. reflexivity.
Defined.

Lemma get_vring_base_reply_checked_witness :
  (0 = -1 ∧ ArgState {| state_index := 2; state_num := 17 |} = vring_base_request) ∨
  (0 = 0 ∧ ∃ data rest s,
     rx_script vring_base_reply_world = RxData data :: rest ∧
     wire_request data = request_code VHOST_USER_GET_VRING_BASE ∧
     wire_size data = sizeof_vring_state ∧
     ArgState {| state_index := 2; state_num := 17 |} = ArgState s).
Proof.
  apply (get_vring_base_reply_checked example_dev vring_base_request vring_base_reply_world
           0 (ArgState {| state_index := 2; state_num := 17 |}) vring_base_after).
  vm_compute. reflexivity.
Defined.

Lemma mem_table_success_closes_all_witness :
  closed_fds (new_events accepting_world mem_table_after) =
    opened_fds (new_events accepting_world mem_table_after) ∧
  fd_table mem_table_after = fd_table accepting_world.
Proof.
  apply (mem_table_success_closes_all example_dev ArgNull accepting_world ArgNull
           mem_table_after).
  - vm_compute. reflexivity.
  - compute_done.
Defined.

(** ** Witnesses of the properties beyond the claims *)

Ltac find_event :=
  vm_compute; repeat first [apply list_elem_of_here | apply list_elem_of_further].

Lemma setup_failure_releases_socket_witness :
  fd_table (files long_path_host) = fd_table (files example_host) ∧
  vhostfd long_path_dev = vhostfd long_path_dev ∧
  if socket_ok (env example_host)
  then closed_fds (new_events (files example_host) (files long_path_host)) =
         [fresh (fd_table (files example_host))] ∧
       sockets long_path_host !! fresh (fd_table (files example_host)) = None ∧
       if is_server long_path_dev
       then long_path_dev = set_listenfd (fresh (fd_table (files example_host)))
                              long_path_dev ∧
            listenfd long_path_dev ∉ fd_table (files long_path_host)
       else long_path_dev = long_path_dev
  else long_path_host = log_call (CallSocket (-1)) example_host ∧
       long_path_dev = long_path_dev.
Proof.
  refine (setup_failure_releases_socket long_path_dev example_host long_path_dev
    long_path_host _);
    [vm_compute; reflexivity].
Defined.

Lemma setup_client_connects_witness :
  0 ≤ vhostfd client_after ∧
  (vhostfd client_after ∉ fd_table (files example_host)) ∧
  fd_table (files client_host) =
    ({[vhostfd client_after]} ∪ fd_table (files example_host)) ∧
  listenfd client_after = listenfd example_dev ∧
  trace (files client_host) = trace (files example_host) ∧
  ∃ s, sockets client_host !! vhostfd client_after = Some s ∧
  connected_to s = Some (sun_path_of example_dev) ∧
  listen_backlog s = None ∧
  Z.land (fd_flags s) FD_CLOEXEC = FD_CLOEXEC.
Proof.
  refine (setup_client_connects example_dev example_host client_after client_host _ _);
    [reflexivity |
     vm_compute; reflexivity].
Defined.

Lemma setup_server_listens_witness :
  vhostfd server_after = -1 ∧
  0 ≤ listenfd server_after ∧
  (listenfd server_after ∉ fd_table (files example_host)) ∧
  fd_table (files server_host) =
    ({[listenfd server_after]} ∪ fd_table (files example_host)) ∧
  trace (files server_host) = trace (files example_host) ∧
  ∃ s, sockets server_host !! listenfd server_after = Some s ∧
  bound_to s = Some (sun_path_of server_dev) ∧
  listen_backlog s = Some 1 ∧
  connected_to s = None ∧
  Z.land (status_flags s) O_NONBLOCK = O_NONBLOCK ∧
  Z.land (fd_flags s) FD_CLOEXEC = FD_CLOEXEC.
Proof.
  refine (setup_server_listens server_dev example_host server_after server_host _ _);
    [reflexivity |
     vm_compute; reflexivity].
Defined.

Lemma setup_address_truncated_witness :
  sun_path_of long_path_dev = substring 0 107 (path long_path_dev) ∧
  (String.length (sun_path_of long_path_dev) ≤ 107)%nat ∧
  (sun_path_of long_path_dev = path long_path_dev ↔
   (String.length (path long_path_dev) < 108)%nat).
Proof.
  refine (setup_address_truncated long_path_dev example_host (-1) long_path_dev
    long_path_host (sun_path_of long_path_dev) _ _);
    [vm_compute; reflexivity |
     vm_compute; apply list_elem_of_here].
Defined.

Lemma dispatch_flags_and_descriptor_witness :
  3 = vhostfd example_dev ∧
  wire_flags mem_table_message = VHOST_USER_VERSION ∧
  Z.land (wire_flags mem_table_message) VHOST_USER_REPLY_MASK = 0.
Proof.
  refine (dispatch_flags_and_descriptor example_dev VHOST_USER_SET_MEM_TABLE ArgNull
    accepting_world (0, ArgNull) mem_table_after 3 mem_table_message [4] _ _);
    [vm_compute; reflexivity |
     find_event].
Defined.

Lemma scalar_request_wire_witness :
  wire_payload_u64
    (message_of example_dev VHOST_USER_SET_FEATURES (ArgU64 23) accepting_world) = 23 ∧
  length (message_of example_dev VHOST_USER_SET_FEATURES (ArgU64 23) accepting_world) =
    20%nat ∧
  @nil Z = [].
Proof.
  refine (scalar_request_wire example_dev VHOST_USER_SET_FEATURES 23 accepting_world
    (outcome example_dev VHOST_USER_SET_FEATURES (ArgU64 23) accepting_world) (after
    example_dev VHOST_USER_SET_FEATURES (ArgU64 23) accepting_world) 3 (message_of
    example_dev VHOST_USER_SET_FEATURES (ArgU64 23) accepting_world) [] _ _ _ _);
    [left; reflexivity |
     lia |
     vm_compute; reflexivity |
     find_event].
Defined.

Lemma state_request_wire_witness :
  wire_payload_state
    (message_of example_dev VHOST_USER_SET_VRING_NUM (ArgState example_state)
       accepting_world) = example_state ∧
  length (message_of example_dev VHOST_USER_SET_VRING_NUM (ArgState example_state)
            accepting_world) = 20%nat ∧
  @nil Z = [].
Proof.
  refine (state_request_wire example_dev VHOST_USER_SET_VRING_NUM example_state
    accepting_world (outcome example_dev VHOST_USER_SET_VRING_NUM (ArgState
    example_state) accepting_world) (after example_dev VHOST_USER_SET_VRING_NUM
    (ArgState example_state) accepting_world) 3 (message_of example_dev
    VHOST_USER_SET_VRING_NUM (ArgState example_state) accepting_world) [] _ _ _ _);
    [left; reflexivity |
     unfold state_ok; simpl; lia |
     vm_compute; reflexivity |
     find_event].
Defined.

Lemma vring_addr_request_wire_witness :
  wire_payload_addr
    (message_of example_dev VHOST_USER_SET_VRING_ADDR (ArgAddr example_addr)
       accepting_world) = example_addr ∧
  length (message_of example_dev VHOST_USER_SET_VRING_ADDR (ArgAddr example_addr)
            accepting_world) = 52%nat ∧
  @nil Z = [].
Proof.
  refine (vring_addr_request_wire example_dev example_addr accepting_world (outcome
    example_dev VHOST_USER_SET_VRING_ADDR (ArgAddr example_addr) accepting_world) (after
    example_dev VHOST_USER_SET_VRING_ADDR (ArgAddr example_addr) accepting_world) 3
    (message_of example_dev VHOST_USER_SET_VRING_ADDR (ArgAddr example_addr)
    accepting_world) [] _ _ _);
    [unfold addr_ok; simpl; lia |
     vm_compute; reflexivity |
     find_event].
Defined.

Lemma request_descriptors_witness :
  [7] = match VHOST_USER_SET_LOG_FD, ArgInt 7 with
        | VHOST_USER_SET_LOG_FD, ArgInt log_fd => [log_fd]
        | _, _ => []
        end.
Proof.
  refine (request_descriptors example_dev VHOST_USER_SET_LOG_FD (ArgInt 7)
    accepting_world (outcome example_dev VHOST_USER_SET_LOG_FD (ArgInt 7)
    accepting_world) (after example_dev VHOST_USER_SET_LOG_FD (ArgInt 7)
    accepting_world) 3 (message_of example_dev VHOST_USER_SET_LOG_FD (ArgInt 7)
    accepting_world) [7] _ _ _ _ _ _);
    [done |
     done |
     done |
     done |
     vm_compute; reflexivity |
     find_event].
Defined.

Lemma server_setup_blocks_requests_witness :
  (∀ req arg w, send_request ops_user server_after req arg w = Some ((-1, arg), w)) ∧
  (∀ pair_idx enable w,
     enable_qp ops_user server_after pair_idx enable w = Some (-1, w)).
Proof.
  refine (server_setup_blocks_requests server_dev example_host server_after server_host
    _ _);
    [reflexivity |
     vm_compute; reflexivity].
Defined.

Lemma client_setup_then_requests_witness :
  vhostfd client_after ∈ fd_table (files client_host) ∧
  ∃ s, sockets client_host !! vhostfd client_after = Some s ∧
  connected_to s = Some (sun_path_of example_dev).
Proof.
  refine (client_setup_then_requests example_dev example_host client_after client_host
    VHOST_USER_SET_OWNER ArgNull (outcome client_after VHOST_USER_SET_OWNER ArgNull
    (files client_host)) (after client_after VHOST_USER_SET_OWNER ArgNull (files
    client_host)) (vhostfd client_after) (message_of client_after VHOST_USER_SET_OWNER
    ArgNull (files client_host)) [] _ _ _ _);
    [reflexivity |
     vm_compute; reflexivity |
     vm_compute; reflexivity |
     find_event].
Defined.

Lemma vhost_user_read_short_header_witness :
  ∃ msg',
    vhost_user_read 3 (stack short_header_world) short_header_world =
      Some ((-1, msg'),
            set_rx_script (rx_left 12 (rx_script short_header_world))
              (log (EvRecv 3 0 12) short_header_world)) ∧
    ∀ i, (pending (rx_script short_header_world) ≤ i)%nat →
         msg' i = stack short_header_world i.
Proof.
  refine (vhost_user_read_short_header 3 (stack short_header_world) short_header_world
    _);
    [vm_compute; lia].
Defined.

Lemma vhost_user_read_short_payload_witness :
  ∃ msg' w',
    vhost_user_read 3 (stack short_payload_world) short_payload_world =
      Some ((-1, msg'), w') ∧
    trace w' = trace short_payload_world ++
               [EvRecv 3 0 12;
                EvRecv 3 12 (Z.to_nat (wire_size (take 16 features_reply)))] ∧
    rx_script w' = rx_left (Z.to_nat (wire_size (take 16 features_reply)))
                     (rx_left 12 (rx_script short_payload_world)).
Proof.
  refine (vhost_user_read_short_payload 3 (stack short_payload_world)
    short_payload_world (take 16 features_reply) [RxData (drop 16 features_reply)] _ _ _
    _ _);
    [reflexivity |
     vm_compute; lia |
     reflexivity |
     vm_compute; congruence |
     vm_compute; lia].
Defined.

Lemma vhost_user_read_receives_witness :
  ∃ msg' w',
    vhost_user_read 3 (stack two_replies_world) two_replies_world =
      Some ((0, msg'), w') ∧
    msg_request msg' = wire_request (features_reply ++ vring_base_reply) ∧
    msg_flags msg' = valid_flags ∧
    msg_size msg' = wire_size (features_reply ++ vring_base_reply) ∧
    load 12 (Z.to_nat (wire_size (features_reply ++ vring_base_reply))) msg' =
      take (Z.to_nat (wire_size (features_reply ++ vring_base_reply)))
        (wire_payload (features_reply ++ vring_base_reply)) ∧
    (∀ i, (12 + Z.to_nat (wire_size (features_reply ++ vring_base_reply)) ≤ i)%nat →
          msg' i = stack two_replies_world i) ∧
    rx_script w' =
      rx_left (12 + Z.to_nat (wire_size (features_reply ++ vring_base_reply)))
        (rx_script two_replies_world).
Proof.
  refine (vhost_user_read_receives 3 (stack two_replies_world) two_replies_world
    (features_reply ++ vring_base_reply) [] _ _ _ _);
    [reflexivity |
     reflexivity |
     vm_compute; congruence |
     vm_compute; lia].
Defined.

Lemma reply_round_trip_witness :
  ∃ w' : world,
    vhost_user_sock example_dev VHOST_USER_GET_FEATURES (ArgU64 0) two_replies_world =
      Some (0, ArgU64 (wire_payload_u64 (features_reply ++ vring_base_reply)), w') ∧
  rx_script w' = rx_left 20 (rx_script two_replies_world) ∧
  tx_script w' = [TxAccept 4096].
Proof.
  refine (reply_round_trip example_dev VHOST_USER_GET_FEATURES (ArgU64 0)
    two_replies_world 1 4096%nat [TxAccept 4096] (features_reply ++ vring_base_reply) []
    _ _ _ _ _ _ _);
    [reflexivity |
     reflexivity |
     reflexivity |
     reflexivity |
     reflexivity |
     left; split; [reflexivity|split; [reflexivity|by exists 0]] |
     vm_compute; lia].
Defined.

Lemma mem_table_wire_witness :
  let huges := discovered VHOST_MEMORY_MAX_NREGIONS accepting_world in
  (length huges ≤ 8)%nat ∧
  wire_nregions mem_table_message = Z.of_nat (length huges) ∧
  wire_padding mem_table_message = 0 ∧
  length mem_table_message = (20 + 32 * length huges)%nat ∧
  ∀ i h, huges !! i = Some h → wire_region i mem_table_message = region_of h.
Proof.
  refine (mem_table_wire example_dev ArgNull accepting_world (0, ArgNull)
    mem_table_after 3 mem_table_message [4] _ _);
    [vm_compute; reflexivity |
     find_event].
Defined.

Lemma mem_table_descriptors_witness :
  let huges := discovered VHOST_MEMORY_MAX_NREGIONS unopenable_world in
  opened_paths
    (new_events unopenable_world
       (after example_dev VHOST_USER_SET_MEM_TABLE ArgNull unopenable_world)) =
    huge_path <$> huges ∧
  opened_fds
    (new_events unopenable_world
       (after example_dev VHOST_USER_SET_MEM_TABLE ArgNull unopenable_world)) = [-1] ∧
  ∀ i h, huges !! i = Some h →
    ∃ fd_i, [-1] !! i = Some fd_i ∧
      if openable unopenable_world (huge_path h)
      then 0 ≤ fd_i ∧ fd_i ∉ fd_table unopenable_world
      else fd_i = -1.
Proof.
  refine (mem_table_descriptors example_dev ArgNull unopenable_world (outcome
    example_dev VHOST_USER_SET_MEM_TABLE ArgNull unopenable_world) (after example_dev
    VHOST_USER_SET_MEM_TABLE ArgNull unopenable_world) 3 (message_of example_dev
    VHOST_USER_SET_MEM_TABLE ArgNull unopenable_world) [-1] _ _);
    [vm_compute; reflexivity |
     find_event].
Defined.

Lemma mem_table_discovery_failure_witness :
  vhost_user_sock example_dev VHOST_USER_SET_MEM_TABLE ArgNull bad_maps_world =
    Some ((-1, ArgNull), bad_maps_world).
Proof.
  refine (mem_table_discovery_failure example_dev ArgNull bad_maps_world (discovered 8
    bad_maps_world) _);
    [vm_compute; reflexivity].
Defined.

Lemma mem_table_without_hugepages_witness :
  ∃ r w' k buf,
    vhost_user_sock example_dev VHOST_USER_SET_MEM_TABLE ArgNull plain_maps_world =
      Some ((r, ArgNull), w') ∧
    new_events plain_maps_world w' =
      replicate (S k) (EvSendmsg (vhostfd example_dev) buf []) ∧
    wire_nregions buf = 0 ∧ wire_size buf = 8 ∧ length buf = 20%nat.
Proof.
  refine (mem_table_without_hugepages example_dev ArgNull plain_maps_world plain_maps _
    _ _ _);
    [reflexivity |
     reflexivity |
     compute_done |
     vm_compute; reflexivity].
Defined.

Lemma no_reply_never_reads_witness :
  (outcome example_dev VHOST_USER_SET_OWNER ArgNull two_replies_world).2 = ArgNull ∧
  rx_script (after example_dev VHOST_USER_SET_OWNER ArgNull two_replies_world) =
    rx_script two_replies_world ∧
  Forall (λ e, is_recv e = false)
    (new_events two_replies_world
       (after example_dev VHOST_USER_SET_OWNER ArgNull two_replies_world)).
Proof.
  refine (no_reply_never_reads example_dev VHOST_USER_SET_OWNER ArgNull
    two_replies_world (outcome example_dev VHOST_USER_SET_OWNER ArgNull
    two_replies_world) (after example_dev VHOST_USER_SET_OWNER ArgNull
    two_replies_world) _ _);
    [reflexivity |
     vm_compute; reflexivity].
Defined.

Lemma discovery_within_bounds_witness :
  Z.of_nat (length (discovered 8 two_files_world)) ≤ 8 ∧
  (2 = -1 ∨ 2 = Z.of_nat (length (discovered 8 two_files_world))) ∧
  two_files_world = two_files_world.
Proof.
  refine (discovery_within_bounds 8 two_files_world 2 (discovered 8 two_files_world)
    two_files_world _ _);
    [lia |
     vm_compute; reflexivity].
Defined.

Lemma discovery_order_witness :
  huge_path <$> discovered 8 two_files_world =
    first_occurrences (mapping_path <$> hugepage_mappings two_files_maps).
Proof.
  refine (discovery_order two_files_world two_files_maps 8 2 (discovered 8
    two_files_world) two_files_world _ _ _ _);
    [reflexivity |
     compute_done |
     vm_compute; reflexivity |
     lia].
Defined.

Lemma enable_queue_pair_wire_witness :
  ∃ w',
    vhost_user_enable_queue_pair example_dev 2 1 two_sends_world = Some (0, w') ∧
    sent_states (new_events two_sends_world w') =
      [ (request_code VHOST_USER_SET_VRING_ENABLE,
         {| state_index := 2 * 2; state_num := to_u32 1 |});
        (request_code VHOST_USER_SET_VRING_ENABLE,
         {| state_index := 2 * 2 + 1; state_num := to_u32 1 |}) ] ∧
    tx_script w' = [].
Proof.
  refine (enable_queue_pair_wire example_dev 2 1 two_sends_world 4096%nat 4096%nat [] _
    _ _);
    [reflexivity |
     lia |
     reflexivity].
Defined.
